(** * bfx-api: expectation dispatch, deferred sends and the connection controller

    A shallow embedding of the three classes of the package:

    - [Expectations] (Expectations.ts): the once-list and the whenever-list
      of (match, process) pairs and the dispatch [exec];
    - [ActionsStack] (ActionsStack.js): the queue of deferred actions with
      [add], [fire] and [reject];
    - [BfxApi] (BfxApi.ts): the controller that owns one of each, gates
      every outbound payload through [send] and routes inbound frames in
      [handleMessage].

    JavaScript methods mutate [this] and may throw, and what a method has
    already written stays written when it throws.  Methods are therefore
    functions from a world to a completion and a world. *)

From Stdlib Require Import List String Ascii ZArith Bool Arith Lia DecimalString.
Import ListNotations.

Set Implicit Arguments.
Set Warnings "-register-all".

Open Scope string_scope.
Open Scope list_scope.

(* ===================================================================== *)
(** ** JavaScript values carried by frames *)
(* ===================================================================== *)

(** What [JSON.parse] can return.  Numbers are the integers: the controller
    only compares numbers with [===] (channel ids, correlation ids, info
    codes); the one number it computes is the ping counter, whose [++] is
    written out in [BfxApi.increment]. *)
Inductive JSON : Type :=
| JNull
| JBool (b : bool)
| JNum (n : Z)
| JStr (s : string)
| JArr (items : list JSON)
| JObj (props : list (string * JSON)).

(** A value read out of a message: [None] is [undefined]. *)
Definition JSValue := option JSON.

Inductive JSError : Type :=
| TypeError
| SyntaxError.

Fixpoint lookup (name : string) (props : list (string * JSON)) : JSValue :=
  match props with
  | [] => None
  | (k, v) :: rest => if String.eqb k name then Some v else lookup name rest
  end.

(** [msg.name] for the names the controller reads ([event], [version],
    [pair], [cid], [chanId], [code], [ts]): an own property of an object,
    [undefined] on arrays, strings, numbers and booleans.  Reading a
    property of [null] throws; callers never get here with [null]
    (see [handleMessage]). *)
Definition prop (msg : JSON) (name : string) : JSValue :=
  match msg with
  | JObj props => lookup name props
  | _ => None
  end.

Definition index_name (i : nat) : string :=
  NilEmpty.string_of_uint (Nat.to_uint i).

(** [msg[i]]: the element of an array, the one-character string of a
    string, the property named by the decimal digits of [i] of an object. *)
Definition index (msg : JSON) (i : nat) : JSValue :=
  match msg with
  | JArr items => nth_error items i
  | JStr s => option_map (fun c => JStr (String c EmptyString)) (String.get i s)
  | JObj props => lookup (index_name i) props
  | _ => None
  end.

(** [a === b].  Primitives compare by value.  Objects and arrays compare by
    reference, and the two sides never hold the same reference here: one is
    read from the message at hand, the other is a constant or was read from
    an earlier message. *)
Definition strict_eq (a b : JSValue) : bool :=
  match a, b with
  | None, None => true
  | Some JNull, Some JNull => true
  | Some (JBool x), Some (JBool y) => Bool.eqb x y
  | Some (JNum x), Some (JNum y) => Z.eqb x y
  | Some (JStr x), Some (JStr y) => String.eqb x y
  | _, _ => false
  end.

(** ToBoolean, as applied by [&&], [if] and [Array.prototype.find]. *)
Definition truthy (v : JSValue) : bool :=
  match v with
  | None => false
  | Some JNull => false
  | Some (JBool b) => b
  | Some (JNum n) => negb (Z.eqb n 0)
  | Some (JStr s) => negb (String.eqb s EmptyString)
  | Some (JArr _) => true
  | Some (JObj _) => true
  end.

(* ===================================================================== *)
(** ** Methods: world passing with exceptions *)
(* ===================================================================== *)

Inductive Completion (A : Type) : Type :=
| Normal (a : A)
| Throw (e : JSError).

Arguments Normal {A} a.
Arguments Throw {A} e.

Definition JS (W A : Type) : Type := W -> Completion A * W.

Definition ret {W A : Type} (a : A) : JS W A := fun w => (Normal a, w).

Definition throw {W A : Type} (e : JSError) : JS W A := fun w => (Throw e, w).

Definition bind {W A B : Type} (c : JS W A) (k : A -> JS W B) : JS W B :=
  fun w =>
    match c w with
    | (Normal a, w') => k a w'
    | (Throw e, w') => (Throw e, w')
    end.

Definition modify {W : Type} (f : W -> W) : JS W unit := fun w => (Normal tt, f w).

Declare Scope js_scope.
Delimit Scope js_scope with js.
Notation "x <- c ;; k" := (bind c (fun x => k))
  (at level 61, c at next level, right associativity) : js_scope.
Notation "c ;; k" := (bind c (fun _ => k))
  (at level 61, right associativity) : js_scope.
Local Open Scope js_scope.

(** The world a method leaves behind, whether it returned or threw. *)
Definition after {W A : Type} (c : JS W A) (w : W) : W := snd (c w).

Definition result {W A : Type} (c : JS W A) (w : W) : Completion A := fst (c w).

(* ===================================================================== *)
(** ** Expectations.ts *)
(* ===================================================================== *)

Module Expectations.

(** [new Expectation(match, process)].  The class removes an entry with
    [exp !== expectation], a comparison of object references, so every
    object carries the address [ref] it was allocated at. *)
Record Expectation (MatchFunc ProcessFunc : Type) : Type := mkExpectation {
  ref : nat;
  matchf : MatchFunc;
  process : ProcessFunc
}.

Record Expectations (MatchFunc ProcessFunc : Type) : Type := mkExpectations {
  expectationsOnce : list (Expectation MatchFunc ProcessFunc);
  expectationsWhenever : list (Expectation MatchFunc ProcessFunc);
  (** address of the next [Expectation] this registry allocates *)
  nextRef : nat
}.

Section Class.

(** Closures are represented by codes.  [call_match] applies a predicate
    (a [MatchFunc] returns a boolean); [call_process] runs a handler in
    the world [W] that holds the registry. *)
Variables MatchFunc ProcessFunc Msg W : Type.
Variable call_match : MatchFunc -> Msg -> bool.
Variable call_process : ProcessFunc -> Msg -> JS W unit.

(** [this.expectations] inside the owning world. *)
Variable this : W -> Expectations MatchFunc ProcessFunc.
Variable set_this : Expectations MatchFunc ProcessFunc -> W -> W.

Abbreviation Exp := (Expectation MatchFunc ProcessFunc).
Abbreviation Exps := (Expectations MatchFunc ProcessFunc).

Definition constructor : Exps :=
  mkExpectations [] [] 0.

Definition with_once (l : list Exp) (E : Exps) : Exps :=
  mkExpectations l (expectationsWhenever E) (nextRef E).

Definition once (m : MatchFunc) (p : ProcessFunc) : JS W unit :=
  modify (fun w =>
    let E := this w in
    set_this (mkExpectations
                (expectationsOnce E ++ [mkExpectation (nextRef E) m p])
                (expectationsWhenever E)
                (S (nextRef E))) w).

Definition whenever (m : MatchFunc) (p : ProcessFunc) : JS W unit :=
  modify (fun w =>
    let E := this w in
    set_this (mkExpectations
                (expectationsOnce E)
                (expectationsWhenever E ++ [mkExpectation (nextRef E) m p])
                (S (nextRef E))) w).

Definition matching (msg : Msg) (exp : Exp) : bool :=
  call_match (matchf exp) msg.

Definition same_object (a b : Exp) : bool := Nat.eqb (ref a) (ref b).

Definition execOne (msg : Msg) : JS W bool :=
  fun w =>
    match find (matching msg) (expectationsOnce (this w)) with
    | None => (Normal false, w)
    | Some expectation =>
        (call_process (process expectation) msg ;; ret true)
          (set_this
             (with_once
                (filter (fun exp => negb (same_object exp expectation))
                        (expectationsOnce (this w)))
                (this w))
             w)
    end.

(** [Array.prototype.findIndex]; [None] is the [-1] of JavaScript. *)
Fixpoint findIndex (f : Exp -> bool) (l : list Exp) : option nat :=
  match l with
  | [] => None
  | x :: rest =>
      if f x then Some 0
      else option_map S (findIndex f rest)
  end.

Definition execWhenever (msg : Msg) : JS W bool :=
  fun w =>
    match findIndex (matching msg) (expectationsWhenever (this w)) with
    | None => (Normal false, w)
    | Some expIdx =>
        match nth_error (expectationsWhenever (this w)) expIdx with
        | Some exp => (call_process (process exp) msg ;; ret true) w
        | None => (Throw TypeError, w)
        end
    end.

(** [this.execOne(msg) || this.execWhenever(msg)] *)
Definition exec (msg : Msg) : JS W bool :=
  b <- execOne msg ;;
  if b then ret true else execWhenever msg.

(** Distinct entries of the once-list are distinct objects. *)
Definition distinct_objects (E : Exps) : Prop :=
  NoDup (map (@ref _ _) (expectationsOnce E)).

Definition none_matching (msg : Msg) (l : list Exp) : Prop :=
  forall exp, In exp l -> matching msg exp = false.

(** The once-list holds distinct objects, all allocated by this registry. *)
Definition allocated (E : Exps) : Prop :=
  NoDup (map (@ref _ _) (expectationsOnce E))
  /\ forall exp, In exp (expectationsOnce E) -> ref exp < nextRef E.

End Class.

End Expectations.

(* ===================================================================== *)
(** ** ActionsStack.js *)
(* ===================================================================== *)

Module ActionsStack.

Section Class.

(** An action is a zero-argument closure, represented by a code that
    [call] runs in the world [W] holding the stack.  [stack] is the array
    [this.stack]. *)
Variables Action W : Type.
Variable call : Action -> JS W unit.
Variable stack : W -> list Action.
Variable set_stack : list Action -> W -> W.

Definition reject : JS W unit :=
  modify (set_stack []).

(** [this.stack.push(action)] returns the new length. *)
Definition add (action : Action) : JS W nat :=
  fun w =>
    let s := stack w ++ [action] in
    (Normal (List.length s), set_stack s w).

(** [Array.prototype.forEach] walks the array object it is called on:
    the length is read once, before the first call; then index [k] runs
    from 0 below that length, and the element at [k] is read and called.
    [array] is that object, the one [this.stack] holds when [forEach] is
    called.  The class changes an array by [push] only, and [reject] binds
    [this.stack] to a new array: so below the length read at the start
    the object reads, at every index and at every moment, what it read
    when [forEach] was called, whatever the actions do meanwhile ([add],
    [reject], or [fire] again). *)
Fixpoint forEach_from (array : list Action) (k remaining : nat) : JS W unit :=
  match remaining with
  | O => ret tt
  | S remaining' =>
      match nth_error array k with
      | Some action => call action ;; forEach_from array (S k) remaining'
      | None => forEach_from array (S k) remaining'
      end
  end.

Definition forEach : JS W unit :=
  fun w => forEach_from (stack w) 0 (List.length (stack w)) w.

Definition fire : JS W unit :=
  forEach ;; reject.

(** Calling the given actions one after the other, first to last. *)
Fixpoint call_each (l : list Action) : JS W unit :=
  match l with
  | [] => ret tt
  | action :: rest => call action ;; call_each rest
  end.

(** [fire] called in [w]: the actions the stack holds are called one after
    the other, first to last, each returns, and the stack is empty when
    [fire] returns. *)
Definition fired_and_cleared (w : W) : Prop :=
  exists w',
    call_each (stack w) w = (Normal tt, w')
    /\ fire w = (Normal tt, set_stack [] w')
    /\ stack (after fire w) = [].

End Class.

End ActionsStack.

(* ===================================================================== *)
(** ** BfxApi.ts *)
(* ===================================================================== *)

Module BfxApi.

Import Expectations.

(** [ws.readyState], and the [WebSocket] object behind [this.ws]. *)
Inductive ReadyState : Type := CONNECTING | OPEN | CLOSING | CLOSED.

Record WebSocket : Type := mkWebSocket {
  socket : nat;
  readyState : ReadyState
}.

Definition is_open (r : ReadyState) : bool :=
  match r with OPEN => true | _ => false end.

(** The predicates the controller registers, each with what its closure
    captured. *)
Inductive MatchFunc : Type :=
| MatchVersion                        (* connect *)
| MatchPong (cid : Z)                 (* ping *)
| MatchUnsubscribed (chanId : Z)      (* unsubscribe *)
| MatchSubscribed (pair : string)     (* subscribe *)
| MatchSnapshot (chanId : JSValue)
| MatchHeartbeat (chanId : JSValue).

(** The handlers the controller registers.  [callback] names a function of
    the caller, [promise] the promise whose [resolve] the closure holds. *)
Inductive ProcessFunc : Type :=
| CheckVersion                                   (* connect *)
| LogPong                                        (* ping *)
| ResolveUnsubscribed (promise : nat)            (* unsubscribe *)
| Promote (callback : nat) (promise : nat)       (* subscribe *)
| Snapshot (callback : nat)                      (* (msg) => callback(msg) *)
| heartbeating.

(** The [callback] argument of [subscribe] as it is at run time. *)
Inductive Callback : Type :=
| Function (f : nat)
| NotFunction (v : JSValue).

Inductive Promise : Type :=
| Pending
| Resolved (v : JSON)
| Rejected (e : JSError).

(** [this.send.bind(this, data)] *)
Inductive Action : Type :=
| SendBound (data : JSON).

Inductive Logger : Type := LOG | DEBUG | ERROR.

(** What the controller does to its collaborators, in the order it does
    it.  A logged object literal [{chanId}] is recorded by its one field. *)
Inductive Event : Type :=
| Logged (via : Logger) (text : string) (args : list JSValue)
| Constructed (sock : nat) (address : string)   (* new this.WebSocket(url) *)
| Sent (sock : nat) (data : string)             (* ws.send(data) *)
| Closed (sock : nat)                           (* ws.close() *)
| Called (callback : nat) (msg : JSON).         (* callback(msg) *)

Record State : Type := mkState {
  paused : bool;
  resumeStack : list Action;
  pingCounter : Z;
  expectations : Expectations MatchFunc ProcessFunc;
  ws : option WebSocket;
  url : string;
  (** outside the object: sockets constructed so far, the promises handed
      out, and the effects on the logger, the transport and the caller *)
  sockets : nat;
  promises : list Promise;
  events : list Event
}.

Definition set_paused (b : bool) (s : State) : State :=
  mkState b (resumeStack s) (pingCounter s) (expectations s) (ws s) (url s)
          (sockets s) (promises s) (events s).

Definition set_resumeStack (l : list Action) (s : State) : State :=
  mkState (paused s) l (pingCounter s) (expectations s) (ws s) (url s)
          (sockets s) (promises s) (events s).

Definition set_pingCounter (n : Z) (s : State) : State :=
  mkState (paused s) (resumeStack s) n (expectations s) (ws s) (url s)
          (sockets s) (promises s) (events s).

Definition set_expectations (E : Expectations MatchFunc ProcessFunc) (s : State) : State :=
  mkState (paused s) (resumeStack s) (pingCounter s) E (ws s) (url s)
          (sockets s) (promises s) (events s).

Definition set_ws (o : option WebSocket) (s : State) : State :=
  mkState (paused s) (resumeStack s) (pingCounter s) (expectations s) o (url s)
          (sockets s) (promises s) (events s).

Definition set_sockets (n : nat) (s : State) : State :=
  mkState (paused s) (resumeStack s) (pingCounter s) (expectations s) (ws s) (url s)
          n (promises s) (events s).

Definition set_promises (l : list Promise) (s : State) : State :=
  mkState (paused s) (resumeStack s) (pingCounter s) (expectations s) (ws s) (url s)
          (sockets s) l (events s).

Definition set_events (l : list Event) (s : State) : State :=
  mkState (paused s) (resumeStack s) (pingCounter s) (expectations s) (ws s) (url s)
          (sockets s) (promises s) l.

(** *** Collaborators *)

Definition emit (e : Event) : JS State unit :=
  modify (fun s => set_events (events s ++ [e]) s).

Definition log (text : string) (args : list JSValue) : JS State unit :=
  emit (Logged LOG text args).

Definition debug (text : string) (args : list JSValue) : JS State unit :=
  emit (Logged DEBUG text args).

Definition error (text : string) (args : list JSValue) : JS State unit :=
  emit (Logged ERROR text args).

Definition closing (r : ReadyState) : ReadyState :=
  match r with CLOSED => CLOSED | _ => CLOSING end.

(** [this.ws.close()]; [this.ws] is [undefined] before the first
    [connect]. *)
Definition ws_close : JS State unit :=
  fun s =>
    match ws s with
    | None => (Throw TypeError, s)
    | Some w =>
        (emit (Closed (socket w)) ;;
         modify (set_ws (Some (mkWebSocket (socket w) (closing (readyState w)))))) s
    end.

(** [this.ws.send(data)] *)
Definition ws_send (data : string) : JS State unit :=
  fun s =>
    match ws s with
    | None => (Throw TypeError, s)
    | Some w => emit (Sent (socket w) data) s
    end.

(** [new Promise(...)]: the promise is identified by its position. *)
Definition new_promise : JS State nat :=
  fun s => (Normal (List.length (promises s)), set_promises (promises s ++ [Pending]) s).

(** Settling a promise that is no longer pending does nothing. *)
Fixpoint settle_at (p : nat) (outcome : Promise) (l : list Promise) : list Promise :=
  match l, p with
  | [], _ => []
  | Pending :: rest, O => outcome :: rest
  | x :: rest, O => x :: rest
  | x :: rest, S p' => x :: settle_at p' outcome rest
  end.

Definition resolve (p : nat) (v : JSON) : JS State unit :=
  modify (fun s => set_promises (settle_at p (Resolved v) (promises s)) s).

Definition reject (p : nat) (e : JSError) : JS State unit :=
  modify (fun s => set_promises (settle_at p (Rejected e) (promises s)) s).

(** The data handed to the transport, oldest first. *)
Fixpoint transmitted_in (l : list Event) : list string :=
  match l with
  | [] => []
  | Sent _ data :: rest => data :: transmitted_in rest
  | _ :: rest => transmitted_in rest
  end.

Definition transmitted (s : State) : list string := transmitted_in (events s).

(** The messages a caller's callback was invoked with, oldest first. *)
Fixpoint calls_in (f : nat) (l : list Event) : list JSON :=
  match l with
  | [] => []
  | Called g msg :: rest =>
      if Nat.eqb g f then msg :: calls_in f rest else calls_in f rest
  | _ :: rest => calls_in f rest
  end.

Definition calls (f : nat) (s : State) : list JSON := calls_in f (events s).

(** *** The predicates *)

Definition hb : JSValue := Some (JStr "hb").

Definition call_match (m : MatchFunc) (msg : JSON) : bool :=
  match m with
  | MatchVersion =>
      strict_eq (prop msg "event") (Some (JStr "info")) && truthy (prop msg "version")
  | MatchPong cid =>
      strict_eq (prop msg "event") (Some (JStr "pong"))
      && strict_eq (prop msg "cid") (Some (JNum cid))
  | MatchUnsubscribed chanId =>
      strict_eq (prop msg "event") (Some (JStr "unsubscribed"))
      && strict_eq (prop msg "chanId") (Some (JNum chanId))
  | MatchSubscribed pair' =>
      strict_eq (prop msg "event") (Some (JStr "subscribed"))
      && truthy (prop msg "pair")
      && strict_eq (prop msg "pair") (Some (JStr pair'))
  | MatchSnapshot chanId =>
      strict_eq (index msg 0) chanId && negb (strict_eq (index msg 1) hb)
  | MatchHeartbeat chanId =>
      strict_eq (index msg 0) chanId && strict_eq (index msg 1) hb
  end.

Section Controller.

(** Outside the repository's sources: the JSON codec of the language
    ([JSON_parse] is [None] where [JSON.parse] throws its SyntaxError)
    and the two constants read from config.json. *)
Variable JSON_parse : string -> option JSON.
Variable JSON_stringify : JSON -> string.
Variable allowedVersions : list JSON.
Variable bfxAPI : string.

(** *** The handlers *)

Definition indexOf (l : list JSON) (v : JSValue) : bool :=
  existsb (fun x => strict_eq (Some x) v) l.

Definition call_process (p : ProcessFunc) (msg : JSON) : JS State unit :=
  match p with
  | CheckVersion =>
      debug "msg.version" [prop msg "version"] ;;
      if negb (indexOf allowedVersions (prop msg "version")) then
        error "unexpected version" [prop msg "version"] ;;
        error "closing socket" [] ;;
        ws_close
      else ret tt
  | LogPong =>
      log "proper ping/pong, ts is" [prop msg "ts"]
  | ResolveUnsubscribed promise =>
      resolve promise msg
  | Promote callback promise =>
      whenever expectations set_expectations
               (MatchSnapshot (prop msg "chanId")) (Snapshot callback) ;;
      whenever expectations set_expectations
               (MatchHeartbeat (prop msg "chanId")) heartbeating ;;
      resolve promise msg
  | Snapshot callback =>
      emit (Called callback msg)
  | heartbeating =>
      (* ([chanId]) => ...: the argument must be iterable *)
      match msg with
      | JArr _ | JStr _ => debug "Heartbeating" [index msg 0]
      | _ => throw TypeError
      end
  end.

Definition exec : JSON -> JS State bool :=
  Expectations.exec call_match call_process expectations set_expectations.

(** *** The methods *)

Definition constructor (params_url : option string) : State :=
  mkState true [] 0%Z (Expectations.constructor _ _) None
          (match params_url with Some u => u | None => bfxAPI end)
          0 [] [].

Definition connect : JS State unit :=
  debug "connect" [] ;;
  once expectations set_expectations MatchVersion CheckVersion ;;
  (fun s =>
     (emit (Constructed (sockets s) (url s)) ;;
      modify (set_ws (Some (mkWebSocket (sockets s) CONNECTING))) ;;
      modify (set_sockets (S (sockets s)))) s).

Definition close : JS State unit :=
  log "closing socket" [] ;;
  ws_close.

Definition auth : JS State unit :=
  log "auth not implemented" [].

Definition send (data : JSON) : JS State unit :=
  fun s =>
    if paused s
       || match ws s with None => true | Some _ => false end
       || match ws s with Some w => negb (is_open (readyState w)) | None => true end
    then (ActionsStack.add resumeStack set_resumeStack (SendBound data) ;; ret tt) s
    else
      ws_send (match data with
               | JStr text => text
               | _ => JSON_stringify data
               end) s.

Definition call_action (a : Action) : JS State unit :=
  match a with
  | SendBound data => send data
  end.

Definition pause : JS State unit :=
  debug "pause" [] ;;
  modify (set_paused true).

Definition resume : JS State unit :=
  debug "resume" [] ;;
  modify (set_paused false) ;;
  ActionsStack.fire call_action resumeStack set_resumeStack.

Definition restart : JS State unit :=
  debug "restart" [] ;;
  close ;;
  connect.

Definition processMsgInfo (msg : JSON) : JS State unit :=
  debug "info message" [Some msg] ;;
  if strict_eq (prop msg "code") (Some (JNum 20051)) then restart
  else if strict_eq (prop msg "code") (Some (JNum 20060)) then pause
  else if strict_eq (prop msg "code") (Some (JNum 20061)) then resume
  else log "unknown info message code" [prop msg "code"].

(** [JSON.parse('null')] is [null], and reading [.event] of [null]
    throws a TypeError: in the first predicate the scan of [exec]
    applies (each starts with [msg.event] or [msg[0]]), or at the test
    [msg.event === 'info'] when both lists are empty.  Either way
    nothing has been written yet. *)
Definition handleMessage (data : string) : JS State unit :=
  match JSON_parse data with
  | None => throw SyntaxError
  | Some JNull => throw TypeError
  | Some msg =>
      consumed <- exec msg ;;
      if consumed then ret tt
      else if strict_eq (prop msg "event") (Some (JStr "info")) then processMsgInfo msg
      else debug "unprocessed message" [Some msg]
  end.

(** [++this.pingCounter]: the counter is a JavaScript number, a double.
    It starts at 0 and nothing else writes it, so it holds an integer
    between 0 and 2^53.  Below 2^53 the next integer is a double and [++]
    gives it; at 2^53 the sum 2^53 + 1 is not a double and rounds (ties
    to even) back to 2^53, and the counter stays there. *)
Definition increment (n : Z) : Z :=
  if (n <? 2 ^ 53)%Z then (n + 1)%Z else n.

Definition ping : JS State unit :=
  fun s =>
    let cid := increment (pingCounter s) in
    (modify (set_pingCounter cid) ;;
     once expectations set_expectations (MatchPong cid) LogPong ;;
     send (JObj [("cid", JNum cid); ("event", JStr "ping")])) s.

Definition unsubscribe (chanId : Z) : JS State nat :=
  send (JObj [("event", JStr "unsubscribe"); ("chanId", JNum chanId)]) ;;
  p <- new_promise ;;
  once expectations set_expectations (MatchUnsubscribed chanId) (ResolveUnsubscribed p) ;;
  ret p.

(** [{ ...a, ...b }]: a key of [b] keeps the place it has in [a] when it
    is there, and comes after the keys of [a] otherwise. *)
Fixpoint assign (key : string) (v : JSON) (a : list (string * JSON)) : list (string * JSON) :=
  match a with
  | [] => [(key, v)]
  | (k, x) :: rest =>
      if String.eqb k key then (k, v) :: rest else (k, x) :: assign key v rest
  end.

Definition spread (a b : list (string * JSON)) : list (string * JSON) :=
  fold_left (fun acc kv => assign (fst kv) (snd kv) acc) b a.

(** The promise executor runs inside [new Promise], before [subscribe]
    returns the promise. *)
Definition subscribe (channel pair : string) (params : list (string * JSON))
           (callback : Callback) : JS State nat :=
  p <- new_promise ;;
  match callback with
  | NotFunction _ =>
      reject p TypeError ;;
      ret p
  | Function f =>
      once expectations set_expectations (MatchSubscribed pair) (Promote f p) ;;
      send (JObj (spread [("event", JStr "subscribe"); ("channel", JStr channel)] params)) ;;
      ret p
  end.

End Controller.

End BfxApi.

(* ===================================================================== *)
(** ** What a dispatch can do *)
(* ===================================================================== *)

Module Dispatch.

Import Expectations.

Section Outcomes.

Variables MatchFunc ProcessFunc Msg W : Type.
Variable call_match : MatchFunc -> Msg -> bool.
Variable call_process : ProcessFunc -> Msg -> JS W unit.
Variable this : W -> Expectations MatchFunc ProcessFunc.
Variable set_this : Expectations MatchFunc ProcessFunc -> W -> W.

Let exec := exec call_match call_process this set_this.

(** The predicate of every entry of [l] returns false on [msg]. *)
Definition accepted_by_none (msg : Msg)
           (l : list (Expectation MatchFunc ProcessFunc)) : Prop :=
  forall x, In x l -> call_match (matchf x) msg = false.

(** [outcome] is what one call of the handler [p] with [msg] in the world
    [w'] gives: true where the handler returns, in the world the handler
    leaves; where the handler throws, that is thrown. *)
Definition handled_by (p : ProcessFunc) (msg : Msg) (w' : W)
           (outcome : Completion bool * W) : Prop :=
  match call_process p msg w' with
  | (Normal _, w'') => outcome = (Normal true, w'')
  | (Throw e, w'') => outcome = (Throw e, w'')
  end.

(** The first entry of the once-list that accepts the message is taken
    out of the list, the other entries staying as they are and in their
    order; then its handler is called with the message, in the world [w']
    whose once-list has lost the entry and which is otherwise the world
    [w]; and [exec] returns true (when the handler returns). *)
Definition once_fires (msg : Msg) (w : W) : Prop :=
  exists before exp rest w',
    expectationsOnce (this w) = before ++ exp :: rest
    /\ accepted_by_none msg before
    /\ call_match (matchf exp) msg = true
    /\ w' = set_this (this w') w
    /\ expectationsOnce (this w') = before ++ rest
    /\ expectationsWhenever (this w') = expectationsWhenever (this w)
    /\ nextRef (this w') = nextRef (this w)
    /\ handled_by (process exp) msg w' (exec msg w).

(** The handler of the first entry of the whenever-list that accepts the
    message is called with the message, in the world as it was: the entry
    stays. *)
Definition whenever_fires (msg : Msg) (w : W) : Prop :=
  exists before exp rest,
    expectationsWhenever (this w) = before ++ exp :: rest
    /\ accepted_by_none msg before
    /\ call_match (matchf exp) msg = true
    /\ handled_by (process exp) msg w (exec msg w).

(** No handler runs and [exec] returns false in the world as it was. *)
Definition unconsumed (msg : Msg) (w : W) : Prop :=
  exec msg w = (Normal false, w).

End Outcomes.

End Dispatch.

(* ===================================================================== *)
(** ** The controller driven from outside *)
(* ===================================================================== *)

Module Session.

Import Expectations BfxApi.

(** What can happen to a controller, one thing after the other: a call by
    the owner of the object, or a call by the transport.  A method that
    throws leaves the world it had reached.  [send] is private and reached
    through [ping], [subscribe] and [unsubscribe]; it is listed so that a
    call to it can be named.  A callback of the caller is the last thing
    its handler does and a promise continuation runs after the handler has
    returned, so what they call on the controller are the operations that
    follow. *)
Inductive Op : Type :=
| Connect
| Close
| Auth
| Ping
| Subscribe (channel pair : string) (params : list (string * JSON)) (callback : Callback)
| Unsubscribe (chanId : Z)
| Send (data : JSON)
| OnMessage (data : string)       (* ws.onmessage *)
| OnOpen                          (* ws.onopen *)
| Transport (r : ReadyState).     (* the socket changes its readyState *)

Definition transport (r : ReadyState) (s : State) : State :=
  match ws s with
  | None => s
  | Some w => set_ws (Some (mkWebSocket (socket w) r)) s
  end.

(** A method that leaves the pause flag alone and hands nothing to the
    transport, whatever the world it starts in. *)
Definition quiet {A : Type} (c : JS State A) : Prop :=
  forall s,
    paused (after c s) = paused s
    /\ transmitted (after c s) = transmitted s.

(** A method that, started paused, ends paused without having handed
    anything to the transport. *)
Definition held {A : Type} (c : JS State A) : Prop :=
  forall s, paused s = true ->
    paused (after c s) = true /\ transmitted (after c s) = transmitted s.

(** A method that keeps the once-list made of distinct allocated objects. *)
Definition tidy {A : Type} (c : JS State A) : Prop :=
  forall s, allocated (expectations s) -> allocated (expectations (after c s)).

Section Run.

Variable JSON_parse : string -> option JSON.
Variable JSON_stringify : JSON -> string.
Variable allowedVersions : list JSON.

Definition step (s : State) (op : Op) : State :=
  match op with
  | Connect => after connect s
  | Close => after close s
  | Auth => after auth s
  | Ping => after (ping JSON_stringify) s
  | Subscribe channel pair' params callback =>
      after (subscribe JSON_stringify channel pair' params callback) s
  | Unsubscribe chanId => after (unsubscribe JSON_stringify chanId) s
  | Send data => after (send JSON_stringify data) s
  | OnMessage data => after (handleMessage JSON_parse JSON_stringify allowedVersions data) s
  | OnOpen => after (resume JSON_stringify) s
  | Transport r => transport r s
  end.

Definition run (ops : list Op) (s : State) : State := fold_left step ops s.

(** The two ways [resume] is reached: the transport's open event, and an
    inbound info message with code 20061. *)
Definition resumes (op : Op) : Prop :=
  op = OnOpen
  \/ exists data msg,
       op = OnMessage data
       /\ JSON_parse data = Some msg
       /\ strict_eq (prop msg "event") (Some (JStr "info")) = true
       /\ strict_eq (prop msg "code") (Some (JNum 20061)) = true.

(** [send] called once for each payload, first to last. *)
Definition sends (payloads : list JSON) (s : State) : State :=
  fold_left (fun s' data => after (send JSON_stringify data) s') payloads s.

(** Lines 232-235 of BfxApi.ts: what [send] hands to the transport. *)
Definition on_the_wire (data : JSON) : string :=
  match data with
  | JStr text => text
  | _ => JSON_stringify data
  end.

Definition bound_data (a : Action) : JSON :=
  match a with SendBound data => data end.

End Run.

End Session.

(* ===================================================================== *)
(** ** Frames and scenarios *)
(* ===================================================================== *)

Module Frames.

(** [{event:'subscribed', pair:'BTCUSD', chanId:5}] *)
Definition subscribed_BTCUSD_5 : JSON :=
  JObj [("event", JStr "subscribed"); ("pair", JStr "BTCUSD"); ("chanId", JNum 5)].

(** [[5, 'hb']] *)
Definition heartbeat_5 : JSON := JArr [JNum 5; JStr "hb"].

(** [[5, [100, 1]]] *)
Definition snapshot_5 : JSON := JArr [JNum 5; JArr [JNum 100; JNum 1]].

(** [{event:'info', version:2}] *)
Definition info_version_2 : JSON :=
  JObj [("event", JStr "info"); ("version", JNum 2)].

(** [{event:'info', code:20060}] and [{event:'info', code:20061}] *)
Definition info_20060 : JSON :=
  JObj [("event", JStr "info"); ("code", JNum 20060)].

Definition info_20061 : JSON :=
  JObj [("event", JStr "info"); ("code", JNum 20061)].

(** [{event:'pong', cid:1, ts:100}] *)
Definition pong_1 : JSON :=
  JObj [("event", JStr "pong"); ("cid", JNum 1); ("ts", JNum 100)].

(** [{cid:1, event:'ping'}], the payload of the first [ping]. *)
Definition ping_1 : JSON :=
  JObj [("cid", JNum 1); ("event", JStr "ping")].

End Frames.

Module Scenario.

Import Expectations BfxApi Session Frames.

Section Statements.

Variable JSON_stringify : JSON -> string.
Variable allowedVersions : list JSON.

Let send := send JSON_stringify.
Let resume := resume JSON_stringify.
Let exec := exec allowedVersions.

(** Payloads sent one after the other from [s] are kept back in call
    order, and a [resume] that follows, the socket being in state [r] by
    then, hands the whole queue to the transport in that order and leaves
    the queue empty. *)
Definition replayed_on_resume (s : State) (payloads : list JSON) (r : ReadyState) : Prop :=
  let queued := sends JSON_stringify payloads s in
  let resumed := after resume (transport r queued) in
  transmitted queued = transmitted s
  /\ resumeStack queued = resumeStack s ++ map SendBound payloads
  /\ transmitted resumed =
     transmitted s
     ++ map (on_the_wire JSON_stringify) (map bound_data (resumeStack s))
     ++ map (on_the_wire JSON_stringify) payloads
  /\ resumeStack resumed = [].

(** The registry holds the version check of [connect] and nothing
    else. *)
Definition fresh_registry (s : State) : Prop :=
  map (fun exp => (matchf exp, process exp)) (expectationsOnce (expectations s))
  = [(MatchVersion, CheckVersion)]
  /\ expectationsWhenever (expectations s) = [].

(** [subscribe(channel, 'BTCUSD', params, f)] from [s], then the three
    messages of the scenario dispatched in turn. *)
Definition subscription_served (s : State) (channel : string)
           (params : list (string * JSON)) (f : nat) : Prop :=
  let promise := List.length (promises s) in
  let s1 := after (subscribe JSON_stringify channel "BTCUSD" params (Function f)) s in
  let s2 := after (exec subscribed_BTCUSD_5) s1 in
  let s3 := after (exec heartbeat_5) s2 in
  let s4 := after (exec snapshot_5) s3 in
  result (subscribe JSON_stringify channel "BTCUSD" params (Function f)) s = Normal promise
  /\ result (exec subscribed_BTCUSD_5) s1 = Normal true
  /\ nth_error (promises s2) promise = Some (Resolved subscribed_BTCUSD_5)
  /\ map (fun exp => (matchf exp, process exp)) (expectationsWhenever (expectations s2))
     = map (fun exp => (matchf exp, process exp)) (expectationsWhenever (expectations s))
       ++ [(MatchSnapshot (Some (JNum 5)), Snapshot f);
           (MatchHeartbeat (Some (JNum 5)), heartbeating)]
  /\ result (exec heartbeat_5) s2 = Normal true
  /\ events s3 = events s2 ++ [Logged DEBUG "Heartbeating" [Some (JNum 5)]]
  /\ result (exec snapshot_5) s3 = Normal true
  /\ events s4 = events s3 ++ [Called f snapshot_5].

(** No registered expectation accepts [msg]. *)
Definition unexpected (msg : JSON) (s : State) : Prop :=
  none_matching call_match msg (expectationsOnce (expectations s))
  /\ none_matching call_match msg (expectationsWhenever (expectations s)).

End Statements.

End Scenario.

Module Sample.

Import Expectations BfxApi Session Frames.

Definition quote : string := String (ascii_of_nat 34) EmptyString.

(** A serializer for values whose strings need no escaping. *)
Fixpoint stringify (j : JSON) : string :=
  match j with
  | JNull => "null"
  | JBool b => if b then "true" else "false"
  | JNum n => NilEmpty.string_of_int (Z.to_int n)
  | JStr s => quote ++ s ++ quote
  | JArr items =>
      "[" ++ (fix elements (l : list JSON) : string :=
                match l with
                | [] => ""
                | [x] => stringify x
                | x :: rest => stringify x ++ "," ++ elements rest
                end) items ++ "]"
  | JObj props =>
      "{" ++ (fix members (l : list (string * JSON)) : string :=
                match l with
                | [] => ""
                | [(k, v)] => quote ++ k ++ quote ++ ":" ++ stringify v
                | (k, v) :: rest =>
                    quote ++ k ++ quote ++ ":" ++ stringify v ++ "," ++ members rest
                end) props ++ "}"
  end%string.

(** A decoder that knows the frames of the scenarios as [stringify] writes
    them, and rejects every other text. *)
Definition known : list JSON :=
  [subscribed_BTCUSD_5; heartbeat_5; snapshot_5; info_version_2;
   info_20060; info_20061; pong_1; JNull].

Definition parse (data : string) : option JSON :=
  find (fun j => String.eqb (stringify j) data) known.

Definition versions : list JSON := [JNum 2].

Definition address : string := "wss://api.bitfinex.com/ws/2".

Definition play (ops : list Op) (s : State) : State :=
  run parse stringify versions ops s.

Definition constructed : State := constructor address None.

(** Constructed and connecting: paused, the socket not yet open. *)
Definition connecting : State := play [Connect] constructed.

(** Connected, open and resumed. *)
Definition active : State :=
  play [Connect; Transport OPEN; OnOpen] constructed.

(** Active, then told by the server to pause, then closed by the owner:
    the socket is closing and may still deliver what was in flight. *)
Definition closing_while_paused : State :=
  play [OnMessage (stringify info_20060); Close] active.

(** Active, then told by the server to pause: paused over an open
    socket. *)
Definition paused_by_server : State :=
  play [OnMessage (stringify info_20060)] active.

(** A ping issued before [connect]: it waits in the queue. *)
Definition pinged_early : State := play [Ping] constructed.

(** Active with one subscription to BTCUSD awaiting acknowledgment. *)
Definition subscribed_once : State :=
  play [Subscribe "ticker" "BTCUSD" [("symbol", JStr "tBTCUSD")] (Function 0)] active.

(** Active with one ping awaiting its pong. *)
Definition pinged : State := play [Ping] active.

(** Active with two subscriptions to BTCUSD awaiting acknowledgment. *)
Definition subscribed_twice : State :=
  play [Subscribe "ticker" "BTCUSD" [("symbol", JStr "tBTCUSD")] (Function 0);
        Subscribe "trades" "BTCUSD" [("symbol", JStr "tBTCUSD")] (Function 1)] active.

(** Active with subscription 0 acknowledged on channel 5. *)
Definition streaming : State :=
  play [Subscribe "ticker" "BTCUSD" [("symbol", JStr "tBTCUSD")] (Function 0);
        OnMessage (stringify subscribed_BTCUSD_5)] active.

End Sample.

(* ===================================================================== *)
(** ** The subscription methods of BfxApi.ts and what the rest keeps *)
(* ===================================================================== *)

Module Subscriptions.

Import Expectations BfxApi Session.

Section Methods.

Variable JSON_stringify : JSON -> string.

Definition subscribeTicker (pair' : string) (callback : Callback) : JS State nat :=
  subscribe JSON_stringify "ticker" pair'
            [("symbol", JStr ("t" ++ pair')%string)] callback.

Definition subscribeFTicker (pair' : string) (callback : Callback) : JS State nat :=
  subscribe JSON_stringify "fticker" pair'
            [("symbol", JStr ("f" ++ pair')%string)] callback.

Definition subscribeTrades (pair' : string) (callback : Callback) : JS State nat :=
  subscribe JSON_stringify "trades" pair'
            [("symbol", JStr ("t" ++ pair')%string)] callback.

Definition subscribeFTrades (pair' : string) (callback : Callback) : JS State nat :=
  subscribe JSON_stringify "trades" pair'
            [("symbol", JStr ("f" ++ pair')%string)] callback.

Definition subscribeBooks (pair' : string) (callback : Callback) : JS State nat :=
  subscribe JSON_stringify "book" pair'
            [("symbol", JStr ("t" ++ pair')%string)] callback.

Definition subscribeRawBooks (pair' : string) (callback : Callback) : JS State nat :=
  subscribe JSON_stringify "book" pair'
            [("symbol", JStr ("t" ++ pair')%string); ("prec", JStr "R0")] callback.

(** [timeFrame = '1m']: the default stands in when the argument is
    [undefined]. *)
Definition subscribeCandles (pair' : string) (callback : Callback)
           (timeFrame : option string) : JS State nat :=
  let timeFrame' := match timeFrame with Some t => t | None => "1m" end in
  subscribe JSON_stringify "candles" pair'
            [("symbol", JStr "");
             ("key", JStr ("trade:" ++ timeFrame' ++ ":t" ++ pair')%string)]
            callback.

(** The object [subscribe] passes to [send]. *)
Definition request (channel : string) (params : list (string * JSON)) : JSON :=
  JObj (spread [("event", JStr "subscribe"); ("channel", JStr channel)] params).

End Methods.

(** The keys of an object literal. *)
Definition keys (o : list (string * JSON)) : list string := map fst o.

(** A method after which the world is related by [R] to the world before,
    whether it returns or throws. *)
Definition keeps (R : State -> State -> Prop) {A : Type} (c : JS State A) : Prop :=
  forall s, R s (after c s).

(** The whenever-list has only grown at its end. *)
Definition whenever_extended (s s' : State) : Prop :=
  exists added,
    expectationsWhenever (expectations s')
    = expectationsWhenever (expectations s) ++ added.

(** The ping counter has not gone down. *)
Definition counter_not_lower (s s' : State) : Prop :=
  (pingCounter s <= pingCounter s')%Z.

(** The ping counter has not gone past 2^53, unless it was beyond
    already. *)
Definition counter_capped (s s' : State) : Prop :=
  (pingCounter s' <= Z.max (pingCounter s) (2 ^ 53))%Z.

(** The transport is there and open. *)
Definition transport_open (s : State) : Prop :=
  exists w, ws s = Some w /\ readyState w = OPEN.

(** The send gate is shut: paused, or no transport, or one that is not
    open. *)
Definition deferring (s : State) : Prop :=
  paused s = true
  \/ ws s = None
  \/ (exists w, ws s = Some w /\ readyState w <> OPEN).

(** A method that hands something to the transport only if it leaves the
    controller unpaused with its transport open. *)
Definition gated {A : Type} (c : JS State A) : Prop :=
  forall s,
    transmitted (after c s) = transmitted s
    \/ (paused (after c s) = false /\ transport_open (after c s)).

(** A method that leaves the pause flag, the transport and what was
    transmitted as they are. *)
Definition calm {A : Type} (c : JS State A) : Prop :=
  forall s,
    paused (after c s) = paused s
    /\ ws (after c s) = ws s
    /\ transmitted (after c s) = transmitted s.

(** The two persistent entries [subscribe] registers for a channel. *)
Definition snapshots (r : nat) (chanId : JSValue) (f : nat)
  : Expectation MatchFunc ProcessFunc :=
  mkExpectation r (MatchSnapshot chanId) (Snapshot f).

Definition heartbeats (r : nat) (chanId : JSValue)
  : Expectation MatchFunc ProcessFunc :=
  mkExpectation r (MatchHeartbeat chanId) heartbeating.

End Subscriptions.

Module Trial.

Import BfxApi Session Frames Sample.

(** [{event:'info', code:20000}], a code the controller does not know,
    and a decoder that knows this frame besides those of [parse]. *)
Definition info_20000 : JSON :=
  JObj [("event", JStr "info"); ("code", JNum 20000)].

Definition parse_more (data : string) : option JSON :=
  if String.eqb data (stringify info_20000) then Some info_20000 else parse data.

(** [{event:'unsubscribed', chanId:5}] *)
Definition unsubscribed_5 : JSON :=
  JObj [("event", JStr "unsubscribed"); ("chanId", JNum 5)].

End Trial.

(** A client of [ActionsStack] other than the controller: the stack can
    hold any function, and a function may throw.  The jobs of this client
    write to a log; one kind throws, one kind queues another job. *)
Module Rack.

Inductive Job : Type :=
  | Note (n : nat)
  | Crash
  | Enqueue (n : nat).

(** The stack of the [ActionsStack] object, and the log. *)
Definition World : Type := (list Job * list nat)%type.

Definition stack (w : World) : list Job := fst w.
Definition set_stack (l : list Job) (w : World) : World := (l, snd w).

Definition call (job : Job) : JS World unit :=
  match job with
  | Note n => modify (fun w => (fst w, snd w ++ [n]))
  | Crash => throw TypeError
  | Enqueue n => ActionsStack.add stack set_stack (Note n) ;; ret tt
  end.

End Rack.

(* ===================================================================== *)
(** * Properties *)
(* ===================================================================== *)

Unset Implicit Arguments.

(** ** Scanning a list for its first match *)

Section FirstMatch.

Variable A : Type.
Variable f : A -> bool.

Lemma find_first : forall (l : list A) (x : A),
  find f l = Some x ->
  exists before rest,
    l = before ++ x :: rest
    /\ (forall y, In y before -> f y = false)
    /\ f x = true.
Proof.
  induction l as [|a l IH]; intros x Hfind; simpl in Hfind.
  - discriminate.
  - destruct (f a) eqn:Ha.
    + inversion Hfind; subst x.
      exists [], l. simpl. repeat split; auto. intros y [].
    + destruct (IH x Hfind) as (before & rest & -> & Hb & Hx).
      exists (a :: before), rest. repeat split; auto.
      intros y [<-|Hy]; auto.
Qed.

Lemma find_nowhere : forall (l : list A),
  (forall y, In y l -> f y = false) -> find f l = None.
Proof.
  induction l as [|a l IH]; intros H; simpl; auto.
  rewrite (H a (or_introl eq_refl)). apply IH. intros y Hy. apply H. now right.
Qed.

Lemma find_after_unmatched : forall (before l : list A),
  (forall y, In y before -> f y = false) ->
  find f (before ++ l) = find f l.
Proof.
  induction before as [|a before IH]; intros l H; simpl; auto.
  rewrite (H a (or_introl eq_refl)). apply IH. intros y Hy. apply H. now right.
Qed.

End FirstMatch.

Module ExpectationsFacts.

Import Expectations Dispatch.

Section Facts.

Variables MatchFunc ProcessFunc Msg W : Type.
Variable call_match : MatchFunc -> Msg -> bool.
Variable call_process : ProcessFunc -> Msg -> JS W unit.
Variable this : W -> Expectations MatchFunc ProcessFunc.
Variable set_this : Expectations MatchFunc ProcessFunc -> W -> W.

Abbreviation Exp := (Expectation MatchFunc ProcessFunc).
Abbreviation matching := (matching (ProcessFunc := ProcessFunc) call_match).
Abbreviation unmatched := (none_matching (ProcessFunc := ProcessFunc) call_match).
Abbreviation execOne := (execOne call_match call_process this set_this).
Abbreviation execWhenever := (execWhenever call_match call_process this).
Abbreviation exec := (exec call_match call_process this set_this).

(** Filtering on the reference drops the object found and nothing else,
    as long as no two entries are the same object. *)
Lemma filter_other_objects : forall (before rest : list Exp) (exp : Exp),
  NoDup (map (@ref _ _) (before ++ exp :: rest)) ->
  filter (fun x => negb (same_object x exp)) (before ++ exp :: rest) = before ++ rest.
Proof.
  intros before rest exp Hnd.
  rewrite map_app in Hnd. simpl in Hnd.
  pose proof (NoDup_remove_2 _ _ _ Hnd) as Hnotin.
  assert (Hkeep : forall l, (forall x, In x l -> ref x <> ref exp) ->
                            filter (fun x => negb (same_object x exp)) l = l).
  { induction l as [|a l IH]; intros Hl; simpl; auto.
    unfold same_object at 1.
    destruct (Nat.eqb_spec (ref a) (ref exp)) as [E|E].
    - exfalso. apply (Hl a); [now left | exact E].
    - simpl. f_equal. apply IH. intros x Hx. apply Hl. now right. }
  rewrite filter_app. simpl.
  unfold same_object at 2. rewrite Nat.eqb_refl. simpl.
  rewrite !Hkeep; auto.
  - intros x Hx E. apply Hnotin. apply in_or_app. right.
    rewrite <- E. now apply in_map.
  - intros x Hx E. apply Hnotin. apply in_or_app. left.
    rewrite <- E. now apply in_map.
Qed.

Lemma findIndex_first : forall (f : Exp -> bool) (l : list Exp) (i : nat),
  findIndex f l = Some i ->
  exists before exp rest,
    l = before ++ exp :: rest
    /\ nth_error l i = Some exp
    /\ (forall y, In y before -> f y = false)
    /\ f exp = true.
Proof.
  intros f. induction l as [|a l IH]; intros i Hi; simpl in Hi.
  - discriminate.
  - destruct (f a) eqn:Ha.
    + inversion Hi; subst i.
      exists [], a, l. simpl. repeat split; auto. intros y [].
    + destruct (findIndex f l) as [j|] eqn:Hj; simpl in Hi; [|discriminate].
      inversion Hi; subst i.
      destruct (IH j eq_refl) as (before & exp & rest & -> & Hn & Hb & He).
      exists (a :: before), exp, rest. simpl. repeat split; auto.
      intros y [<-|Hy]; auto.
Qed.

Lemma findIndex_nowhere : forall (f : Exp -> bool) (l : list Exp),
  (forall y, In y l -> f y = false) -> findIndex f l = None.
Proof.
  intros f. induction l as [|a l IH]; intros H; simpl; auto.
  rewrite (H a (or_introl eq_refl)). rewrite IH; auto.
  intros y Hy. apply H. now right.
Qed.

Lemma find_or_not : forall (f : Exp -> bool) (l : list Exp),
  (exists x, find f l = Some x) \/ (forall y, In y l -> f y = false).
Proof.
  intros f l. destruct (find f l) as [x|] eqn:E.
  - left. now exists x.
  - right. now apply find_none.
Qed.

Lemma execOne_unmatched : forall (msg : Msg) (w : W),
  unmatched msg (expectationsOnce (this w)) ->
  execOne msg w = (Normal false, w).
Proof.
  intros msg w H. unfold Expectations.execOne.
  now rewrite (find_nowhere _ _ _ H).
Qed.

Lemma execWhenever_unmatched : forall (msg : Msg) (w : W),
  unmatched msg (expectationsWhenever (this w)) ->
  execWhenever msg w = (Normal false, w).
Proof.
  intros msg w H. unfold Expectations.execWhenever.
  now rewrite (findIndex_nowhere _ _ H).
Qed.

Lemma exec_once_unmatched : forall (msg : Msg) (w : W),
  unmatched msg (expectationsOnce (this w)) ->
  exec msg w = execWhenever msg w.
Proof.
  intros msg w H. unfold Expectations.exec, bind.
  now rewrite (execOne_unmatched _ _ H).
Qed.

Lemma exec_once_matched : forall (msg : Msg) (w : W) (before rest : list Exp) (exp : Exp),
  NoDup (map (@ref _ _) (expectationsOnce (this w))) ->
  expectationsOnce (this w) = before ++ exp :: rest ->
  unmatched msg before ->
  call_match (matchf exp) msg = true ->
  exec msg w =
  (call_process (process exp) msg ;; ret true)
    (set_this (with_once (before ++ rest) (this w)) w).
Proof.
  intros msg w before rest exp Hnd Hsplit Hbefore Hexp.
  assert (Hfind : find (matching msg) (expectationsOnce (this w)) = Some exp).
  { rewrite Hsplit. clear Hsplit Hnd.
    induction before as [|a before IH]; simpl.
    - unfold Expectations.matching at 1. now rewrite Hexp.
    - rewrite (Hbefore a (or_introl eq_refl)). apply IH.
      intros y Hy. apply Hbefore. now right. }
  unfold Expectations.exec, bind at 1, Expectations.execOne.
  rewrite Hfind. rewrite Hsplit at 1.
  rewrite Hsplit in Hnd. rewrite (filter_other_objects _ _ _ Hnd).
  unfold bind, ret.
  destruct (call_process (process exp) msg _) as [[[]|e] w']; reflexivity.
Qed.

Lemma exec_once_found : forall (msg : Msg) (w : W) (exp : Exp),
  find (matching msg) (expectationsOnce (this w)) = Some exp ->
  exec msg w =
  (call_process (process exp) msg ;; ret true)
    (set_this
       (with_once
          (filter (fun x => negb (same_object x exp)) (expectationsOnce (this w)))
          (this w))
       w).
Proof.
  intros msg w exp Hfind.
  unfold Expectations.exec, bind at 1, Expectations.execOne.
  rewrite Hfind. unfold bind, ret.
  destruct (call_process (process exp) msg _) as [[[]|e] w']; reflexivity.
Qed.

Lemma exec_whenever_matched : forall (msg : Msg) (w : W) (before rest : list Exp) (exp : Exp),
  unmatched msg (expectationsOnce (this w)) ->
  expectationsWhenever (this w) = before ++ exp :: rest ->
  unmatched msg before ->
  call_match (matchf exp) msg = true ->
  exec msg w = (call_process (process exp) msg ;; ret true) w.
Proof.
  intros msg w before rest exp Hnone Hsplit Hbefore Hexp.
  rewrite (exec_once_unmatched _ _ Hnone).
  unfold Expectations.execWhenever. rewrite Hsplit. clear Hsplit.
  assert (Hidx : findIndex (matching msg) (before ++ exp :: rest)
                 = Some (List.length before)).
  { induction before as [|a before IH]; simpl.
    - unfold Expectations.matching at 1. now rewrite Hexp.
    - rewrite (Hbefore a (or_introl eq_refl)). rewrite IH; auto.
      intros y Hy. apply Hbefore. now right. }
  rewrite Hidx. rewrite nth_error_app2 by lia. rewrite Nat.sub_diag. reflexivity.
Qed.

(** C8.  A message that no entry of either list accepts is left
    unconsumed: [exec] returns false, and the world, with both lists in
    it, is what it was. *)
Theorem exec_unmatched : forall (msg : Msg) (w : W),
  unmatched msg (expectationsOnce (this w)) ->
  unmatched msg (expectationsWhenever (this w)) ->
  exec msg w = (Normal false, w)
  /\ expectationsOnce (this (after (exec msg) w)) = expectationsOnce (this w)
  /\ expectationsWhenever (this (after (exec msg) w)) = expectationsWhenever (this w).
Proof.
  intros msg w H1 H2.
  assert (E : exec msg w = (Normal false, w)).
  { rewrite (exec_once_unmatched _ _ H1). now apply execWhenever_unmatched. }
  unfold after. rewrite E. simpl. auto.
Qed.

End Facts.

Section Dispatching.

Variables MatchFunc ProcessFunc Msg W : Type.
Variable call_match : MatchFunc -> Msg -> bool.
Variable call_process : ProcessFunc -> Msg -> JS W unit.
Variable this : W -> Expectations MatchFunc ProcessFunc.
Variable set_this : Expectations MatchFunc ProcessFunc -> W -> W.

Abbreviation exec := (exec call_match call_process this set_this).
Abbreviation accepted_by_none :=
  (accepted_by_none (ProcessFunc := ProcessFunc) call_match).
Abbreviation once_fires := (once_fires call_match call_process this set_this).
Abbreviation whenever_fires := (whenever_fires call_match call_process this set_this).
Abbreviation unconsumed := (unconsumed call_match call_process this set_this).

(** [set_this] writes the registry that [this] reads. *)
Hypothesis this_written : forall E w, this (set_this E w) = E.

(** C1.  Dispatch of a message, whatever the two lists hold: if some
    entry of the once-list accepts the message, the first such entry in
    registration order is removed from the once-list, then its handler is
    invoked with the message, and [exec] returns true; otherwise, if some
    entry of the whenever-list accepts it, the handler of the first such
    entry is invoked, the entry stays, and [exec] returns true; otherwise
    [exec] returns false.  In each case [exec] is one handler call at
    most. *)
Theorem exec_dispatch : forall (msg : Msg) (w : W),
  distinct_objects (this w) ->
  once_fires msg w
  \/ (accepted_by_none msg (expectationsOnce (this w))
      /\ whenever_fires msg w)
  \/ (accepted_by_none msg (expectationsOnce (this w))
      /\ accepted_by_none msg (expectationsWhenever (this w))
      /\ unconsumed msg w).
Proof.
  intros msg w Hnd.
  destruct (find_or_not _ _ (Expectations.matching call_match msg)
              (expectationsOnce (this w))) as [[exp Hfind]|Hnone].
  - left.
    destruct (find_first _ _ _ _ Hfind) as (before & rest & Hsplit & Hbefore & Hexp).
    exists before, exp, rest,
      (set_this (with_once (before ++ rest) (this w)) w).
    rewrite this_written. unfold with_once. simpl.
    repeat split; auto.
    unfold Dispatch.handled_by.
    rewrite (exec_once_matched _ _ _ _ call_match call_process this set_this
               msg w before rest exp Hnd Hsplit Hbefore Hexp).
    unfold bind, ret, with_once.
    destruct (call_process (process exp) msg _) as [[[]|e] w'']; reflexivity.
  - right.
    destruct (findIndex (Expectations.matching call_match msg)
                (expectationsWhenever (this w))) as [i|] eqn:Hidx.
    + left. split; [exact Hnone|].
      destruct (findIndex_first _ _ _ _ _ Hidx)
        as (before & exp & rest & Hsplit & Hnth & Hbefore & Hexp).
      exists before, exp, rest. repeat split; auto.
      unfold Dispatch.handled_by.
      rewrite (exec_once_unmatched _ _ _ _ call_match call_process this set_this
                 msg w Hnone).
      unfold Expectations.execWhenever. rewrite Hidx, Hnth.
      unfold bind, ret.
      destruct (call_process (process exp) msg w) as [[[]|e] w'']; reflexivity.
    + right. split; [exact Hnone|].
      assert (Hw : accepted_by_none msg (expectationsWhenever (this w))).
      { intros y Hy.
        destruct (call_match (matchf y) msg) eqn:E; auto.
        exfalso. clear - Hidx Hy E.
        induction (expectationsWhenever (this w)) as [|a l IH]; [destruct Hy|].
        simpl in Hidx. unfold Expectations.matching at 1 in Hidx.
        destruct Hy as [->|Hy].
        - now rewrite E in Hidx.
        - destruct (call_match (matchf a) msg); [discriminate|].
          destruct (findIndex (Expectations.matching call_match msg) l);
            [discriminate|]. now apply IH. }
      split; [exact Hw|].
      unfold Dispatch.unconsumed.
      rewrite (exec_once_unmatched _ _ _ _ call_match call_process this set_this
                 msg w Hnone).
      now apply execWhenever_unmatched.
Qed.

End Dispatching.

End ExpectationsFacts.

Module ActionsStackFacts.

Import ActionsStack.

Section Loop.

Variables Action W : Type.
Variable call : Action -> JS W unit.
Variable stack : W -> list Action.
Variable set_stack : list Action -> W -> W.

Abbreviation fire := (fire call stack set_stack).
Abbreviation forEach_from := (forEach_from call).
Abbreviation call_each := (call_each call).
Abbreviation reject := (reject (Action := Action) set_stack).

(** The loop of [forEach] at index [length done] with [length todo]
    indices to go, over the array [done ++ todo ++ rest], calls the
    actions of [todo] in order and no other; it stops at the first that
    throws. *)
Lemma forEach_from_todo : forall todo done rest,
  forEach_from (done ++ todo ++ rest) (List.length done) (List.length todo)
  = call_each todo.
Proof.
  induction todo as [|a todo IH]; intros done rest; simpl.
  - reflexivity.
  - rewrite nth_error_app2 by lia. rewrite Nat.sub_diag. simpl.
    replace (S (List.length done)) with (List.length (done ++ [a]))
      by (rewrite length_app; simpl; lia).
    replace (done ++ a :: todo ++ rest) with ((done ++ [a]) ++ todo ++ rest)
      by (rewrite <- app_assoc; reflexivity).
    now rewrite IH.
Qed.

(** [fire] is: call the actions the stack holds at that moment, first to
    last, then [reject]; whatever the actions do to the stack. *)
Lemma fire_call_each : forall w,
  fire w = (call_each (stack w) ;; reject) w.
Proof.
  intros w. unfold ActionsStack.fire, ActionsStack.forEach, bind.
  pose proof (forEach_from_todo (stack w) [] []) as H.
  simpl in H. rewrite app_nil_r in H.
  now rewrite H.
Qed.

(** When one of the actions throws, [fire] stops there: the actions
    after it are not called and the stack is not emptied. *)
Lemma fire_throws : forall w e,
  result (call_each (stack w)) w = Throw e ->
  fire w = call_each (stack w) w.
Proof.
  intros w e H. rewrite fire_call_each. unfold result, bind in *.
  destruct (call_each (stack w) w) as [[[]|e'] w']; simpl in *;
    [discriminate|reflexivity].
Qed.

End Loop.

Section Pushing.

Variables Action W : Type.
Variable call : Action -> JS W unit.
Variable stack : W -> list Action.

Abbreviation call_each := (call_each call).

(** An action returns, and what it does to the stack is to push onto it
    (possibly nothing). *)
Hypothesis call_pushes : forall action w,
  result (call action) w = Normal tt
  /\ exists pushed, stack (after (call action) w) = stack w ++ pushed.

Lemma call_each_pushes : forall l w,
  result (call_each l) w = Normal tt
  /\ exists pushed, stack (after (call_each l) w) = stack w ++ pushed.
Proof.
  induction l as [|a l IH]; intros w; simpl.
  - split; [reflexivity|]. exists []. unfold after, ret. simpl. now rewrite app_nil_r.
  - destruct (call_pushes a w) as (Hr & pushed & Hs).
    unfold result, after, bind in *.
    destruct (call a w) as [[[]|e] w']; simpl in *; [|discriminate].
    destruct (IH w') as (Hr' & pushed' & Hs').
    split; [exact Hr'|].
    exists (pushed ++ pushed'). rewrite Hs', Hs. now rewrite app_assoc.
Qed.

End Pushing.

Section Facts.

Variables Action W : Type.
Variable call : Action -> JS W unit.
Variable stack : W -> list Action.
Variable set_stack : list Action -> W -> W.

Abbreviation call_each := (call_each call).
Abbreviation fired_and_cleared := (fired_and_cleared call stack set_stack).

(** [set_stack] writes the field that [stack] reads. *)
Hypothesis stack_written : forall l w, stack (set_stack l w) = l.


End Facts.

End ActionsStackFacts.

Module BfxApiFacts.

Import Expectations BfxApi Session Scenario Frames.

Lemma transmitted_in_app : forall a b,
  transmitted_in (a ++ b) = transmitted_in a ++ transmitted_in b.
Proof.
  induction a as [|e a IH]; intros b; simpl; auto.
  destruct e; simpl; rewrite ?IH; reflexivity.
Qed.

Lemma transmitted_in_sent : forall (X : Type) (k : nat) (f : X -> string) (l : list X),
  transmitted_in (map (fun x => Sent k (f x)) l) = map f l.
Proof.
  induction l as [|x l IH]; simpl; congruence.
Qed.

Lemma settle_at_last : forall (l : list Promise) (outcome : Promise),
  settle_at (List.length l) outcome (l ++ [Pending]) = l ++ [outcome].
Proof.
  induction l as [|x l IH]; intros outcome; simpl.
  - reflexivity.
  - rewrite IH. destruct x; reflexivity.
Qed.

Lemma nth_error_last : forall (X : Type) (l : list X) (x : X),
  nth_error (l ++ [x]) (List.length l) = Some x.
Proof.
  intros X l x. rewrite nth_error_app2 by lia. now rewrite Nat.sub_diag.
Qed.

Section Facts.

Variable JSON_parse : string -> option JSON.
Variable JSON_stringify : JSON -> string.
Variable allowedVersions : list JSON.

Abbreviation send := (send JSON_stringify).
Abbreviation call_action := (call_action JSON_stringify).
Abbreviation resume := (resume JSON_stringify).
Abbreviation on_the_wire := (on_the_wire JSON_stringify).
Abbreviation handleMessage := (handleMessage JSON_parse JSON_stringify allowedVersions).
Abbreviation subscribe := (subscribe JSON_stringify).

(** *** The send gate *)

Lemma send_deferred : forall data s,
  paused s = true
  \/ ws s = None
  \/ (exists w, ws s = Some w /\ readyState w <> OPEN) ->
  send data s = (Normal tt, set_resumeStack (resumeStack s ++ [SendBound data]) s).
Proof.
  intros data s H. unfold BfxApi.send.
  destruct (paused s) eqn:Hp; simpl; [reflexivity|].
  destruct (ws s) as [w|] eqn:Hw; simpl; [|reflexivity].
  destruct H as [H|[H|(w' & Hw' & Hr)]]; try discriminate.
  inversion Hw'; subst w'.
  destruct (readyState w); simpl; try reflexivity. now elim Hr.
Qed.

Lemma send_transmitted : forall data s w,
  paused s = false -> ws s = Some w -> readyState w = OPEN ->
  send data s =
  (Normal tt, set_events (events s ++ [Sent (socket w) (on_the_wire data)]) s).
Proof.
  intros data s w Hp Hw Hr. unfold BfxApi.send, ws_send.
  rewrite Hp, Hw, Hr. simpl. reflexivity.
Qed.

Lemma deferring_or_open : forall s,
  (paused s = true
   \/ ws s = None
   \/ (exists w, ws s = Some w /\ readyState w <> OPEN))
  \/ (paused s = false /\ exists w, ws s = Some w /\ readyState w = OPEN).
Proof.
  intros s.
  destruct (paused s); [left; now left|].
  destruct (ws s) as [w|]; [|left; right; now left].
  destruct (readyState w) eqn:Hr.
  2:{ right. split; [reflexivity|]. now exists w. }
  all: left; right; right; exists w; split; [reflexivity|congruence].
Qed.

(** C4.  [send(data)] either defers or transmits.  It defers, pushing a
    deferred action that holds [data] and writing nothing else, when the
    controller is paused, or has no transport, or has one that is not
    open.  It transmits, handing one text to the open transport and
    writing nothing else, in the remaining case; the text is [data]
    itself when [data] is a string and its serialization otherwise. *)
Theorem send_gate : forall data s,
  let s' := after (send data) s in
  result (send data) s = Normal tt
  /\ (((paused s = true
        \/ ws s = None
        \/ (exists w, ws s = Some w /\ readyState w <> OPEN))
       /\ resumeStack s' = resumeStack s ++ [SendBound data]
       /\ events s' = events s
       /\ transmitted s' = transmitted s
       /\ send data s
          = (Normal tt, set_resumeStack (resumeStack s ++ [SendBound data]) s))
      \/
      (paused s = false
       /\ exists w text,
            ws s = Some w
            /\ readyState w = OPEN
            /\ events s' = events s ++ [Sent (socket w) text]
            /\ transmitted s' = transmitted s ++ [text]
            /\ resumeStack s' = resumeStack s
            /\ send data s
               = (Normal tt, set_events (events s ++ [Sent (socket w) text]) s)
            /\ (forall t, data = JStr t -> text = t)
            /\ ((forall t, data <> JStr t) -> text = JSON_stringify data)))
  /\ paused s' = paused s
  /\ ws s' = ws s
  /\ expectations s' = expectations s
  /\ pingCounter s' = pingCounter s
  /\ promises s' = promises s.
Proof.
  intros data s.
  destruct (deferring_or_open s) as [Hgate|(Hp & w & Hw & Hr)].
  - pose proof (send_deferred data s Hgate) as E.
    unfold result, after. rewrite E. simpl.
    split; [reflexivity|]. split; [|repeat split; reflexivity].
    left. split; [exact Hgate|]. repeat split; reflexivity.
  - pose proof (send_transmitted data s w Hp Hw Hr) as E.
    unfold result, after. rewrite E. simpl.
    split; [reflexivity|]. split; [|repeat split; reflexivity].
    right. split; [exact Hp|].
    exists w, (on_the_wire data).
    split; [exact Hw|]. split; [exact Hr|].
    split; [reflexivity|].
    split; [unfold transmitted; simpl; rewrite transmitted_in_app; reflexivity|].
    split; [reflexivity|]. split; [reflexivity|].
    split.
    + intros t ->. reflexivity.
    + intros Hn. destruct data as [| | |t| |]; try reflexivity. now elim (Hn t).
Qed.

(** A deferred send returns, and pushes onto the stack or leaves it. *)
Lemma call_action_pushes : forall action s,
  result (call_action action) s = Normal tt
  /\ exists pushed,
       resumeStack (after (call_action action) s) = resumeStack s ++ pushed.
Proof.
  intros [data] s. simpl.
  destruct (deferring_or_open s) as [Hgate|(Hp & w & Hw & Hr)].
  - unfold result, after. rewrite (send_deferred data s Hgate). simpl.
    split; [reflexivity|]. now exists [SendBound data].
  - unfold result, after. rewrite (send_transmitted data s w Hp Hw Hr). simpl.
    split; [reflexivity|]. exists []. now rewrite app_nil_r.
Qed.

(** *** Inbound frames that do not decode *)

(** C10.  When the data of an inbound frame is not valid JSON,
    [handleMessage] throws the decoder's SyntaxError before anything
    else: nothing is dispatched, no control message is handled, and the
    controller, with its paused flag, both expectation lists and the
    deferred-action queue, is left as it was. *)
Theorem handleMessage_invalid_json : forall data s,
  JSON_parse data = None ->
  handleMessage data s = (Throw SyntaxError, s)
  /\ paused (after (handleMessage data) s) = paused s
  /\ expectations (after (handleMessage data) s) = expectations s
  /\ resumeStack (after (handleMessage data) s) = resumeStack s
  /\ events (after (handleMessage data) s) = events s.
Proof.
  intros data s Hparse.
  assert (E : handleMessage data s = (Throw SyntaxError, s)).
  { unfold BfxApi.handleMessage. now rewrite Hparse. }
  unfold after. rewrite E. simpl. auto.
Qed.

(** *** subscribe with something that is not a function *)

(** C7.  [subscribe] called with a callback that is not a function
    returns a promise that is already rejected with a TypeError.  That
    promise is all the call leaves behind: the registry, the queue and
    the effects on the transport are what they were, so nothing went
    through [send] and no expectation was registered. *)
Theorem subscribe_rejects_non_function : forall channel pair' params v s,
  subscribe channel pair' params (NotFunction v) s
  = (Normal (List.length (promises s)),
     set_promises (promises s ++ [Rejected TypeError]) s)
  /\ nth_error (promises (after (subscribe channel pair' params (NotFunction v)) s))
               (List.length (promises s))
     = Some (Rejected TypeError)
  /\ expectations (after (subscribe channel pair' params (NotFunction v)) s)
     = expectations s
  /\ resumeStack (after (subscribe channel pair' params (NotFunction v)) s)
     = resumeStack s
  /\ events (after (subscribe channel pair' params (NotFunction v)) s) = events s.
Proof.
  intros channel pair' params v s.
  assert (E : subscribe channel pair' params (NotFunction v) s
              = (Normal (List.length (promises s)),
                 set_promises (promises s ++ [Rejected TypeError]) s)).
  { unfold BfxApi.subscribe, bind, new_promise, reject, modify, ret. simpl.
    rewrite settle_at_last. reflexivity. }
  unfold after. rewrite E. simpl.
  repeat split; auto. apply nth_error_last.
Qed.

(** *** restart *)

(** C3 (amended).  With a transport in place, [restart] returns and
    leaves every expectation registered before it where it was: the
    whenever-list is unchanged and the once-list has gained one entry at
    its end, the version check registered by [connect]. *)
Theorem restart_keeps_registry : forall s w,
  ws s = Some w ->
  result restart s = Normal tt
  /\ expectationsOnce (expectations (after restart s))
     = expectationsOnce (expectations s)
       ++ [mkExpectation (nextRef (expectations s)) MatchVersion CheckVersion]
  /\ expectationsWhenever (expectations (after restart s))
     = expectationsWhenever (expectations s).
Proof.
  intros s w Hw.
  unfold result, after, restart, close, connect, ws_close, once, debug, log,
    emit, modify, bind, ret.
  simpl. rewrite Hw. simpl. auto.
Qed.

(** *** Sends kept back, and their replay *)

Lemma sends_paused : forall payloads s,
  paused s = true ->
  sends JSON_stringify payloads s
  = set_resumeStack (resumeStack s ++ map SendBound payloads) s.
Proof.
  induction payloads as [|data payloads IH]; intros s Hp; simpl.
  - rewrite app_nil_r. now destruct s.
  - unfold after at 1. rewrite (send_deferred data s (or_introl Hp)). simpl.
    rewrite IH by exact Hp. simpl.
    rewrite <- app_assoc. reflexivity.
Qed.

(** Deferred sends called one after the other on an open, unpaused
    controller reach the transport one after the other. *)
Lemma call_each_open : forall queue s w,
  paused s = false -> ws s = Some w -> readyState w = OPEN ->
  ActionsStack.call_each call_action queue s
  = (Normal tt,
     set_events
       (events s ++ map (fun a => Sent (socket w) (on_the_wire (bound_data a))) queue)
       s).
Proof.
  induction queue as [|[data] queue IH]; intros s w Hp Hw Hr; simpl.
  - rewrite app_nil_r. now destruct s.
  - unfold bind. rewrite (send_transmitted data s w Hp Hw Hr).
    rewrite (IH _ w) by assumption. simpl.
    rewrite <- app_assoc. reflexivity.
Qed.

Lemma fire_is_call_each : forall s,
  ActionsStack.fire call_action resumeStack set_resumeStack s
  = (ActionsStack.call_each call_action (resumeStack s)
     ;; ActionsStack.reject set_resumeStack) s.
Proof.
  intros s.
  apply (ActionsStackFacts.fire_call_each Action State call_action
           resumeStack set_resumeStack).
Qed.

Lemma resume_open : forall s w,
  ws s = Some w -> readyState w = OPEN ->
  resume s
  = (Normal tt,
     set_resumeStack []
       (set_paused false
          (set_events
             (events s ++ Logged DEBUG "resume" []
              :: map (fun a => Sent (socket w) (on_the_wire (bound_data a)))
                     (resumeStack s))
             s))).
Proof.
  intros s w Hw Hr.
  unfold BfxApi.resume, bind at 1, debug, emit, modify at 1.
  unfold bind at 1, modify at 1.
  rewrite fire_is_call_each. unfold bind.
  rewrite (call_each_open _ _ w) by (simpl; auto).
  simpl. rewrite <- app_assoc. reflexivity.
Qed.

(** *** subscribe, its acknowledgment and the channel it opens *)

Lemma subscribe_function : forall channel pair' params f s,
  exists s1,
    subscribe channel pair' params (Function f) s
    = (Normal (List.length (promises s)), s1)
    /\ expectations s1
       = mkExpectations
           (expectationsOnce (expectations s)
            ++ [mkExpectation (nextRef (expectations s))
                              (MatchSubscribed pair')
                              (Promote f (List.length (promises s)))])
           (expectationsWhenever (expectations s))
           (S (nextRef (expectations s)))
    /\ promises s1 = promises s ++ [Pending].
Proof.
  intros channel pair' params f s.
  unfold BfxApi.subscribe, bind at 1, new_promise.
  unfold bind at 1, once, modify.
  unfold bind at 1.
  match goal with
  | |- context [send ?d ?x] =>
      destruct (deferring_or_open x) as [Hgate|(Hp & w & Hw & Hr)];
      [ rewrite (send_deferred d x Hgate)
      | rewrite (send_transmitted d x w Hp Hw Hr) ]
  end; unfold ret; simpl; eexists; repeat split.
Qed.

Lemma filter_unmatched : forall (msg : JSON) (g : Expectation MatchFunc ProcessFunc -> bool) l,
  none_matching call_match msg l ->
  none_matching call_match msg (filter g l).
Proof.
  intros msg g l H exp Hin. apply H. apply filter_In in Hin. now destruct Hin.
Qed.

Lemma app_unmatched : forall (msg : JSON) (l l' : list (Expectation MatchFunc ProcessFunc)),
  none_matching call_match msg l ->
  none_matching call_match msg l' ->
  none_matching call_match msg (l ++ l').
Proof.
  intros msg l l' H H' exp Hin. apply in_app_or in Hin. destruct Hin; auto.
Qed.

Lemma one_unmatched : forall (msg : JSON) (exp : Expectation MatchFunc ProcessFunc),
  call_match (matchf exp) msg = false ->
  none_matching call_match msg [exp].
Proof.
  intros msg exp H x [<-|[]]. exact H.
Qed.

(** C5 (amended).  [subscribe] for pair BTCUSD with a function [f], at a
    moment when no expectation registered earlier accepts the
    acknowledgment (in the once-list) or the two channel-5 messages (in
    either list): dispatching [{event:'subscribed', pair:'BTCUSD',
    chanId:5}] resolves the returned promise with that message and
    appends two whenever-expectations for channel 5; [[5,'hb']] then runs
    the heartbeat handler and not [f]; [[5,[100,1]]] then calls [f] with
    that message. *)
Theorem subscription_promoted : forall s channel params f,
  none_matching call_match subscribed_BTCUSD_5 (expectationsOnce (expectations s)) ->
  unexpected heartbeat_5 s ->
  unexpected snapshot_5 s ->
  subscription_served JSON_stringify allowedVersions s channel params f.
Proof.
  intros s channel params f Hack [Hb1 Hb2] [Hs1 Hs2].
  unfold subscription_served. cbv zeta.
  destruct (subscribe_function channel "BTCUSD" params f s) as (s1 & E1 & He1 & Hp1).
  set (p := List.length (promises s)) in E1, He1 |- *.
  set (n := nextRef (expectations s)) in He1.
  set (mine := mkExpectation n (MatchSubscribed "BTCUSD") (Promote f p)) in He1.
  set (snapshots := mkExpectation (S n) (MatchSnapshot (Some (JNum 5))) (Snapshot f)).
  set (heartbeats := mkExpectation (S (S n)) (MatchHeartbeat (Some (JNum 5))) heartbeating).
  (* the acknowledgment is taken by the entry just registered *)
  assert (Hfind : find (matching call_match subscribed_BTCUSD_5)
                       (expectationsOnce (expectations s1)) = Some mine).
  { rewrite He1. simpl. rewrite find_after_unmatched by exact Hack. reflexivity. }
  assert (E2 : exists s2,
             exec allowedVersions subscribed_BTCUSD_5 s1 = (Normal true, s2)
             /\ promises s2 = promises s ++ [Resolved subscribed_BTCUSD_5]
             /\ expectationsOnce (expectations s2)
                = filter (fun x => negb (same_object x mine))
                         (expectationsOnce (expectations s) ++ [mine])
             /\ expectationsWhenever (expectations s2)
                = expectationsWhenever (expectations s) ++ [snapshots; heartbeats]).
  { unfold exec.
    rewrite (ExpectationsFacts.exec_once_found _ _ _ _ call_match
               (call_process allowedVersions) expectations set_expectations
               subscribed_BTCUSD_5 s1 mine Hfind).
    unfold call_process, whenever, resolve, bind, modify, ret. simpl.
    eexists. split; [reflexivity|]. simpl.
    rewrite He1, Hp1. simpl. repeat split.
    - apply settle_at_last.
    - now rewrite <- app_assoc. }
  destruct E2 as (s2 & E2 & Hp2 & Ho2 & Hw2).
  assert (Honce : forall msg,
             none_matching call_match msg (expectationsOnce (expectations s)) ->
             call_match (MatchSubscribed "BTCUSD") msg = false ->
             none_matching call_match msg (expectationsOnce (expectations s2))).
  { intros msg H Hm. rewrite Ho2. apply filter_unmatched.
    apply app_unmatched; [exact H|]. now apply one_unmatched. }
  (* the heartbeat goes past the snapshot entry to the heartbeat entry *)
  assert (E3 : exec allowedVersions heartbeat_5 s2
               = (Normal true,
                  set_events (events s2 ++ [Logged DEBUG "Heartbeating" [Some (JNum 5)]]) s2)).
  { unfold exec.
    rewrite (ExpectationsFacts.exec_whenever_matched _ _ _ _ call_match
               (call_process allowedVersions) expectations set_expectations
               heartbeat_5 s2
               (expectationsWhenever (expectations s) ++ [snapshots]) [] heartbeats).
    - reflexivity.
    - apply Honce; [exact Hb1 | reflexivity].
    - rewrite Hw2, <- app_assoc. reflexivity.
    - apply app_unmatched; [exact Hb2|]. now apply one_unmatched.
    - reflexivity. }
  (* the snapshot is taken by the snapshot entry *)
  set (s3 := set_events (events s2 ++ [Logged DEBUG "Heartbeating" [Some (JNum 5)]]) s2) in E3.
  assert (E4 : exec allowedVersions snapshot_5 s3
               = (Normal true, set_events (events s3 ++ [Called f snapshot_5]) s3)).
  { unfold exec.
    rewrite (ExpectationsFacts.exec_whenever_matched _ _ _ _ call_match
               (call_process allowedVersions) expectations set_expectations
               snapshot_5 s3
               (expectationsWhenever (expectations s)) [heartbeats] snapshots).
    - reflexivity.
    - apply (Honce snapshot_5); [exact Hs1 | reflexivity].
    - exact Hw2.
    - exact Hs2.
    - reflexivity. }
  unfold result, after. rewrite E1. simpl fst. simpl snd.
  rewrite E2. simpl fst. simpl snd.
  rewrite E3. simpl fst. simpl snd. fold s3.
  rewrite E4. simpl fst. simpl snd.
  repeat split.
  - rewrite Hp2. apply nth_error_last.
  - rewrite Hw2, map_app. reflexivity.
Qed.

(** *** While paused *)

Lemma quiet_ret : forall (A : Type) (a : A), quiet (ret a).
Proof. intros A a s. now split. Qed.

Lemma quiet_throw : forall (A : Type) (e : JSError), quiet (throw (A := A) e).
Proof. intros A e s. now split. Qed.

Lemma quiet_bind : forall (A B : Type) (c : JS State A) (k : A -> JS State B),
  quiet c -> (forall a, quiet (k a)) -> quiet (bind c k).
Proof.
  intros A B c k Hc Hk s. specialize (Hc s).
  unfold after, bind in *.
  destruct (c s) as [[a|e] s']; simpl in *; [|exact Hc].
  destruct (Hk a s') as [H1 H2]. unfold after in *.
  destruct Hc as [H3 H4]. split; congruence.
Qed.

Lemma quiet_modify : forall (f : State -> State),
  (forall s, paused (f s) = paused s) ->
  (forall s, events (f s) = events s) ->
  quiet (modify f).
Proof.
  intros f Hp He s. unfold after, modify, transmitted. simpl.
  now rewrite Hp, He.
Qed.

Lemma quiet_emit : forall e,
  (forall k data, e <> Sent k data) -> quiet (emit e).
Proof.
  intros e Hne s. unfold after, emit, modify, transmitted. simpl.
  split; [reflexivity|].
  rewrite transmitted_in_app. simpl.
  destruct e; try now rewrite app_nil_r.
  now elim (Hne sock data).
Qed.

Lemma quiet_log : forall via text args, quiet (emit (Logged via text args)).
Proof. intros. apply quiet_emit. discriminate. Qed.

Lemma quiet_once : forall m p, quiet (once expectations set_expectations m p).
Proof. intros. now apply quiet_modify. Qed.

Lemma quiet_whenever : forall m p, quiet (whenever expectations set_expectations m p).
Proof. intros. now apply quiet_modify. Qed.

Lemma quiet_new_promise : quiet new_promise.
Proof. intros s. now split. Qed.

Lemma quiet_ws_close : quiet ws_close.
Proof.
  intros s. unfold after, ws_close.
  destruct (ws s) as [w|] eqn:Hw; [|now split].
  apply (quiet_bind _ _ (emit (Closed (socket w))) _).
  - apply quiet_emit. discriminate.
  - intros _. now apply quiet_modify.
Qed.

Lemma quiet_close : quiet close.
Proof.
  apply quiet_bind; [apply quiet_log | intros _; apply quiet_ws_close].
Qed.

Lemma quiet_connect : quiet connect.
Proof.
  apply quiet_bind; [apply quiet_log | intros _].
  apply quiet_bind; [apply quiet_once | intros _].
  intros s.
  apply (quiet_bind _ _ (emit (Constructed (sockets s) (url s))) _).
  - apply quiet_emit. discriminate.
  - intros _. apply quiet_bind; [now apply quiet_modify | intros _].
    now apply quiet_modify.
Qed.

Lemma quiet_restart : quiet restart.
Proof.
  apply quiet_bind; [apply quiet_log | intros _].
  apply quiet_bind; [apply quiet_close | intros _; apply quiet_connect].
Qed.

Lemma quiet_call_process : forall p msg, quiet (call_process allowedVersions p msg).
Proof.
  intros [| |promise|callback promise|callback|] msg; simpl.
  - apply quiet_bind; [apply quiet_log | intros _].
    destruct (negb _); [|apply quiet_ret].
    apply quiet_bind; [apply quiet_log | intros _].
    apply quiet_bind; [apply quiet_log | intros _; apply quiet_ws_close].
  - apply quiet_log.
  - now apply quiet_modify.
  - apply quiet_bind; [apply quiet_whenever | intros _].
    apply quiet_bind; [apply quiet_whenever | intros _].
    now apply quiet_modify.
  - apply quiet_emit. discriminate.
  - destruct msg; try apply quiet_throw; apply quiet_log.
Qed.

Lemma quiet_exec : forall msg, quiet (exec allowedVersions msg).
Proof.
  intros msg.
  apply quiet_bind.
  - intros s. unfold after, Expectations.execOne.
    destruct (find _ _) as [exp|]; [|now split].
    match goal with
    | |- context [(?c ;; ret true) ?x] =>
        assert (Hq : quiet (c ;; ret true))
          by (apply quiet_bind; [apply quiet_call_process | intros _; apply quiet_ret]);
        destruct (Hq x) as [H1 H2]; unfold after in H1, H2;
        rewrite H1, H2
    end.
    now split.
  - intros [|]; [apply quiet_ret|].
    intros s. unfold after, Expectations.execWhenever.
    destruct (findIndex _ _) as [i|]; [|now split].
    destruct (nth_error _ _) as [exp|]; [|now split].
    apply (quiet_bind _ _ (call_process allowedVersions (process exp) msg)).
    + apply quiet_call_process.
    + intros _. apply quiet_ret.
Qed.

Lemma held_quiet : forall (A : Type) (c : JS State A), quiet c -> held c.
Proof.
  intros A c Hq s Hp. destruct (Hq s) as [H1 H2]. split; congruence.
Qed.

Lemma held_bind : forall (A B : Type) (c : JS State A) (k : A -> JS State B),
  held c -> (forall a, held (k a)) -> held (bind c k).
Proof.
  intros A B c k Hc Hk s Hp. specialize (Hc s Hp).
  unfold after, bind in *.
  destruct (c s) as [[a|e] s']; simpl in *; [|exact Hc].
  destruct Hc as [H3 H4].
  destruct (Hk a s' H3) as [H1 H2]. unfold after in *.
  split; congruence.
Qed.

Lemma held_send : forall data, held (send data).
Proof.
  intros data s Hp. unfold after.
  rewrite (send_deferred data s (or_introl Hp)). simpl. now split.
Qed.

Lemma held_ping : held (ping JSON_stringify).
Proof.
  intros s Hp. unfold ping.
  apply (held_bind _ _ (modify (set_pingCounter (increment (pingCounter s))))); [| |exact Hp].
  - apply held_quiet. now apply quiet_modify.
  - intros _. apply held_bind; [apply held_quiet, quiet_once | intros _; apply held_send].
Qed.

Lemma held_unsubscribe : forall chanId, held (unsubscribe JSON_stringify chanId).
Proof.
  intros chanId.
  apply held_bind; [apply held_send | intros _].
  apply held_bind; [apply held_quiet, quiet_new_promise | intros p].
  apply held_bind; [apply held_quiet, quiet_once | intros _].
  apply held_quiet, quiet_ret.
Qed.

Lemma held_subscribe : forall channel pair' params callback,
  held (subscribe channel pair' params callback).
Proof.
  intros channel pair' params callback.
  apply held_bind; [apply held_quiet, quiet_new_promise | intros p].
  destruct callback as [f|v].
  - apply held_bind; [apply held_quiet, quiet_once | intros _].
    apply held_bind; [apply held_send | intros _].
    apply held_quiet, quiet_ret.
  - apply held_bind; [apply held_quiet; now apply quiet_modify | intros _].
    apply held_quiet, quiet_ret.
Qed.

Lemma call_each_paused : forall queue s,
  paused (after (ActionsStack.call_each call_action queue) s) = paused s.
Proof.
  induction queue as [|[data] queue IH]; intros s; simpl; [reflexivity|].
  unfold after, bind.
  destruct (deferring_or_open s) as [Hgate|(Hp & w & Hw & Hr)].
  - rewrite (send_deferred data s Hgate).
    etransitivity; [apply (IH _) | reflexivity].
  - rewrite (send_transmitted data s w Hp Hw Hr).
    etransitivity; [apply (IH _) | reflexivity].
Qed.

Lemma resume_unpauses : forall s, paused (after resume s) = false.
Proof.
  intros s.
  unfold after, BfxApi.resume, bind at 1, debug, emit, modify at 1.
  unfold bind at 1, modify at 1.
  rewrite fire_is_call_each. unfold bind.
  match goal with
  | |- context [ActionsStack.call_each call_action ?q ?x] =>
      pose proof (call_each_paused q x) as H; unfold after in H;
      destruct (ActionsStack.call_each call_action q x) as [[[]|e] s']
  end; simpl in *; exact H.
Qed.

Lemma strict_eq_number : forall v n,
  strict_eq v (Some (JNum n)) = true -> v = Some (JNum n).
Proof.
  intros [[| |x| | |]|] n H; simpl in H; try discriminate.
  apply Z.eqb_eq in H. now subst.
Qed.

(** A control message met while paused: the controller stays paused and
    hands nothing to the transport, unless the code is 20061. *)
Lemma processMsgInfo_paused : forall msg s,
  paused s = true ->
  (paused (after (processMsgInfo JSON_stringify msg) s) = true
   /\ transmitted (after (processMsgInfo JSON_stringify msg) s) = transmitted s)
  \/ (paused (after (processMsgInfo JSON_stringify msg) s) = false
      /\ strict_eq (prop msg "code") (Some (JNum 20061)) = true).
Proof.
  intros msg s Hp. unfold processMsgInfo.
  destruct (strict_eq (prop msg "code") (Some (JNum 20051))) eqn:E1.
  { left. revert s Hp. apply held_bind; [apply held_quiet, quiet_log | intros _].
    apply held_quiet, quiet_restart. }
  destruct (strict_eq (prop msg "code") (Some (JNum 20060))) eqn:E2.
  { left. revert s Hp. apply held_bind; [apply held_quiet, quiet_log | intros _].
    apply held_bind; [apply held_quiet, quiet_log | intros _].
    intros s Hp. unfold after, modify, transmitted. simpl. now split. }
  destruct (strict_eq (prop msg "code") (Some (JNum 20061))) eqn:E3.
  { right. split; [|reflexivity].
    unfold after, bind at 1, debug, emit, modify at 1.
    apply resume_unpauses. }
  left. revert s Hp. apply held_bind; [apply held_quiet, quiet_log | intros _].
  apply held_quiet, quiet_log.
Qed.

Lemma handleMessage_paused : forall data s,
  paused s = true ->
  (paused (after (handleMessage data) s) = true
   /\ transmitted (after (handleMessage data) s) = transmitted s)
  \/ (paused (after (handleMessage data) s) = false
      /\ resumes JSON_parse (OnMessage data)).
Proof.
  intros data s Hp. unfold BfxApi.handleMessage.
  destruct (JSON_parse data) as [msg|] eqn:Hparse; [|left; now split].
  assert (Hbody :
    (paused (after (consumed <- exec allowedVersions msg ;;
                    if consumed then ret tt
                    else if strict_eq (prop msg "event") (Some (JStr "info"))
                         then processMsgInfo JSON_stringify msg
                         else debug "unprocessed message" [Some msg]) s) = true
     /\ transmitted (after (consumed <- exec allowedVersions msg ;;
                    if consumed then ret tt
                    else if strict_eq (prop msg "event") (Some (JStr "info"))
                         then processMsgInfo JSON_stringify msg
                         else debug "unprocessed message" [Some msg]) s)
        = transmitted s)
    \/ (paused (after (consumed <- exec allowedVersions msg ;;
                    if consumed then ret tt
                    else if strict_eq (prop msg "event") (Some (JStr "info"))
                         then processMsgInfo JSON_stringify msg
                         else debug "unprocessed message" [Some msg]) s) = false
        /\ resumes JSON_parse (OnMessage data))).
  { destruct (quiet_exec msg s) as [Hq1 Hq2].
    unfold after, bind in *.
    destruct (exec allowedVersions msg s) as [[[|]|e] s']; simpl in *.
    - left. split; congruence.
    - destruct (strict_eq (prop msg "event") (Some (JStr "info"))) eqn:Hinfo.
      + assert (Hp' : paused s' = true) by congruence.
        destruct (processMsgInfo_paused msg s' Hp') as [[H1 H2]|[H1 H2]].
        * left. unfold after in *. split; congruence.
        * right. split; [exact H1|].
          right. exists data, msg. auto.
      + left. destruct (quiet_log DEBUG "unprocessed message" [Some msg] s') as [H1 H2].
        unfold after, debug in *. split; congruence.
    - left. split; congruence. }
  destruct msg; try exact Hbody.
  left. now split.
Qed.

Lemma step_paused : forall s op,
  paused s = true ->
  (paused (step JSON_parse JSON_stringify allowedVersions s op) = true
   /\ transmitted (step JSON_parse JSON_stringify allowedVersions s op) = transmitted s)
  \/ (paused (step JSON_parse JSON_stringify allowedVersions s op) = false
      /\ resumes JSON_parse op).
Proof.
  intros s op Hp. destruct op; simpl.
  - left. now apply (held_quiet _ _ quiet_connect).
  - left. now apply (held_quiet _ _ quiet_close).
  - left. now apply (held_quiet _ _ (quiet_log LOG "auth not implemented" [])).
  - left. now apply held_ping.
  - left. now apply held_subscribe.
  - left. now apply held_unsubscribe.
  - left. now apply held_send.
  - now apply handleMessage_paused.
  - right. split; [apply resume_unpauses | now left].
  - left. unfold transport. destruct (ws s); now split.
Qed.

Lemma run_while_paused : forall ops s,
  paused s = true ->
  (forall k, paused (run JSON_parse JSON_stringify allowedVersions (firstn k ops) s) = true) ->
  transmitted (run JSON_parse JSON_stringify allowedVersions ops s) = transmitted s.
Proof.
  unfold run.
  induction ops as [|op ops IH]; intros s Hp Hk; simpl; [reflexivity|].
  pose proof (Hk 1) as H1. simpl in H1.
  destruct (step_paused s op Hp) as [[Hp' Ht]|[Hp' _]]; [|congruence].
  rewrite IH; [exact Ht | exact Hp' |].
  intros k. exact (Hk (S k)).
Qed.

Lemma run_without_resume : forall ops s,
  paused s = true ->
  Forall (fun op => ~ resumes JSON_parse op) ops ->
  paused (run JSON_parse JSON_stringify allowedVersions ops s) = true
  /\ transmitted (run JSON_parse JSON_stringify allowedVersions ops s) = transmitted s.
Proof.
  unfold run.
  induction ops as [|op ops IH]; intros s Hp Hall; simpl; [now split|].
  inversion Hall as [|? ? Hop Hrest]; subst.
  destruct (step_paused s op Hp) as [[Hp' Ht]|[_ Hr]]; [|contradiction].
  destruct (IH _ Hp' Hrest) as [H1 H2].
  split; congruence.
Qed.

(** C6.  An inbound info message with code 20060 that no expectation
    consumes leaves the controller paused.  From then on, for as long as
    the controller stays paused, whatever is called on it or delivered to
    it, nothing is handed to the transport; and it stays paused until the
    transport's open event or an info message with code 20061 runs
    [resume]. *)
Theorem pause_holds_sends : forall data msg s,
  JSON_parse data = Some msg ->
  strict_eq (prop msg "event") (Some (JStr "info")) = true ->
  strict_eq (prop msg "code") (Some (JNum 20060)) = true ->
  unexpected msg s ->
  let s1 := after (handleMessage data) s in
  paused s1 = true
  /\ (forall ops,
        (forall k, paused (run JSON_parse JSON_stringify allowedVersions
                               (firstn k ops) s1) = true) ->
        transmitted (run JSON_parse JSON_stringify allowedVersions ops s1)
        = transmitted s1)
  /\ (forall ops,
        Forall (fun op => ~ resumes JSON_parse op) ops ->
        paused (run JSON_parse JSON_stringify allowedVersions ops s1) = true
        /\ transmitted (run JSON_parse JSON_stringify allowedVersions ops s1)
           = transmitted s1).
Proof.
  intros data msg s Hparse Hinfo Hcode [Ho Hw] s1.
  assert (Hp1 : paused s1 = true).
  { subst s1. unfold after, BfxApi.handleMessage. rewrite Hparse.
    destruct msg as [| | | | |props]; try (simpl in Hinfo; discriminate).
    unfold bind at 1, exec.
    rewrite (ExpectationsFacts.exec_once_unmatched _ _ _ _ call_match
               (call_process allowedVersions) expectations set_expectations _ _ Ho).
    rewrite (ExpectationsFacts.execWhenever_unmatched _ _ _ _ call_match
               (call_process allowedVersions) expectations _ _ Hw).
    rewrite Hinfo.
    apply strict_eq_number in Hcode.
    unfold processMsgInfo. rewrite Hcode. reflexivity. }
  split; [exact Hp1|]. split.
  - intros ops Hk. now apply run_while_paused.
  - intros ops Hall. now apply run_without_resume.
Qed.

(** *** The once-list of a controller holds distinct objects *)

Lemma tidy_ret : forall (A : Type) (a : A), tidy (ret a).
Proof. intros A a s H. exact H. Qed.

Lemma tidy_throw : forall (A : Type) (e : JSError), tidy (throw (A := A) e).
Proof. intros A e s H. exact H. Qed.

Lemma tidy_bind : forall (A B : Type) (c : JS State A) (k : A -> JS State B),
  tidy c -> (forall a, tidy (k a)) -> tidy (bind c k).
Proof.
  intros A B c k Hc Hk s H. specialize (Hc s H).
  unfold after, bind in *.
  destruct (c s) as [[a|e] s']; simpl in *; [|exact Hc].
  exact (Hk a s' Hc).
Qed.

Lemma tidy_modify : forall (f : State -> State),
  (forall s, expectations (f s) = expectations s) -> tidy (modify f).
Proof.
  intros f Hf s H. unfold after, modify. simpl. now rewrite Hf.
Qed.

Lemma tidy_emit : forall e, tidy (emit e).
Proof. intros e. now apply tidy_modify. Qed.

Lemma tidy_once : forall m p, tidy (once expectations set_expectations m p).
Proof.
  intros m p s [Hnd Hlt]. unfold after, once, modify, allocated. simpl.
  split.
  - rewrite map_app. simpl.
    apply NoDup_app; [exact Hnd | repeat constructor; intros [] |].
    intros x Hx [<-|[]].
    apply in_map_iff in Hx. destruct Hx as (exp & Hr & Hin).
    specialize (Hlt exp Hin). lia.
  - intros exp Hin. apply in_app_or in Hin. destruct Hin as [Hin|[<-|[]]].
    + specialize (Hlt exp Hin). lia.
    + simpl. lia.
Qed.

Lemma tidy_whenever : forall m p, tidy (whenever expectations set_expectations m p).
Proof.
  intros m p s [Hnd Hlt]. unfold after, whenever, modify, allocated. simpl.
  split; [exact Hnd|]. intros exp Hin. specialize (Hlt exp Hin). lia.
Qed.

Lemma tidy_ws_close : tidy ws_close.
Proof.
  intros s. unfold after, ws_close.
  destruct (ws s) as [w|]; [|auto].
  apply (tidy_bind _ _ (emit (Closed (socket w))) _).
  - apply tidy_emit.
  - intros _. now apply tidy_modify.
Qed.

Lemma tidy_send : forall data, tidy (send data).
Proof.
  intros data s H. unfold after.
  destruct (deferring_or_open s) as [Hgate|(Hp & w & Hw & Hr)].
  - now rewrite (send_deferred data s Hgate).
  - now rewrite (send_transmitted data s w Hp Hw Hr).
Qed.

Lemma tidy_call_process : forall p msg, tidy (call_process allowedVersions p msg).
Proof.
  intros [| |promise|callback promise|callback|] msg; simpl.
  - apply tidy_bind; [apply tidy_emit | intros _].
    destruct (negb _); [|apply tidy_ret].
    apply tidy_bind; [apply tidy_emit | intros _].
    apply tidy_bind; [apply tidy_emit | intros _; apply tidy_ws_close].
  - apply tidy_emit.
  - now apply tidy_modify.
  - apply tidy_bind; [apply tidy_whenever | intros _].
    apply tidy_bind; [apply tidy_whenever | intros _].
    now apply tidy_modify.
  - apply tidy_emit.
  - destruct msg; try apply tidy_throw; apply tidy_emit.
Qed.

Lemma allocated_filter : forall (E : Expectations MatchFunc ProcessFunc) g,
  allocated E ->
  allocated (with_once (filter g (expectationsOnce E)) E).
Proof.
  intros E g [Hnd Hlt]. unfold allocated. simpl. split.
  - clear Hlt. induction (expectationsOnce E) as [|a l IH]; simpl; [constructor|].
    inversion Hnd as [|? ? Hnotin Hnd']; subst.
    destruct (g a); simpl; [|now apply IH].
    constructor; [|now apply IH].
    intros Hin. apply Hnotin.
    apply in_map_iff in Hin. destruct Hin as (x & Hx & Hin).
    apply filter_In in Hin. destruct Hin as [Hin _].
    apply in_map_iff. now exists x.
  - intros exp Hin. apply filter_In in Hin. destruct Hin as [Hin _]. now apply Hlt.
Qed.

Lemma tidy_exec : forall msg, tidy (exec allowedVersions msg).
Proof.
  intros msg.
  apply tidy_bind.
  - intros s H. unfold after, Expectations.execOne.
    destruct (find _ _) as [exp|]; [|exact H].
    match goal with
    | |- context [(?c ;; ret true) ?x] =>
        assert (Ht : tidy (c ;; ret true))
          by (apply tidy_bind; [apply tidy_call_process | intros _; apply tidy_ret]);
        apply (Ht x)
    end.
    simpl. now apply allocated_filter.
  - intros [|]; [apply tidy_ret|].
    intros s H. unfold after, Expectations.execWhenever.
    destruct (findIndex _ _) as [i|]; [|exact H].
    destruct (nth_error _ _) as [exp|]; [|exact H].
    apply (tidy_bind _ _ (call_process allowedVersions (process exp) msg)); [| |exact H].
    + apply tidy_call_process.
    + intros _. apply tidy_ret.
Qed.

Lemma tidy_call_each : forall queue,
  tidy (ActionsStack.call_each call_action queue).
Proof.
  induction queue as [|[data] queue IH]; simpl.
  - apply tidy_ret.
  - apply tidy_bind; [apply tidy_send | intros _; exact IH].
Qed.

Lemma tidy_resume : tidy resume.
Proof.
  apply tidy_bind; [apply tidy_emit | intros _].
  apply tidy_bind; [now apply tidy_modify | intros _].
  intros s H. unfold after. rewrite fire_is_call_each.
  apply (tidy_bind _ _ (ActionsStack.call_each call_action (resumeStack s)) _);
    [apply tidy_call_each | | exact H].
  intros _. now apply tidy_modify.
Qed.

Lemma tidy_connect : tidy connect.
Proof.
  apply tidy_bind; [apply tidy_emit | intros _].
  apply tidy_bind; [apply tidy_once | intros _].
  intros s.
  apply (tidy_bind _ _ (emit (Constructed (sockets s) (url s))) _).
  - apply tidy_emit.
  - intros _. apply tidy_bind; [now apply tidy_modify | intros _].
    now apply tidy_modify.
Qed.

Lemma tidy_close : tidy close.
Proof.
  apply tidy_bind; [apply tidy_emit | intros _; apply tidy_ws_close].
Qed.

Lemma tidy_handleMessage : forall data, tidy (handleMessage data).
Proof.
  intros data. unfold BfxApi.handleMessage.
  destruct (JSON_parse data) as [msg|]; [|apply tidy_throw].
  assert (Hbody : tidy (consumed <- exec allowedVersions msg ;;
                        if consumed then ret tt
                        else if strict_eq (prop msg "event") (Some (JStr "info"))
                             then processMsgInfo JSON_stringify msg
                             else debug "unprocessed message" [Some msg])).
  { apply tidy_bind; [apply tidy_exec | intros [|]; [apply tidy_ret|]].
    destruct (strict_eq (prop msg "event") _); [|apply tidy_emit].
    apply tidy_bind; [apply tidy_emit | intros _].
    destruct (strict_eq (prop msg "code") (Some (JNum 20051))).
    { apply tidy_bind; [apply tidy_emit | intros _].
      apply tidy_bind; [apply tidy_close | intros _; apply tidy_connect]. }
    destruct (strict_eq (prop msg "code") (Some (JNum 20060))).
    { apply tidy_bind; [apply tidy_emit | intros _]. now apply tidy_modify. }
    destruct (strict_eq (prop msg "code") (Some (JNum 20061))).
    { apply tidy_resume. }
    apply tidy_emit. }
  destruct msg; try exact Hbody. apply tidy_throw.
Qed.

Lemma tidy_step : forall s op,
  allocated (expectations s) ->
  allocated (expectations (step JSON_parse JSON_stringify allowedVersions s op)).
Proof.
  intros s op H. destruct op; simpl.
  - now apply tidy_connect.
  - now apply tidy_close.
  - now apply (tidy_emit (Logged LOG "auth not implemented" [])).
  - unfold ping.
    apply (tidy_bind _ _ (modify (set_pingCounter (increment (pingCounter s))))); [| |exact H].
    + now apply tidy_modify.
    + intros _. apply tidy_bind; [apply tidy_once | intros _; apply tidy_send].
  - revert s H. apply tidy_bind; [now apply tidy_modify | intros p].
    destruct callback as [f|v].
    + apply tidy_bind; [apply tidy_once | intros _].
      apply tidy_bind; [apply tidy_send | intros _; apply tidy_ret].
    + apply tidy_bind; [now apply tidy_modify | intros _; apply tidy_ret].
  - revert s H. apply tidy_bind; [apply tidy_send | intros _].
    apply tidy_bind; [now apply tidy_modify | intros p].
    apply tidy_bind; [apply tidy_once | intros _; apply tidy_ret].
  - now apply tidy_send.
  - now apply tidy_handleMessage.
  - now apply tidy_resume.
  - unfold transport. now destruct (ws s).
Qed.

(** Whatever has been called on a controller and delivered to it since it
    was constructed, no two entries of its once-list are the same
    object. *)
Lemma controller_distinct_objects : forall bfxAPI params_url ops,
  distinct_objects
    (expectations (run JSON_parse JSON_stringify allowedVersions ops
                       (constructor bfxAPI params_url))).
Proof.
  intros bfxAPI params_url ops.
  assert (H : allocated (expectations (constructor bfxAPI params_url))).
  { split; [constructor | intros exp []]. }
  revert H. generalize (constructor bfxAPI params_url). unfold run.
  induction ops as [|op ops IH]; intros s H; simpl.
  - exact (proj1 H).
  - apply IH. now apply tidy_step.
Qed.

End Facts.

End BfxApiFacts.

(* ===================================================================== *)
(** ** The properties at work on sample sessions *)
(* ===================================================================== *)

Module Sessions.

Import Expectations BfxApi Session Scenario Frames Sample Dispatch.

Abbreviation exec := (BfxApi.exec versions).
Abbreviation once_fires :=
  (once_fires call_match (call_process versions) expectations set_expectations).
Abbreviation whenever_fires :=
  (whenever_fires call_match (call_process versions) expectations set_expectations).
Abbreviation unconsumed :=
  (unconsumed call_match (call_process versions) expectations set_expectations).
Abbreviation accepted_by_none :=
  (accepted_by_none (ProcessFunc := ProcessFunc) call_match).
Abbreviation unmatched := (none_matching (ProcessFunc := ProcessFunc) call_match).

Lemma unmatched_by_test : forall msg (l : list (Expectation MatchFunc ProcessFunc)),
  forallb (fun exp => negb (call_match (matchf exp) msg)) l = true ->
  unmatched msg l.
Proof.
  intros msg l H exp Hin.
  rewrite forallb_forall in H. specialize (H exp Hin).
  unfold matching. now destruct (call_match (matchf exp) msg).
Defined.

(** The pong of the pending ping is dispatched: the once-list holds the
    version check and the pong expectation; the first case holds, the
    pong expectation is the entry taken out, and its handler is the one
    called. *)
Lemma exec_dispatch_pong :
  map (fun exp => (matchf exp, process exp)) (expectationsOnce (expectations pinged))
  = [(MatchVersion, CheckVersion); (MatchPong 1, LogPong)]
  /\ distinct_objects (expectations pinged)
  /\ once_fires pong_1 pinged
  /\ ~ accepted_by_none pong_1 (expectationsOnce (expectations pinged))
  /\ exec pong_1 pinged
     = (Normal true,
        set_events
          (events pinged ++ [Logged LOG "proper ping/pong, ts is" [Some (JNum 100)]])
          (set_expectations
             (mkExpectations [mkExpectation 0 MatchVersion CheckVersion] []
                             (nextRef (expectations pinged)))
             pinged)).
Proof.
  assert (H : distinct_objects (expectations pinged)).
  { unfold distinct_objects. simpl. repeat constructor; simpl; intuition discriminate. }
  assert (Hn : ~ accepted_by_none pong_1 (expectationsOnce (expectations pinged))).
  { intros Hn.
    specialize (Hn (mkExpectation 1 (MatchPong 1) LogPong)).
    assert (Hin : In (mkExpectation 1 (MatchPong 1) LogPong)
                     (expectationsOnce (expectations pinged)))
      by (vm_compute; right; left; reflexivity).
    specialize (Hn Hin). vm_compute in Hn. discriminate. }
  split; [vm_compute; reflexivity|].
  split; [exact H|].
  split; [|split; [exact Hn|vm_compute; reflexivity]].
  destruct (ExpectationsFacts.exec_dispatch _ _ _ _ call_match (call_process versions)
              expectations set_expectations (fun E w => eq_refl) pong_1 pinged H)
    as [Ho|[[Hx _]|[Hx _]]].
  - exact Ho.
  - elim (Hn Hx).
  - elim (Hn Hx).
Defined.

(** A snapshot for channel 6 reaches a controller streaming channel 5. *)
Lemma exec_unmatched_channel_6 :
  let msg := JArr [JNum 6; JArr [JNum 1; JNum 2]] in
  unmatched msg (expectationsOnce (expectations streaming))
  /\ unmatched msg (expectationsWhenever (expectations streaming))
  /\ exec msg streaming = (Normal false, streaming)
  /\ expectationsOnce (expectations (after (exec msg) streaming))
     = expectationsOnce (expectations streaming)
  /\ expectationsWhenever (expectations (after (exec msg) streaming))
     = expectationsWhenever (expectations streaming).
Proof.
  intros msg.
  assert (H1 : unmatched msg (expectationsOnce (expectations streaming)))
    by (apply unmatched_by_test; reflexivity).
  assert (H2 : unmatched msg (expectationsWhenever (expectations streaming)))
    by (apply unmatched_by_test; reflexivity).
  split; [exact H1|]. split; [exact H2|].
  exact (ExpectationsFacts.exec_unmatched _ _ _ _ call_match (call_process versions)
           expectations set_expectations msg streaming H1 H2).
Defined.



(** A frame that is not JSON. *)
Lemma handleMessage_invalid_json_text :
  parse "not json" = None
  /\ handleMessage parse stringify versions "not json" active
     = (Throw SyntaxError, active)
  /\ paused (after (handleMessage parse stringify versions "not json") active)
     = paused active
  /\ expectations (after (handleMessage parse stringify versions "not json") active)
     = expectations active
  /\ resumeStack (after (handleMessage parse stringify versions "not json") active)
     = resumeStack active
  /\ events (after (handleMessage parse stringify versions "not json") active)
     = events active.
Proof.
  assert (H : parse "not json" = None) by reflexivity.
  split; [exact H|].
  exact (BfxApiFacts.handleMessage_invalid_json parse stringify versions
           "not json" active H).
Defined.

(** C2.  The code drops a send that was made while paused.  The
    controller is paused and its owner has called [close]; the socket is
    closing.  A payload sent now is queued.  The info message 20061 then
    runs [resume] while the socket is not open: the queued send goes
    through the gate again and is pushed back onto the stack that [fire]
    clears right after.  It never reaches the transport and is no longer
    queued.  The same happens to a payload sent while paused over an open
    socket, when the owner then closes and connects again and the 20061
    of the old connection arrives before the new socket has opened: the
    open event of the new socket finds the queue empty. *)
Lemma paused_send_lost :
  paused closing_while_paused = true
  /\ ~ replayed_on_resume stringify closing_while_paused [ping_1] CLOSING
  /\ resumeStack (play [Send ping_1] closing_while_paused) = [SendBound ping_1]
  /\ transmitted (play [Send ping_1; OnMessage (stringify info_20061)]
                       closing_while_paused) = []
  /\ resumeStack (play [Send ping_1; OnMessage (stringify info_20061)]
                       closing_while_paused) = []
  /\ paused paused_by_server = true
  /\ resumeStack (play [Send ping_1] paused_by_server) = [SendBound ping_1]
  /\ (let reconnected :=
        play [Send ping_1; Close; Connect; OnMessage (stringify info_20061);
              Transport OPEN; OnOpen] paused_by_server in
      ws reconnected = Some (mkWebSocket 1 OPEN)
      /\ paused reconnected = false
      /\ transmitted reconnected = []
      /\ resumeStack reconnected = []).
Proof.
  split; [vm_compute; reflexivity|]. split.
  - intros (_ & _ & H & _). vm_compute in H. discriminate.
  - repeat split; vm_compute; reflexivity.
Qed.

(** [restart] of a connected controller with a ping pending. *)
Lemma restart_keeps_registry_pinged :
  ws pinged = Some (mkWebSocket 0 OPEN)
  /\ result restart pinged = Normal tt
  /\ expectationsOnce (expectations (after restart pinged))
     = expectationsOnce (expectations pinged)
       ++ [mkExpectation (nextRef (expectations pinged)) MatchVersion CheckVersion]
  /\ expectationsWhenever (expectations (after restart pinged))
     = expectationsWhenever (expectations pinged).
Proof.
  assert (H : ws pinged = Some (mkWebSocket 0 OPEN)) by (vm_compute; reflexivity).
  split; [exact H|].
  exact (BfxApiFacts.restart_keeps_registry pinged (mkWebSocket 0 OPEN) H).
Defined.

(** C3, as stated, fails.  After [restart] the registry of a controller
    that had a ping pending is not the fresh one: the once-list still holds
    the pong expectation, between the two version checks, and that
    expectation fires when the pong arrives on the new connection. *)
Lemma restart_registry_not_fresh :
  result restart pinged = Normal tt
  /\ ~ fresh_registry (after restart pinged)
  /\ map (fun exp => (matchf exp, process exp))
         (expectationsOnce (expectations (after restart pinged)))
     = [(MatchVersion, CheckVersion); (MatchPong 1, LogPong); (MatchVersion, CheckVersion)]
  /\ exec pong_1 (after restart pinged)
     = (Normal true,
        after (call_process versions LogPong pong_1)
              (set_expectations
                 (with_once
                    [mkExpectation 0 MatchVersion CheckVersion;
                     mkExpectation 2 MatchVersion CheckVersion]
                    (expectations (after restart pinged)))
                 (after restart pinged))).
Proof.
  split; [vm_compute; reflexivity|]. split.
  - intros [H _]. vm_compute in H. discriminate.
  - split; vm_compute; reflexivity.
Qed.

(** The scenario on a controller that has just become active. *)
Lemma subscription_promoted_active :
  unmatched subscribed_BTCUSD_5 (expectationsOnce (expectations active))
  /\ unexpected heartbeat_5 active
  /\ unexpected snapshot_5 active
  /\ subscription_served stringify versions active "ticker"
       [("symbol", JStr "tBTCUSD")] 0.
Proof.
  assert (H1 : unmatched subscribed_BTCUSD_5 (expectationsOnce (expectations active)))
    by (apply unmatched_by_test; vm_compute; reflexivity).
  assert (H2 : unexpected heartbeat_5 active)
    by (split; apply unmatched_by_test; vm_compute; reflexivity).
  assert (H3 : unexpected snapshot_5 active)
    by (split; apply unmatched_by_test; vm_compute; reflexivity).
  split; [exact H1|]. split; [exact H2|]. split; [exact H3|].
  exact (BfxApiFacts.subscription_promoted stringify versions active "ticker"
           [("symbol", JStr "tBTCUSD")] 0 H1 H2 H3).
Defined.

(** C5, as stated, fails.  A subscription to BTCUSD is already awaiting
    its acknowledgment when [subscribe] is called for BTCUSD again, with
    callback 1.  The acknowledgment is taken by the earlier entry: the
    promise of the second call stays pending, and the channel-5 snapshot
    goes to callback 0. *)
Lemma second_subscription_not_served :
  ~ subscription_served stringify versions subscribed_once "trades"
      [("symbol", JStr "tBTCUSD")] 1
  /\ (let s := play [Subscribe "trades" "BTCUSD" [("symbol", JStr "tBTCUSD")] (Function 1);
                     OnMessage (stringify subscribed_BTCUSD_5);
                     OnMessage (stringify snapshot_5)] subscribed_once in
      promises s = [Resolved subscribed_BTCUSD_5; Pending]
      /\ calls 0 s = [snapshot_5]
      /\ calls 1 s = []).
Proof.
  split.
  - intros (_ & _ & H & _). vm_compute in H. discriminate.
  - repeat split; vm_compute; reflexivity.
Qed.

(** The server pauses an active controller; the owner then pings,
    subscribes and sends while the transport stays as it is. *)
Lemma pause_holds_sends_active :
  let ops := [Ping;
              Subscribe "ticker" "BTCUSD" [("symbol", JStr "tBTCUSD")] (Function 0);
              Send (JStr "raw");
              OnMessage (stringify heartbeat_5)] in
  parse (stringify info_20060) = Some info_20060
  /\ strict_eq (prop info_20060 "event") (Some (JStr "info")) = true
  /\ strict_eq (prop info_20060 "code") (Some (JNum 20060)) = true
  /\ unexpected info_20060 active
  /\ paused paused_by_server = true
  /\ transmitted (play ops paused_by_server) = transmitted paused_by_server.
Proof.
  intros ops.
  assert (H1 : parse (stringify info_20060) = Some info_20060) by (vm_compute; reflexivity).
  assert (H2 : strict_eq (prop info_20060 "event") (Some (JStr "info")) = true)
    by (vm_compute; reflexivity).
  assert (H3 : strict_eq (prop info_20060 "code") (Some (JNum 20060)) = true)
    by (vm_compute; reflexivity).
  assert (H4 : unexpected info_20060 active)
    by (split; apply unmatched_by_test; vm_compute; reflexivity).
  destruct (BfxApiFacts.pause_holds_sends parse stringify versions
              (stringify info_20060) info_20060 active H1 H2 H3 H4)
    as (Hp & Hheld & _).
  split; [exact H1|]. split; [exact H2|]. split; [exact H3|]. split; [exact H4|].
  split; [exact Hp|].
  apply (Hheld ops). intros k.
  do 5 (destruct k as [|k]; [vm_compute; reflexivity|]). vm_compute; reflexivity.
Defined.

End Sessions.

(* ===================================================================== *)
(** * Further properties *)
(* ===================================================================== *)

(** ** Registering, then dispatching *)

Module RegistryLaws.

Import Expectations.

Section Laws.

Variables MatchFunc ProcessFunc Msg W : Type.
Variable call_match : MatchFunc -> Msg -> bool.
Variable call_process : ProcessFunc -> Msg -> JS W unit.
Variable this : W -> Expectations MatchFunc ProcessFunc.
Variable set_this : Expectations MatchFunc ProcessFunc -> W -> W.

Abbreviation once := (once this set_this).
Abbreviation whenever := (whenever this set_this).
Abbreviation exec := (exec call_match call_process this set_this).
Abbreviation unmatched := (none_matching (ProcessFunc := ProcessFunc) call_match).

(** [set_this] writes the field that [this] reads. *)
Hypothesis this_written : forall E w, this (set_this E w) = E.

Lemma allocated_once : forall m p w,
  allocated (this w) -> allocated (this (after (once m p) w)).
Proof.
  intros m p w [Hnd Hlt]. unfold after, Expectations.once, modify. simpl.
  rewrite this_written. unfold allocated. simpl. split.
  - rewrite map_app. simpl.
    apply NoDup_app; [exact Hnd | repeat constructor; intros [] |].
    intros x Hx [<-|[]].
    apply in_map_iff in Hx. destruct Hx as (exp & Hr & Hin).
    specialize (Hlt exp Hin). lia.
  - intros exp Hin. apply in_app_or in Hin. destruct Hin as [Hin|[<-|[]]].
    + specialize (Hlt exp Hin). lia.
    + simpl. lia.
Qed.

(** X1.  An expectation registered with [once] takes the next message it
    accepts, provided no entry registered before it accepts that message:
    its handler runs, and the once-list the handler finds is the list as
    it was before the registration. *)
Theorem once_then_exec : forall m p msg w,
  allocated (this w) ->
  unmatched msg (expectationsOnce (this w)) ->
  call_match m msg = true ->
  exec msg (after (once m p) w)
  = (call_process p msg ;; ret true)
      (set_this (mkExpectations (expectationsOnce (this w))
                                (expectationsWhenever (this w))
                                (S (nextRef (this w))))
                (after (once m p) w)).
Proof.
  intros m p msg w Hal Hnone Hm.
  pose proof (allocated_once m p w Hal) as [Hnd _].
  pose proof (ExpectationsFacts.exec_once_matched _ _ _ _ call_match call_process
                this set_this msg (after (once m p) w)
                (expectationsOnce (this w)) []
                (mkExpectation (nextRef (this w)) m p) Hnd) as E.
  unfold after, Expectations.once, modify in *. simpl in *.
  rewrite this_written in *. simpl in E.
  rewrite E; auto.
  now rewrite app_nil_r.
Qed.

(** X2.  An expectation registered with [whenever] takes the next message
    it accepts, provided no entry of either list registered before it
    accepts that message: its handler runs in the world that still holds
    the entry. *)
Theorem whenever_then_exec : forall m p msg w,
  unmatched msg (expectationsOnce (this w)) ->
  unmatched msg (expectationsWhenever (this w)) ->
  call_match m msg = true ->
  exec msg (after (whenever m p) w)
  = (call_process p msg ;; ret true) (after (whenever m p) w)
  /\ In (mkExpectation (nextRef (this w)) m p)
        (expectationsWhenever (this (after (whenever m p) w))).
Proof.
  intros m p msg w Honce Hwhen Hm.
  pose proof (ExpectationsFacts.exec_whenever_matched _ _ _ _ call_match call_process
                this set_this msg (after (whenever m p) w)
                (expectationsWhenever (this w)) []
                (mkExpectation (nextRef (this w)) m p)) as E.
  unfold after, Expectations.whenever, modify in *. simpl in *.
  rewrite this_written in *. simpl in *.
  split; [apply E; auto|].
  apply in_or_app. right. now left.
Qed.

End Laws.

End RegistryLaws.

(** ** What every operation keeps *)

Module Kept.

Import Expectations BfxApi Session Subscriptions.

Section Relation.

Variable JSON_parse : string -> option JSON.
Variable JSON_stringify : JSON -> string.
Variable allowedVersions : list JSON.

Abbreviation send := (send JSON_stringify).
Abbreviation call_action := (call_action JSON_stringify).
Abbreviation resume := (resume JSON_stringify).
Abbreviation handleMessage := (handleMessage JSON_parse JSON_stringify allowedVersions).
Abbreviation subscribe := (subscribe JSON_stringify).
Abbreviation step := (step JSON_parse JSON_stringify allowedVersions).
Abbreviation run := (run JSON_parse JSON_stringify allowedVersions).

(** A relation between the world before and the world after that holds
    across each of the writes the methods are made of. *)
Variable R : State -> State -> Prop.

Hypothesis R_refl : forall s, R s s.
Hypothesis R_trans : forall s1 s2 s3, R s1 s2 -> R s2 s3 -> R s1 s3.
Hypothesis R_events : forall e s, R s (set_events (events s ++ [e]) s).
Hypothesis R_ws : forall o s, R s (set_ws o s).
Hypothesis R_sockets : forall n s, R s (set_sockets n s).
Hypothesis R_promise : forall s, R s (set_promises (promises s ++ [Pending]) s).
Hypothesis R_settle : forall p o s, R s (set_promises (settle_at p o (promises s)) s).
Hypothesis R_counter : forall s, R s (set_pingCounter (increment (pingCounter s)) s).
Hypothesis R_paused : forall b s, R s (set_paused b s).
Hypothesis R_push : forall a s, R s (set_resumeStack (resumeStack s ++ [a]) s).
Hypothesis R_clear : forall s, R s (set_resumeStack [] s).
Hypothesis R_once : forall m p s, R s (after (once expectations set_expectations m p) s).
Hypothesis R_whenever : forall m p s,
  R s (after (whenever expectations set_expectations m p) s).
Hypothesis R_taken : forall g s,
  R s (set_expectations
         (with_once (filter g (expectationsOnce (expectations s))) (expectations s)) s).

Lemma keeps_ret : forall (A : Type) (a : A), keeps R (ret a).
Proof. intros A a s. apply R_refl. Qed.

Lemma keeps_throw : forall (A : Type) (e : JSError), keeps R (throw (A := A) e).
Proof. intros A e s. apply R_refl. Qed.

Lemma keeps_bind : forall (A B : Type) (c : JS State A) (k : A -> JS State B),
  keeps R c -> (forall a, keeps R (k a)) -> keeps R (bind c k).
Proof.
  intros A B c k Hc Hk s. specialize (Hc s).
  unfold after, bind in *.
  destruct (c s) as [[a|e] s']; simpl in *; [|exact Hc].
  exact (R_trans _ _ _ Hc (Hk a s')).
Qed.

Lemma keeps_emit : forall e, keeps R (emit e).
Proof. intros e s. apply R_events. Qed.

Lemma keeps_ws_close : keeps R ws_close.
Proof.
  intros s. unfold after, ws_close.
  destruct (ws s) as [w|]; [|apply R_refl].
  apply (keeps_bind _ _ (emit (Closed (socket w))) _).
  - apply keeps_emit.
  - intros _ s'. apply R_ws.
Qed.

Lemma keeps_send : forall data, keeps R (send data).
Proof.
  intros data s. unfold after.
  destruct (BfxApiFacts.deferring_or_open s) as [Hgate|(Hp & w & Hw & Hr)].
  - rewrite (BfxApiFacts.send_deferred JSON_stringify data s Hgate). apply R_push.
  - rewrite (BfxApiFacts.send_transmitted JSON_stringify data s w Hp Hw Hr).
    apply R_events.
Qed.

Lemma keeps_call_process : forall p msg, keeps R (call_process allowedVersions p msg).
Proof.
  intros [| |promise|callback promise|callback|] msg; simpl.
  - apply keeps_bind; [apply keeps_emit | intros _].
    destruct (negb _); [|apply keeps_ret].
    apply keeps_bind; [apply keeps_emit | intros _].
    apply keeps_bind; [apply keeps_emit | intros _; apply keeps_ws_close].
  - apply keeps_emit.
  - intros s. apply R_settle.
  - apply keeps_bind; [intros s; apply R_whenever | intros _].
    apply keeps_bind; [intros s; apply R_whenever | intros _].
    intros s. apply R_settle.
  - apply keeps_emit.
  - destruct msg; try apply keeps_throw; apply keeps_emit.
Qed.

Lemma keeps_exec : forall msg, keeps R (exec allowedVersions msg).
Proof.
  intros msg.
  apply keeps_bind.
  - intros s. unfold after, Expectations.execOne.
    destruct (find _ _) as [exp|]; [|apply R_refl].
    match goal with
    | |- context [(?c ;; ret true) ?x] =>
        assert (Hk : keeps R (c ;; ret true))
          by (apply keeps_bind; [apply keeps_call_process | intros _; apply keeps_ret]);
        apply (R_trans _ x _); [apply R_taken | apply (Hk x)]
    end.
  - intros [|]; [apply keeps_ret|].
    intros s. unfold after, Expectations.execWhenever.
    destruct (findIndex _ _) as [i|]; [|apply R_refl].
    destruct (nth_error _ _) as [exp|]; [|apply R_refl].
    apply (keeps_bind _ _ (call_process allowedVersions (process exp) msg)).
    + apply keeps_call_process.
    + intros _. apply keeps_ret.
Qed.

Lemma keeps_call_each : forall queue,
  keeps R (ActionsStack.call_each call_action queue).
Proof.
  induction queue as [|[data] queue IH]; simpl.
  - apply keeps_ret.
  - apply keeps_bind; [apply keeps_send | intros _; exact IH].
Qed.

Lemma keeps_resume : keeps R resume.
Proof.
  apply keeps_bind; [apply keeps_emit | intros _].
  apply keeps_bind; [intros s; apply R_paused | intros _].
  intros s. unfold after. rewrite (BfxApiFacts.fire_is_call_each JSON_stringify).
  apply (keeps_bind _ _ (ActionsStack.call_each call_action (resumeStack s)) _).
  - apply keeps_call_each.
  - intros _ s'. apply R_clear.
Qed.

Lemma keeps_connect : keeps R connect.
Proof.
  apply keeps_bind; [apply keeps_emit | intros _].
  apply keeps_bind; [intros s; apply R_once | intros _].
  intros s.
  apply (keeps_bind _ _ (emit (Constructed (sockets s) (url s))) _).
  - apply keeps_emit.
  - intros _. apply keeps_bind; [intros s'; apply R_ws | intros _].
    intros s'. apply R_sockets.
Qed.

Lemma keeps_close : keeps R close.
Proof.
  apply keeps_bind; [apply keeps_emit | intros _; apply keeps_ws_close].
Qed.

Lemma keeps_handleMessage : forall data, keeps R (handleMessage data).
Proof.
  intros data. unfold BfxApi.handleMessage.
  destruct (JSON_parse data) as [msg|]; [|apply keeps_throw].
  assert (Hbody : keeps R (consumed <- exec allowedVersions msg ;;
                           if consumed then ret tt
                           else if strict_eq (prop msg "event") (Some (JStr "info"))
                                then processMsgInfo JSON_stringify msg
                                else debug "unprocessed message" [Some msg])).
  { apply keeps_bind; [apply keeps_exec | intros [|]; [apply keeps_ret|]].
    destruct (strict_eq (prop msg "event") _); [|apply keeps_emit].
    apply keeps_bind; [apply keeps_emit | intros _].
    destruct (strict_eq (prop msg "code") (Some (JNum 20051))).
    { apply keeps_bind; [apply keeps_emit | intros _].
      apply keeps_bind; [apply keeps_close | intros _; apply keeps_connect]. }
    destruct (strict_eq (prop msg "code") (Some (JNum 20060))).
    { apply keeps_bind; [apply keeps_emit | intros _]. intros s. apply R_paused. }
    destruct (strict_eq (prop msg "code") (Some (JNum 20061))).
    { apply keeps_resume. }
    apply keeps_emit. }
  destruct msg; try exact Hbody. apply keeps_throw.
Qed.

Lemma keeps_subscribe : forall channel pair' params callback,
  keeps R (subscribe channel pair' params callback).
Proof.
  intros channel pair' params callback.
  apply keeps_bind; [intros s; apply R_promise | intros p].
  destruct callback as [f|v].
  - apply keeps_bind; [intros s; apply R_once | intros _].
    apply keeps_bind; [apply keeps_send | intros _; apply keeps_ret].
  - apply keeps_bind; [intros s; apply R_settle | intros _; apply keeps_ret].
Qed.

Lemma keeps_step : forall s op, R s (step s op).
Proof.
  intros s op. destruct op; simpl.
  - apply keeps_connect.
  - apply keeps_close.
  - apply (keeps_emit (Logged LOG "auth not implemented" [])).
  - unfold after, ping, bind at 1, modify at 1.
    apply (R_trans _ (set_pingCounter (increment (pingCounter s)) s) _); [apply R_counter|].
    assert (Hk : keeps R (once expectations set_expectations
                               (MatchPong (increment (pingCounter s))) LogPong ;;
                          send (JObj [("cid", JNum (increment (pingCounter s)));
                                      ("event", JStr "ping")])))
      by (apply keeps_bind; [intros s'; apply R_once | intros _; apply keeps_send]).
    apply Hk.
  - apply keeps_subscribe.
  - revert s. apply keeps_bind; [apply keeps_send | intros _].
    apply keeps_bind; [intros s; apply R_promise | intros p].
    apply keeps_bind; [intros s; apply R_once | intros _; apply keeps_ret].
  - apply keeps_send.
  - apply keeps_handleMessage.
  - apply keeps_resume.
  - unfold transport. destruct (ws s); [apply R_ws | apply R_refl].
Qed.

Lemma keeps_run : forall ops s, R s (run ops s).
Proof.
  unfold Session.run.
  induction ops as [|op ops IH]; intros s; simpl; [apply R_refl|].
  exact (R_trans _ _ _ (keeps_step s op) (IH _)).
Qed.

End Relation.

End Kept.

(** ** The controller *)

Module ControllerLaws.

Import Expectations BfxApi Session Scenario Subscriptions.

Section Laws.

Variable JSON_parse : string -> option JSON.
Variable JSON_stringify : JSON -> string.
Variable allowedVersions : list JSON.

Abbreviation send := (send JSON_stringify).
Abbreviation call_action := (call_action JSON_stringify).
Abbreviation resume := (resume JSON_stringify).
Abbreviation on_the_wire := (on_the_wire JSON_stringify).
Abbreviation handleMessage := (handleMessage JSON_parse JSON_stringify allowedVersions).
Abbreviation subscribe := (subscribe JSON_stringify).
Abbreviation unsubscribe := (unsubscribe JSON_stringify).
Abbreviation ping := (ping JSON_stringify).
Abbreviation exec := (exec allowedVersions).
Abbreviation step := (step JSON_parse JSON_stringify allowedVersions).
Abbreviation run := (run JSON_parse JSON_stringify allowedVersions).
Abbreviation unmatched := (none_matching (ProcessFunc := ProcessFunc) call_match).

(** *** Persistent expectations persist *)

(** X3.  Nothing that is called on a controller or delivered to it ever
    removes or reorders a whenever-expectation: after any sequence of
    operations the whenever-list is the list as it was, followed by what
    was registered since. *)
Theorem whenever_never_removed : forall ops s,
  whenever_extended s (run ops s).
Proof.
  intros ops s.
  apply (Kept.keeps_run JSON_parse JSON_stringify allowedVersions whenever_extended);
    unfold whenever_extended.
  - intros x. exists []. now rewrite app_nil_r.
  - intros s1 s2 s3 [a Ha] [b Hb]. exists (a ++ b). now rewrite Hb, Ha, app_assoc.
  - intros e x. exists []. simpl. now rewrite app_nil_r.
  - intros o x. exists []. simpl. now rewrite app_nil_r.
  - intros n x. exists []. simpl. now rewrite app_nil_r.
  - intros x. exists []. simpl. now rewrite app_nil_r.
  - intros p o x. exists []. simpl. now rewrite app_nil_r.
  - intros x. exists []. simpl. now rewrite app_nil_r.
  - intros b x. exists []. simpl. now rewrite app_nil_r.
  - intros a x. exists []. simpl. now rewrite app_nil_r.
  - intros x. exists []. simpl. now rewrite app_nil_r.
  - intros m p x. exists []. simpl. now rewrite app_nil_r.
  - intros m p x. eexists. simpl. reflexivity.
  - intros g x. exists []. simpl. now rewrite app_nil_r.
Qed.

(** *** ping *)

Lemma ping_registers : forall s,
  exists s1,
    ping s = (Normal tt, s1)
    /\ pingCounter s1 = (increment (pingCounter s))
    /\ expectations s1
       = mkExpectations
           (expectationsOnce (expectations s)
            ++ [mkExpectation (nextRef (expectations s))
                              (MatchPong (increment (pingCounter s))) LogPong])
           (expectationsWhenever (expectations s))
           (S (nextRef (expectations s)))
    /\ promises s1 = promises s.
Proof.
  intros s. unfold BfxApi.ping, bind at 1, modify at 1.
  unfold bind at 1, once, modify.
  match goal with
  | |- context [send ?d ?x] =>
      destruct (BfxApiFacts.deferring_or_open x) as [Hgate|(Hp & w & Hw & Hr)];
      [ rewrite (BfxApiFacts.send_deferred JSON_stringify d x Hgate)
      | rewrite (BfxApiFacts.send_transmitted JSON_stringify d x w Hp Hw Hr) ]
  end; eexists; repeat split.
Qed.

Lemma increment_bounds : forall n,
  (n <= increment n <= Z.max n (2 ^ 53))%Z
  /\ ((n < 2 ^ 53)%Z -> increment n = (n + 1)%Z)
  /\ ((2 ^ 53 <= n)%Z -> increment n = n).
Proof.
  intros n. unfold increment.
  destruct (Z.ltb_spec n (2 ^ 53)); lia.
Qed.

Lemma counter_kept : forall ops s, counter_not_lower s (run ops s).
Proof.
  intros ops s.
  apply (Kept.keeps_run JSON_parse JSON_stringify allowedVersions counter_not_lower);
    unfold counter_not_lower; intros; simpl;
    unfold increment;
    repeat match goal with
           | |- context [(?a <? ?b)%Z] => destruct (Z.ltb_spec a b)
           end; lia.
Qed.

Lemma counter_stays_capped : forall ops s, counter_capped s (run ops s).
Proof.
  intros ops s.
  apply (Kept.keeps_run JSON_parse JSON_stringify allowedVersions counter_capped);
    unfold counter_capped; intros; simpl;
    unfold increment;
    repeat match goal with
           | |- context [(?a <? ?b)%Z] => destruct (Z.ltb_spec a b)
           end; lia.
Qed.

(** The counter of a controller counts pings, up to 2^53: it stays in
    the range on which [increment] is the [++] of doubles. *)
Lemma counter_in_range : forall bfxAPI url ops,
  (0 <= pingCounter (run ops (constructor bfxAPI url)) <= 2 ^ 53)%Z.
Proof.
  intros bfxAPI url ops.
  pose proof (counter_kept ops (constructor bfxAPI url)) as Hle.
  pose proof (counter_stays_capped ops (constructor bfxAPI url)) as Hcap.
  unfold counter_not_lower in Hle. unfold counter_capped in Hcap.
  simpl pingCounter in Hle, Hcap at 2. lia.
Qed.

(** X4.  Correlation ids are not reused as long as the counter is below
    2^53: the pong expectation registered by a [ping] carries an id that
    is strictly greater than the id of any [ping] made before it,
    whatever happened in between.  The counter is a double: once it has
    reached 2^53 it stays there, and every further [ping] carries that
    same id. *)
Theorem ping_ids_increase : forall s ops,
  (0 <= pingCounter s <= 2 ^ 53)%Z ->
  exists cid cid',
    last (map (@matchf _ _) (expectationsOnce (expectations (step s Ping))))
         MatchVersion = MatchPong cid
    /\ last (map (@matchf _ _)
                 (expectationsOnce
                    (expectations (step (run (Ping :: ops) s) Ping))))
            MatchVersion = MatchPong cid'
    /\ (cid <= cid')%Z
    /\ ((pingCounter (run (Ping :: ops) s) < 2 ^ 53)%Z -> (cid < cid')%Z)
    /\ (pingCounter s = (2 ^ 53)%Z -> cid = (2 ^ 53)%Z /\ cid' = (2 ^ 53)%Z).
Proof.
  intros s ops Hrange.
  exists (increment (pingCounter s)),
         (increment (pingCounter (run (Ping :: ops) s))).
  assert (Hlast : forall x,
             last (map (@matchf _ _) (expectationsOnce (expectations (step x Ping))))
                  MatchVersion = MatchPong (increment (pingCounter x))).
  { intros x. simpl. unfold after.
    destruct (ping_registers x) as (x1 & E & _ & He & _).
    rewrite E. simpl. rewrite He. simpl.
    rewrite map_app. simpl. apply last_last. }
  split; [apply Hlast|]. split; [apply Hlast|].
  pose proof (counter_kept ops (step s Ping)) as Hle.
  pose proof (counter_stays_capped ops (step s Ping)) as Hcap.
  unfold counter_not_lower in Hle. unfold counter_capped in Hcap.
  assert (Hc : pingCounter (step s Ping) = (increment (pingCounter s))).
  { simpl. unfold after. destruct (ping_registers s) as (x1 & E & Hc & _).
    now rewrite E. }
  change (run (Ping :: ops) s) with (run ops (step s Ping)).
  rewrite Hc in Hle, Hcap.
  pose proof (increment_bounds (pingCounter s)) as Hs.
  pose proof (increment_bounds (pingCounter (run ops (step s Ping)))) as Hr.
  repeat split; lia.
Qed.

Lemma allocated_filter_last : forall (l : list (Expectation MatchFunc ProcessFunc)) n m p,
  (forall exp, In exp l -> ref exp < n) ->
  filter (fun x => negb (same_object x (mkExpectation n m p)))
         (l ++ [mkExpectation n m p]) = l.
Proof.
  intros l n m p Hlt. rewrite filter_app. simpl.
  unfold same_object at 2. simpl. rewrite Nat.eqb_refl. simpl. rewrite app_nil_r.
  induction l as [|a l IH]; simpl; [reflexivity|].
  unfold same_object at 1. simpl.
  destruct (Nat.eqb_spec (ref a) n) as [E|E].
  - specialize (Hlt a (or_introl eq_refl)). lia.
  - simpl. f_equal. apply IH. intros exp Hin. apply Hlt. now right.
Qed.

Lemma last_registered_found : forall msg (l : list (Expectation MatchFunc ProcessFunc)) exp,
  unmatched msg l ->
  call_match (matchf exp) msg = true ->
  find (matching call_match msg) (l ++ [exp]) = Some exp.
Proof.
  intros msg l exp Hnone Hm.
  rewrite find_after_unmatched by exact Hnone.
  simpl. unfold matching at 1. now rewrite Hm.
Qed.

(** X5.  A [ping] and its pong.  When no once-expectation registered
    earlier accepts the pong that carries the id of the ping, dispatching
    that pong is consumed by the expectation the ping registered, logs the
    [ts] of the pong, and leaves the once-list as it was before the ping;
    the same pong dispatched again is left unconsumed, as long as no
    whenever-expectation accepts it. *)
Theorem ping_pong_round_trip : forall s pong,
  allocated (expectations s) ->
  strict_eq (prop pong "event") (Some (JStr "pong")) = true ->
  strict_eq (prop pong "cid") (Some (JNum (increment (pingCounter s)))) = true ->
  unmatched pong (expectationsOnce (expectations s)) ->
  let s1 := after ping s in
  let s2 := after (exec pong) s1 in
  result (exec pong) s1 = Normal true
  /\ events s2 = events s1 ++ [Logged LOG "proper ping/pong, ts is" [prop pong "ts"]]
  /\ expectationsOnce (expectations s2) = expectationsOnce (expectations s)
  /\ (unmatched pong (expectationsWhenever (expectations s)) ->
      exec pong s2 = (Normal false, s2)).
Proof.
  intros s pong [Hnd Hlt] Hev Hcid Hnone s1 s2.
  destruct (ping_registers s) as (x1 & E & _ & He & _).
  assert (Hs1 : s1 = x1) by (unfold s1, after; now rewrite E).
  rewrite <- Hs1 in He. clear Hs1 E x1.
  set (mine := mkExpectation (nextRef (expectations s))
                             (MatchPong (increment (pingCounter s))) LogPong) in He.
  assert (Hm : call_match (matchf mine) pong = true).
  { simpl. now rewrite Hev, Hcid. }
  assert (Hfind : find (matching call_match pong)
                       (expectationsOnce (expectations s1)) = Some mine).
  { rewrite He. simpl. now apply last_registered_found. }
  assert (E2 : exec pong s1
               = (Normal true,
                  set_events
                    (events s1 ++ [Logged LOG "proper ping/pong, ts is" [prop pong "ts"]])
                    (set_expectations
                       (with_once (expectationsOnce (expectations s)) (expectations s1))
                       s1))).
  { unfold BfxApi.exec.
    rewrite (ExpectationsFacts.exec_once_found _ _ _ _ call_match
               (call_process allowedVersions) expectations set_expectations
               pong s1 mine Hfind).
    rewrite He. simpl expectationsOnce.
    unfold mine at 1 2. rewrite allocated_filter_last by exact Hlt.
    reflexivity. }
  assert (Hs2 : s2 = snd (exec pong s1)) by reflexivity.
  clearbody s2. unfold result. rewrite E2 in *. simpl in Hs2. subst s2. simpl.
  repeat split.
  intros Hwhen.
  unfold BfxApi.exec.
  rewrite (ExpectationsFacts.exec_once_unmatched _ _ _ _ call_match
             (call_process allowedVersions) expectations set_expectations).
  - apply (ExpectationsFacts.execWhenever_unmatched _ _ _ _ call_match
             (call_process allowedVersions) expectations).
    simpl. rewrite He. exact Hwhen.
  - exact Hnone.
Qed.

(** *** unsubscribe *)

Lemma unsubscribe_registers : forall chanId s,
  exists s1,
    unsubscribe chanId s = (Normal (List.length (promises s)), s1)
    /\ expectations s1
       = mkExpectations
           (expectationsOnce (expectations s)
            ++ [mkExpectation (nextRef (expectations s))
                              (MatchUnsubscribed chanId)
                              (ResolveUnsubscribed (List.length (promises s)))])
           (expectationsWhenever (expectations s))
           (S (nextRef (expectations s)))
    /\ promises s1 = promises s ++ [Pending].
Proof.
  intros chanId s. unfold BfxApi.unsubscribe, bind at 1.
  match goal with
  | |- context [send ?d ?x] =>
      destruct (BfxApiFacts.deferring_or_open x) as [Hgate|(Hp & w & Hw & Hr)];
      [ rewrite (BfxApiFacts.send_deferred JSON_stringify d x Hgate)
      | rewrite (BfxApiFacts.send_transmitted JSON_stringify d x w Hp Hw Hr) ]
  end; eexists; repeat split.
Qed.

(** X6.  [unsubscribe] and its acknowledgment.  When no once-expectation
    registered earlier accepts the message [{event:'unsubscribed', chanId}]
    for the channel asked for, dispatching it resolves the promise that
    [unsubscribe] returned with that message and leaves the once-list as it
    was before the call.  The whenever-list is what it was: the two
    handlers of the channel stay registered. *)
Theorem unsubscribe_acknowledged : forall s chanId ack,
  allocated (expectations s) ->
  strict_eq (prop ack "event") (Some (JStr "unsubscribed")) = true ->
  strict_eq (prop ack "chanId") (Some (JNum chanId)) = true ->
  unmatched ack (expectationsOnce (expectations s)) ->
  let promise := List.length (promises s) in
  let s1 := after (unsubscribe chanId) s in
  let s2 := after (exec ack) s1 in
  result (unsubscribe chanId) s = Normal promise
  /\ nth_error (promises s1) promise = Some Pending
  /\ result (exec ack) s1 = Normal true
  /\ nth_error (promises s2) promise = Some (Resolved ack)
  /\ expectationsOnce (expectations s2) = expectationsOnce (expectations s)
  /\ expectationsWhenever (expectations s2) = expectationsWhenever (expectations s).
Proof.
  intros s chanId ack [Hnd Hlt] Hev Hid Hnone promise s1 s2.
  destruct (unsubscribe_registers chanId s) as (x1 & E & He & Hp).
  assert (Hs1 : s1 = x1) by (unfold s1, after; now rewrite E).
  rewrite <- Hs1 in He, Hp.
  set (mine := mkExpectation (nextRef (expectations s))
                             (MatchUnsubscribed chanId)
                             (ResolveUnsubscribed promise)) in He.
  assert (Hm : call_match (matchf mine) ack = true).
  { simpl. now rewrite Hev, Hid. }
  assert (Hfind : find (matching call_match ack)
                       (expectationsOnce (expectations s1)) = Some mine).
  { rewrite He. simpl. now apply last_registered_found. }
  assert (E2 : exec ack s1
               = (Normal true,
                  set_promises
                    (promises s ++ [Resolved ack])
                    (set_expectations
                       (with_once (expectationsOnce (expectations s)) (expectations s1))
                       s1))).
  { unfold BfxApi.exec.
    rewrite (ExpectationsFacts.exec_once_found _ _ _ _ call_match
               (call_process allowedVersions) expectations set_expectations
               ack s1 mine Hfind).
    rewrite He. simpl expectationsOnce.
    unfold mine at 1 2. rewrite allocated_filter_last by exact Hlt.
    unfold bind, call_process, resolve, modify, ret. simpl.
    rewrite Hp. unfold promise. now rewrite BfxApiFacts.settle_at_last. }
  assert (Hs2 : s2 = snd (exec ack s1)) by reflexivity.
  clearbody s2. unfold result. rewrite E, E2 in *. simpl in Hs2. subst s2. simpl.
  repeat split.
  - rewrite Hp. apply BfxApiFacts.nth_error_last.
  - apply BfxApiFacts.nth_error_last.
  - now rewrite He.
Qed.

(** *** A subscribed channel *)

(** X7.  Routing on a subscribed channel.  With the two entries that
    [subscribe] registers for a channel next to each other in the
    whenever-list, an array message whose first element is the channel id,
    and that no once-expectation and no earlier whenever-expectation
    accepts, is always consumed: it goes to the heartbeat handler when its
    second element is the string ['hb'], and to the caller's callback, with
    the message as argument, in every other case. *)
Theorem channel_routing : forall s chanId f r r' before rest items,
  unmatched (JArr items) (expectationsOnce (expectations s)) ->
  expectationsWhenever (expectations s)
  = before ++ snapshots r chanId f :: heartbeats r' chanId :: rest ->
  unmatched (JArr items) before ->
  strict_eq (nth_error items 0) chanId = true ->
  exec (JArr items) s
  = (Normal true,
     set_events
       (events s
        ++ [if strict_eq (nth_error items 1) hb
            then Logged DEBUG "Heartbeating" [nth_error items 0]
            else Called f (JArr items)])
       s).
Proof.
  intros s chanId f r r' before rest items Honce Hsplit Hbefore Hid.
  unfold BfxApi.exec.
  destruct (strict_eq (nth_error items 1) hb) eqn:Hhb.
  - rewrite (ExpectationsFacts.exec_whenever_matched _ _ _ _ call_match
               (call_process allowedVersions) expectations set_expectations
               (JArr items) s (before ++ [snapshots r chanId f]) rest
               (heartbeats r' chanId)).
    + reflexivity.
    + exact Honce.
    + rewrite Hsplit, <- app_assoc. reflexivity.
    + apply BfxApiFacts.app_unmatched; [exact Hbefore|].
      apply BfxApiFacts.one_unmatched.
      unfold snapshots; cbn [matchf call_match index]. now rewrite Hid, Hhb.
    + unfold heartbeats, snapshots; cbn [matchf call_match index]. now rewrite Hid, Hhb.
  - rewrite (ExpectationsFacts.exec_whenever_matched _ _ _ _ call_match
               (call_process allowedVersions) expectations set_expectations
               (JArr items) s before (heartbeats r' chanId :: rest)
               (snapshots r chanId f)).
    + reflexivity.
    + exact Honce.
    + exact Hsplit.
    + exact Hbefore.
    + unfold heartbeats, snapshots; cbn [matchf call_match index]. now rewrite Hid, Hhb.
Qed.

(** *** What a dispatch does to the once-list *)

Lemma call_process_once_list : forall p msg s,
  expectationsOnce (expectations (after (call_process allowedVersions p msg) s))
  = expectationsOnce (expectations s).
Proof.
  intros p msg s.
  symmetry.
  apply (Kept.keeps_call_process allowedVersions
           (fun x y => expectationsOnce (expectations x)
                       = expectationsOnce (expectations y)));
    intros; simpl; congruence.
Qed.

(** X8.  A dispatch takes at most one once-expectation, and the handlers
    of the controller register none: after [exec] the once-list is either
    the list as it was, when no entry accepts the message, or the list
    without the first entry that accepts it, the other entries in their
    order. *)
Theorem exec_takes_at_most_one : forall msg s,
  allocated (expectations s) ->
  (unmatched msg (expectationsOnce (expectations s))
   /\ expectationsOnce (expectations (after (exec msg) s))
      = expectationsOnce (expectations s))
  \/ (exists before exp rest,
        expectationsOnce (expectations s) = before ++ exp :: rest
        /\ unmatched msg before
        /\ call_match (matchf exp) msg = true
        /\ expectationsOnce (expectations (after (exec msg) s)) = before ++ rest).
Proof.
  intros msg s [Hnd _].
  destruct (ExpectationsFacts.find_or_not _ _ (matching call_match msg)
              (expectationsOnce (expectations s))) as [[exp Hfind]|Hnone].
  - right.
    destruct (find_first _ _ _ _ Hfind) as (before & rest & Hsplit & Hbefore & Hexp).
    exists before, exp, rest. repeat split; auto.
    unfold after, BfxApi.exec.
    rewrite (ExpectationsFacts.exec_once_matched _ _ _ _ call_match
               (call_process allowedVersions) expectations set_expectations
               msg s before rest exp Hnd Hsplit Hbefore Hexp).
    unfold bind.
    match goal with
    | |- context [call_process allowedVersions ?p ?m ?x] =>
        pose proof (call_process_once_list p m x) as Hk; unfold after in Hk;
        destruct (call_process allowedVersions p m x) as [[[]|e] s']
    end; simpl in *; exact Hk.
  - left. split; [exact Hnone|].
    unfold after, BfxApi.exec.
    rewrite (ExpectationsFacts.exec_once_unmatched _ _ _ _ call_match
               (call_process allowedVersions) expectations set_expectations _ _ Hnone).
    unfold Expectations.execWhenever.
    destruct (findIndex _ _) as [i|]; [|reflexivity].
    destruct (nth_error _ _) as [exp|]; [|reflexivity].
    unfold bind.
    match goal with
    | |- context [call_process allowedVersions ?p ?m ?x] =>
        pose proof (call_process_once_list p m x) as Hk; unfold after in Hk;
        destruct (call_process allowedVersions p m x) as [[[]|e] s']
    end; simpl in *; exact Hk.
Qed.

(** *** The version check *)

(** X9.  The version check armed by [connect].  An info message that
    carries a version and is taken by a version check is consumed whatever
    else it carries: its code, if any, is not acted on, so the pause flag
    and the queue are what they were.  When the version is one of the
    allowed versions the transport is left alone; when it is not, two
    errors are logged and the transport is closed. *)
Theorem version_checked : forall data msg s w before exp rest,
  JSON_parse data = Some msg ->
  ws s = Some w ->
  allocated (expectations s) ->
  expectationsOnce (expectations s) = before ++ exp :: rest ->
  unmatched msg before ->
  matchf exp = MatchVersion ->
  process exp = CheckVersion ->
  call_match MatchVersion msg = true ->
  let s' := after (handleMessage data) s in
  result (handleMessage data) s = Normal tt
  /\ expectationsOnce (expectations s') = before ++ rest
  /\ paused s' = paused s
  /\ resumeStack s' = resumeStack s
  /\ (indexOf allowedVersions (prop msg "version") = true ->
      ws s' = Some w
      /\ events s' = events s ++ [Logged DEBUG "msg.version" [prop msg "version"]])
  /\ (indexOf allowedVersions (prop msg "version") = false ->
      ws s' = Some (mkWebSocket (socket w) (closing (readyState w)))
      /\ events s'
         = events s
           ++ [Logged DEBUG "msg.version" [prop msg "version"];
               Logged ERROR "unexpected version" [prop msg "version"];
               Logged ERROR "closing socket" [];
               Closed (socket w)]).
Proof.
  intros data msg s w before exp rest Hparse Hw [Hnd _] Hsplit Hbefore Hmf Hpf Hm s'.
  assert (Hexp : call_match (matchf exp) msg = true) by now rewrite Hmf.
  assert (Hs' : s' = snd (handleMessage data s)) by reflexivity.
  clearbody s'. unfold result.
  unfold BfxApi.handleMessage in *. rewrite Hparse in *.
  assert (Hobj : exists props, msg = JObj props).
  { destruct msg; simpl in Hm; try discriminate. now eexists. }
  destruct Hobj as [props ->].
  unfold bind at 1 in Hs'. unfold bind at 1. unfold BfxApi.exec in *.
  rewrite (ExpectationsFacts.exec_once_matched _ _ _ _ call_match
             (call_process allowedVersions) expectations set_expectations
             _ s before rest exp Hnd Hsplit Hbefore Hexp) in *.
  rewrite Hpf in *.
  unfold call_process, bind, debug, error, emit, modify, ret, ws_close in *.
  simpl in *.
  destruct (indexOf allowedVersions (lookup "version" props)) eqn:Hallowed;
    simpl in *.
  - subst s'. simpl. repeat split; auto; try discriminate.
  - rewrite Hw in *. simpl in *. subst s'. simpl.
    repeat split; auto; try discriminate.
    now rewrite <- !app_assoc.
Qed.

(** *** Before the first connect *)

(** X10.  On a controller that has no transport yet, [close] and [restart]
    throw a TypeError after their log lines and do nothing else; [restart]
    does not reach [connect], so no socket is constructed and no version
    check is registered. *)
Theorem no_transport_no_restart : forall s,
  ws s = None ->
  close s
  = (Throw TypeError, set_events (events s ++ [Logged LOG "closing socket" []]) s)
  /\ restart s
     = (Throw TypeError,
        set_events (events s ++ [Logged DEBUG "restart" []; Logged LOG "closing socket" []]) s).
Proof.
  intros s Hw.
  unfold restart, close, ws_close, debug, log, emit, modify, bind. simpl.
  rewrite Hw. simpl. rewrite <- app_assoc. split; reflexivity.
Qed.

(** *** Sends on an open, unpaused controller *)

(** X11.  While the controller is not paused and its transport is open,
    payloads handed to [send] reach the transport at once, in call order,
    strings as they are and other values serialized; the queue is not
    touched. *)
Theorem open_sends_transmitted : forall payloads s w,
  paused s = false ->
  ws s = Some w ->
  readyState w = OPEN ->
  sends JSON_stringify payloads s
  = set_events (events s ++ map (fun data => Sent (socket w) (on_the_wire data)) payloads) s
  /\ transmitted (sends JSON_stringify payloads s)
     = transmitted s ++ map on_the_wire payloads
  /\ resumeStack (sends JSON_stringify payloads s) = resumeStack s.
Proof.
  intros payloads s w Hp Hw Hr.
  assert (E : sends JSON_stringify payloads s
              = set_events
                  (events s ++ map (fun data => Sent (socket w) (on_the_wire data)) payloads)
                  s).
  { revert s Hp Hw. unfold sends, after.
    induction payloads as [|data payloads IH]; intros s Hp Hw; simpl.
    - rewrite app_nil_r. now destruct s.
    - rewrite (BfxApiFacts.send_transmitted JSON_stringify data s w Hp Hw Hr). simpl.
      rewrite IH by assumption. simpl. now rewrite <- app_assoc. }
  rewrite E. unfold transmitted. simpl. repeat split.
  rewrite BfxApiFacts.transmitted_in_app.
  now rewrite (BfxApiFacts.transmitted_in_sent JSON (socket w) on_the_wire).
Qed.

(** *** resume while the transport is not open *)

Lemma sends_deferred : forall payloads s,
  deferring s ->
  sends JSON_stringify payloads s
  = set_resumeStack (resumeStack s ++ map SendBound payloads) s.
Proof.
  unfold sends, after.
  induction payloads as [|data payloads IH]; intros s Hgate; simpl.
  - rewrite app_nil_r. now destruct s.
  - rewrite (BfxApiFacts.send_deferred JSON_stringify data s Hgate).
    simpl. rewrite IH by exact Hgate. simpl. now rewrite <- app_assoc.
Qed.

Lemma call_each_deferred : forall queue s,
  paused s = false ->
  ws s = None \/ (exists w, ws s = Some w /\ readyState w <> OPEN) ->
  ActionsStack.call_each call_action queue s
  = (Normal tt, set_resumeStack (resumeStack s ++ queue) s).
Proof.
  induction queue as [|[data] queue IH]; intros s Hp Hgate; simpl.
  - rewrite app_nil_r. now destruct s.
  - unfold bind.
    rewrite (BfxApiFacts.send_deferred JSON_stringify data s (or_intror Hgate)).
    rewrite IH by assumption. simpl. now rewrite <- app_assoc.
Qed.

Lemma resume_closed : forall s,
  ws s = None \/ (exists w, ws s = Some w /\ readyState w <> OPEN) ->
  resume s
  = (Normal tt,
     set_resumeStack []
       (set_paused false (set_events (events s ++ [Logged DEBUG "resume" []]) s))).
Proof.
  intros s Hgate.
  unfold BfxApi.resume, bind at 1, debug, emit, modify at 1.
  unfold bind at 1, modify at 1.
  rewrite (BfxApiFacts.fire_is_call_each JSON_stringify). unfold bind.
  rewrite call_each_deferred by (simpl; auto). reflexivity.
Qed.

(** X12.  A [resume] that runs while there is no transport, or while the
    transport is not open, unpauses the controller and empties the queue
    without handing anything to the transport: each queued send is pushed
    back by the gate onto the stack that [fire] then clears. *)
Theorem resume_without_open_transport : forall s,
  ws s = None \/ (exists w, ws s = Some w /\ readyState w <> OPEN) ->
  resume s
  = (Normal tt,
     set_resumeStack []
       (set_paused false (set_events (events s ++ [Logged DEBUG "resume" []]) s)))
  /\ transmitted (after resume s) = transmitted s
  /\ resumeStack (after resume s) = []
  /\ paused (after resume s) = false.
Proof.
  intros s Hgate.
  pose proof (resume_closed s Hgate) as E.
  unfold after. rewrite E. unfold transmitted. simpl. repeat split.
  rewrite BfxApiFacts.transmitted_in_app. simpl. now rewrite app_nil_r.
Qed.

(** *** Messages nobody expects *)

(** X13.  A decoded message that is not [null], that no expectation
    accepts and whose [event] is not ['info'] is logged as unprocessed and
    changes nothing else. *)
Theorem unexpected_message_logged : forall data msg s,
  JSON_parse data = Some msg ->
  msg <> JNull ->
  unexpected msg s ->
  strict_eq (prop msg "event") (Some (JStr "info")) = false ->
  handleMessage data s
  = (Normal tt,
     set_events (events s ++ [Logged DEBUG "unprocessed message" [Some msg]]) s).
Proof.
  intros data msg s Hparse Hnull [Ho Hw] Hinfo.
  unfold BfxApi.handleMessage. rewrite Hparse.
  assert (E : (consumed <- exec msg ;;
               if consumed then ret tt
               else if strict_eq (prop msg "event") (Some (JStr "info"))
                    then processMsgInfo JSON_stringify msg
                    else debug "unprocessed message" [Some msg]) s
              = (Normal tt,
                 set_events (events s ++ [Logged DEBUG "unprocessed message" [Some msg]]) s)).
  { unfold bind at 1, BfxApi.exec.
    rewrite (ExpectationsFacts.exec_once_unmatched _ _ _ _ call_match
               (call_process allowedVersions) expectations set_expectations _ _ Ho).
    rewrite (ExpectationsFacts.execWhenever_unmatched _ _ _ _ call_match
               (call_process allowedVersions) expectations _ _ Hw).
    now rewrite Hinfo. }
  destruct msg; try exact E. now elim Hnull.
Qed.

(** X14.  An info message that no expectation accepts and whose code is
    none of 20051, 20060 and 20061 (or that has no code) is logged, with
    the code, and changes nothing else. *)
Theorem unknown_info_code_logged : forall data msg s,
  JSON_parse data = Some msg ->
  unexpected msg s ->
  strict_eq (prop msg "event") (Some (JStr "info")) = true ->
  strict_eq (prop msg "code") (Some (JNum 20051)) = false ->
  strict_eq (prop msg "code") (Some (JNum 20060)) = false ->
  strict_eq (prop msg "code") (Some (JNum 20061)) = false ->
  handleMessage data s
  = (Normal tt,
     set_events
       (events s
        ++ [Logged DEBUG "info message" [Some msg];
            Logged LOG "unknown info message code" [prop msg "code"]])
       s).
Proof.
  intros data msg s Hparse [Ho Hw] Hinfo H1 H2 H3.
  unfold BfxApi.handleMessage. rewrite Hparse.
  destruct msg as [| | | | |props]; try (simpl in Hinfo; discriminate).
  unfold bind at 1, BfxApi.exec.
  rewrite (ExpectationsFacts.exec_once_unmatched _ _ _ _ call_match
             (call_process allowedVersions) expectations set_expectations _ _ Ho).
  rewrite (ExpectationsFacts.execWhenever_unmatched _ _ _ _ call_match
             (call_process allowedVersions) expectations _ _ Hw).
  rewrite Hinfo. unfold processMsgInfo. rewrite H1, H2, H3.
  unfold bind, debug, log, emit, modify. simpl. now rewrite <- app_assoc.
Qed.

(** *** restart and the queue *)

Lemma restart_with_transport : forall s w,
  ws s = Some w ->
  restart s
  = (Normal tt,
     set_sockets (S (sockets s))
       (set_ws (Some (mkWebSocket (sockets s) CONNECTING))
          (set_events
             (events s
              ++ [Logged DEBUG "restart" []; Logged LOG "closing socket" [];
                  Closed (socket w); Logged DEBUG "connect" [];
                  Constructed (sockets s) (url s)])
             (set_expectations
                (mkExpectations
                   (expectationsOnce (expectations s)
                    ++ [mkExpectation (nextRef (expectations s)) MatchVersion CheckVersion])
                   (expectationsWhenever (expectations s))
                   (S (nextRef (expectations s))))
                s)))).
Proof.
  intros s w Hw.
  unfold restart, close, connect, ws_close, once, debug, log, emit, modify, bind, ret.
  simpl. rewrite Hw. simpl. rewrite <- !app_assoc. reflexivity.
Qed.

(** X15.  [restart] with a transport in place closes it and constructs a
    new socket, and keeps the pause flag and the queue.  Until the new
    socket opens every payload handed to [send] joins the queue, paused or
    not; the open event of the new socket then hands the whole queue, old
    entries first, to the new socket in order and leaves the queue
    empty. *)
Theorem restart_keeps_queue : forall s w payloads,
  ws s = Some w ->
  let restarted := after restart s in
  let queued := sends JSON_stringify payloads restarted in
  let opened := after resume (transport OPEN queued) in
  paused restarted = paused s
  /\ resumeStack restarted = resumeStack s
  /\ ws restarted = Some (mkWebSocket (sockets s) CONNECTING)
  /\ events restarted
     = events s
       ++ [Logged DEBUG "restart" []; Logged LOG "closing socket" [];
           Closed (socket w); Logged DEBUG "connect" [];
           Constructed (sockets s) (url s)]
  /\ resumeStack queued = resumeStack s ++ map SendBound payloads
  /\ events queued = events restarted
  /\ events opened
     = events restarted
       ++ Logged DEBUG "resume" []
       :: map (fun a => Sent (sockets s) (on_the_wire (bound_data a)))
              (resumeStack s ++ map SendBound payloads)
  /\ resumeStack opened = [].
Proof.
  intros s w payloads Hw restarted queued opened.
  assert (Hr : restarted = snd (restart s)) by reflexivity.
  rewrite (restart_with_transport s w Hw) in Hr. simpl in Hr.
  assert (Hq : queued
               = set_resumeStack (resumeStack restarted ++ map SendBound payloads)
                                 restarted).
  { apply sends_deferred. right. right.
    exists (mkWebSocket (sockets s) CONNECTING).
    rewrite Hr. simpl. split; [reflexivity|discriminate]. }
  assert (Ho : opened = snd (resume (transport OPEN queued))) by reflexivity.
  clearbody restarted queued opened.
  rewrite (BfxApiFacts.resume_open JSON_stringify _ (mkWebSocket (sockets s) OPEN)) in Ho.
  - subst opened queued restarted. simpl. repeat split.
  - subst queued restarted. reflexivity.
  - reflexivity.
Qed.

(** *** Nothing is transmitted through a shut gate *)

Lemma open_or_not : forall s,
  (ws s = None \/ (exists w, ws s = Some w /\ readyState w <> OPEN))
  \/ transport_open s.
Proof.
  intros s. unfold transport_open.
  destruct (ws s) as [w|]; [|left; now left].
  destruct (readyState w) eqn:Hr.
  2:{ right. now exists w. }
  all: left; right; exists w; split; [reflexivity | congruence].
Qed.

Lemma send_through_gate : forall data x,
  paused (after (send data) x) = paused x
  /\ ws (after (send data) x) = ws x
  /\ (transmitted (after (send data) x) <> transmitted x ->
      paused x = false /\ transport_open x).
Proof.
  intros data x. unfold after.
  destruct (BfxApiFacts.deferring_or_open x) as [Hgate|(Hp & w & Hw & Hr)].
  - rewrite (BfxApiFacts.send_deferred JSON_stringify data x Hgate). simpl.
    split; [reflexivity|]. split; [reflexivity|]. intros H. now elim H.
  - rewrite (BfxApiFacts.send_transmitted JSON_stringify data x w Hp Hw Hr). simpl.
    split; [reflexivity|]. split; [reflexivity|]. intros _.
    split; [exact Hp | now exists w].
Qed.

Lemma resume_through_gate : forall y,
  paused (after resume y) = false
  /\ ws (after resume y) = ws y
  /\ (transmitted (after resume y) <> transmitted y -> transport_open y).
Proof.
  intros y. unfold after.
  destruct (open_or_not y) as [Hclosed|Hopen].
  - rewrite (resume_closed y Hclosed). unfold transmitted. simpl.
    split; [reflexivity|]. split; [reflexivity|]. intros H. elim H.
    rewrite BfxApiFacts.transmitted_in_app. simpl. now rewrite app_nil_r.
  - pose proof Hopen as (w & Hw & Hr).
    rewrite (BfxApiFacts.resume_open JSON_stringify y w Hw Hr). simpl.
    split; [reflexivity|]. split; [reflexivity|]. intros _. exact Hopen.
Qed.

Lemma gated_quiet : forall (A : Type) (c : JS State A), quiet c -> gated c.
Proof. intros A c Hq s. left. apply Hq. Qed.

Lemma gated_quiet_bind : forall (A B : Type) (c : JS State A) (k : A -> JS State B),
  quiet c -> (forall a, gated (k a)) -> gated (bind c k).
Proof.
  intros A B c k Hc Hk s. destruct (Hc s) as [_ Ht].
  unfold after, bind in *.
  destruct (c s) as [[a|e] s']; simpl in *; [|now left].
  destruct (Hk a s') as [H|H]; [left; unfold after in H; congruence | now right].
Qed.

Lemma gated_bind_calm : forall (A B : Type) (c : JS State A) (k : A -> JS State B),
  gated c -> (forall a, calm (k a)) -> gated (bind c k).
Proof.
  intros A B c k Hc Hk s. specialize (Hc s).
  unfold after, bind in *.
  destruct (c s) as [[a|e] s']; simpl in *; [|exact Hc].
  destruct (Hk a s') as (Hp & Hw & Ht). unfold after in *.
  destruct Hc as [H|[H1 H2]]; [left; congruence|right].
  split; [congruence|]. unfold transport_open in *. now rewrite Hw.
Qed.

Lemma gated_send : forall data, gated (send data).
Proof.
  intros data s. destruct (send_through_gate data s) as (Hp & Hw & Ht).
  destruct (BfxApiFacts.deferring_or_open s) as [Hgate|(Hp' & w & Hw' & Hr)].
  - left. unfold after.
    now rewrite (BfxApiFacts.send_deferred JSON_stringify data s Hgate).
  - right. split; [congruence|]. unfold transport_open. rewrite Hw. now exists w.
Qed.

Lemma gated_resume : gated resume.
Proof.
  intros s. destruct (resume_through_gate s) as (Hp & Hw & Ht).
  destruct (open_or_not s) as [Hclosed|Hopen].
  - left. unfold after. rewrite (resume_closed s Hclosed). unfold transmitted. simpl.
    rewrite BfxApiFacts.transmitted_in_app. simpl. now rewrite app_nil_r.
  - right. split; [exact Hp|]. unfold transport_open in *. now rewrite Hw.
Qed.

Lemma gated_handleMessage : forall data, gated (handleMessage data).
Proof.
  intros data. unfold BfxApi.handleMessage.
  destruct (JSON_parse data) as [msg|]; [|apply gated_quiet, BfxApiFacts.quiet_throw].
  assert (Hbody : gated (consumed <- exec msg ;;
                         if consumed then ret tt
                         else if strict_eq (prop msg "event") (Some (JStr "info"))
                              then processMsgInfo JSON_stringify msg
                              else debug "unprocessed message" [Some msg])).
  { apply gated_quiet_bind; [apply BfxApiFacts.quiet_exec|].
    intros [|]; [apply gated_quiet, BfxApiFacts.quiet_ret|].
    destruct (strict_eq (prop msg "event") _);
      [|apply gated_quiet, BfxApiFacts.quiet_log].
    apply gated_quiet_bind; [apply BfxApiFacts.quiet_log | intros _].
    destruct (strict_eq (prop msg "code") (Some (JNum 20051)));
      [apply gated_quiet, BfxApiFacts.quiet_restart|].
    destruct (strict_eq (prop msg "code") (Some (JNum 20060))).
    { apply gated_quiet_bind; [apply BfxApiFacts.quiet_log | intros _].
      intros s. now left. }
    destruct (strict_eq (prop msg "code") (Some (JNum 20061)));
      [apply gated_resume | apply gated_quiet, BfxApiFacts.quiet_log]. }
  destruct msg; try exact Hbody. apply gated_quiet, BfxApiFacts.quiet_throw.
Qed.

(** X16.  Nothing reaches the transport through a shut gate: whatever is
    called on the controller or delivered to it, if the operation hands
    anything to the transport then the controller comes out of it unpaused
    and with its transport open. *)
Theorem transmits_only_when_open : forall s op,
  transmitted (step s op) <> transmitted s ->
  paused (step s op) = false /\ transport_open (step s op).
Proof.
  intros s op Hsent.
  assert (Hg : transmitted (step s op) = transmitted s
               \/ (paused (step s op) = false /\ transport_open (step s op))).
  { clear Hsent. destruct op; simpl.
    - apply gated_quiet, BfxApiFacts.quiet_connect.
    - apply gated_quiet, BfxApiFacts.quiet_close.
    - apply gated_quiet, (BfxApiFacts.quiet_log LOG "auth not implemented" []).
    - unfold BfxApi.ping.
      apply (gated_quiet_bind _ _ (modify (set_pingCounter (increment (pingCounter s))))).
      + now apply BfxApiFacts.quiet_modify.
      + intros _. apply gated_quiet_bind; [apply BfxApiFacts.quiet_once|].
        intros _. apply gated_send.
    - revert s. apply gated_quiet_bind; [apply BfxApiFacts.quiet_new_promise|].
      intros p. destruct callback as [f|v].
      + apply gated_quiet_bind; [apply BfxApiFacts.quiet_once | intros _].
        apply gated_bind_calm; [apply gated_send | intros _ s; now repeat split].
      + apply gated_quiet.
        apply BfxApiFacts.quiet_bind;
          [now apply BfxApiFacts.quiet_modify | intros _; apply BfxApiFacts.quiet_ret].
    - revert s. apply gated_bind_calm; [apply gated_send|].
      intros _ s. now repeat split.
    - apply gated_send.
    - apply gated_handleMessage.
    - apply gated_resume.
    - left. unfold Session.transport. now destruct (ws s). }
  destruct Hg as [H|H]; [now elim Hsent | exact H].
Qed.

(** *** The subscription request and its acknowledgment *)

Lemma lookup_assign : forall key v a k,
  lookup k (assign key v a)
  = if String.eqb key k then Some v else lookup k a.
Proof.
  intros key v a k. induction a as [|[k0 x] a IH]; simpl.
  - reflexivity.
  - destruct (String.eqb_spec k0 key) as [->|Hne]; simpl.
    + now destruct (String.eqb key k).
    + destruct (String.eqb_spec k0 k) as [->|Hne'].
      * destruct (String.eqb_spec key k) as [->|_]; [now elim Hne | reflexivity].
      * exact IH.
Qed.

Lemma lookup_app : forall k l l',
  lookup k (l ++ l')
  = match lookup k l with Some v => Some v | None => lookup k l' end.
Proof.
  intros k l l'. induction l as [|[k0 x] l IH]; simpl; [reflexivity|].
  now destruct (String.eqb k0 k).
Qed.

Lemma lookup_spread : forall b a k,
  lookup k (spread a b)
  = match lookup k (rev b) with Some v => Some v | None => lookup k a end.
Proof.
  unfold spread.
  induction b as [|[k0 v0] b IH]; intros a k; simpl; [reflexivity|].
  rewrite IH, lookup_app, lookup_assign. simpl.
  destruct (lookup k (rev b)); [reflexivity|].
  now destruct (String.eqb k0 k).
Qed.

(** X17.  The object [subscribe] hands to [send] is [{event:'subscribe',
    channel, ...params}]: every property of [params] is in it with the
    value [params] gives it (the last one, should a key occur twice), and
    [event] and [channel] are ['subscribe'] and the channel asked for
    unless [params] itself has a property of that name.  A paused,
    never-connected or not yet open controller queues that object; an
    open, unpaused one transmits its serialization. *)
Theorem subscribe_request : forall s channel pair' params f,
  let s1 := after (subscribe channel pair' params (Function f)) s in
  (forall k v, lookup k (rev params) = Some v ->
               prop (request channel params) k = Some v)
  /\ (lookup "event" (rev params) = None ->
      prop (request channel params) "event" = Some (JStr "subscribe"))
  /\ (lookup "channel" (rev params) = None ->
      prop (request channel params) "channel" = Some (JStr channel))
  /\ ((deferring s
       /\ resumeStack s1 = resumeStack s ++ [SendBound (request channel params)]
       /\ events s1 = events s)
      \/ (paused s = false
          /\ exists w,
               ws s = Some w /\ readyState w = OPEN
               /\ resumeStack s1 = resumeStack s
               /\ events s1
                  = events s
                    ++ [Sent (socket w) (JSON_stringify (request channel params))])).
Proof.
  intros s channel pair' params f s1.
  split; [|split; [|split]].
  - intros k v H. unfold request. simpl. rewrite lookup_spread. now rewrite H.
  - intros H. unfold request. simpl. rewrite lookup_spread. now rewrite H.
  - intros H. unfold request. simpl. rewrite lookup_spread. now rewrite H.
  - assert (Hs1 : s1 = snd (subscribe channel pair' params (Function f) s))
      by reflexivity.
    clearbody s1.
    unfold BfxApi.subscribe, bind at 1, new_promise in Hs1.
    unfold bind at 1, once, modify in Hs1. unfold bind at 1 in Hs1.
    fold (request channel params) in Hs1.
    match type of Hs1 with
    | context [send ?d ?x] =>
        destruct (BfxApiFacts.deferring_or_open x) as [Hgate|(Hp & w & Hw & Hr)];
        [ rewrite (BfxApiFacts.send_deferred JSON_stringify d x Hgate) in Hs1
        | rewrite (BfxApiFacts.send_transmitted JSON_stringify d x w Hp Hw Hr) in Hs1 ]
    end; simpl in *; subst s1; simpl.
    + left. repeat split. exact Hgate.
    + right. split; [exact Hp|]. exists w. repeat split; auto.
Qed.

Lemma strict_eq_string : forall v t,
  strict_eq v (Some (JStr t)) = true <-> v = Some (JStr t).
Proof.
  intros [[| | |x| |]|] t; simpl; split; intros H; try discriminate.
  - apply String.eqb_eq in H. now subst.
  - inversion H. apply String.eqb_refl.
Qed.

(** X18.  What makes a message the acknowledgment of a subscription: its
    [event] is ['subscribed'] and its [pair] is the pair subscribed to,
    which must not be the empty string.  Nothing else is looked at, the
    channel in particular; and a subscription for the empty pair is
    acknowledged by no message at all. *)
Theorem subscribed_acknowledgment : forall pair' msg,
  call_match (MatchSubscribed pair') msg = true
  <-> (prop msg "event" = Some (JStr "subscribed")
       /\ prop msg "pair" = Some (JStr pair')
       /\ pair' <> EmptyString).
Proof.
  intros pair' msg. simpl. split.
  - intros H. apply andb_prop in H. destruct H as [H H3].
    apply andb_prop in H. destruct H as [H1 H2].
    apply strict_eq_string in H1. apply strict_eq_string in H3.
    repeat split; auto.
    intros ->. rewrite H3 in H2. discriminate.
  - intros (H1 & H2 & H3). rewrite H1, H2. simpl.
    rewrite String.eqb_refl. simpl.
    destruct (String.eqb_spec pair' EmptyString) as [E|_]; [now elim H3|reflexivity].
Qed.

(** X19.  [subscribe] and its acknowledgment, for any pair and any
    channel.  When no once-expectation registered earlier accepts a
    'subscribed' message for the pair, dispatching it resolves the promise
    that [subscribe] returned with that message, puts the once-list back
    to what it was before the call, and appends to the whenever-list the
    snapshot entry and the heartbeat entry for the [chanId] the message
    carries. *)
Theorem subscribe_acknowledged : forall s channel pair' params f ack,
  allocated (expectations s) ->
  call_match (MatchSubscribed pair') ack = true ->
  unmatched ack (expectationsOnce (expectations s)) ->
  let promise := List.length (promises s) in
  let s1 := after (subscribe channel pair' params (Function f)) s in
  let s2 := after (exec ack) s1 in
  result (subscribe channel pair' params (Function f)) s = Normal promise
  /\ result (exec ack) s1 = Normal true
  /\ nth_error (promises s2) promise = Some (Resolved ack)
  /\ expectationsOnce (expectations s2) = expectationsOnce (expectations s)
  /\ expectationsWhenever (expectations s2)
     = expectationsWhenever (expectations s)
       ++ [snapshots (S (nextRef (expectations s))) (prop ack "chanId") f;
           heartbeats (S (S (nextRef (expectations s)))) (prop ack "chanId")].
Proof.
  intros s channel pair' params f ack [Hnd Hlt] Hm Hnone promise s1 s2.
  destruct (BfxApiFacts.subscribe_function JSON_stringify channel pair' params f s)
    as (x1 & E & He & Hp).
  assert (Hs1 : s1 = x1) by (unfold s1, after; now rewrite E).
  rewrite <- Hs1 in He, Hp.
  set (mine := mkExpectation (nextRef (expectations s))
                             (MatchSubscribed pair') (Promote f promise)) in He.
  assert (Hfind : find (matching call_match ack)
                       (expectationsOnce (expectations s1)) = Some mine).
  { rewrite He. simpl. now apply last_registered_found. }
  assert (E2 : exec ack s1
               = (Normal true,
                  set_promises
                    (promises s ++ [Resolved ack])
                    (set_expectations
                       (mkExpectations
                          (expectationsOnce (expectations s))
                          (expectationsWhenever (expectations s)
                           ++ [snapshots (S (nextRef (expectations s))) (prop ack "chanId") f;
                               heartbeats (S (S (nextRef (expectations s))))
                                          (prop ack "chanId")])
                          (S (S (S (nextRef (expectations s))))))
                       s1))).
  { unfold BfxApi.exec.
    rewrite (ExpectationsFacts.exec_once_found _ _ _ _ call_match
               (call_process allowedVersions) expectations set_expectations
               ack s1 mine Hfind).
    rewrite He. simpl expectationsOnce.
    unfold mine at 1 2. rewrite allocated_filter_last by exact Hlt.
    unfold bind, call_process, whenever, resolve, modify, ret. simpl.
    rewrite Hp. unfold promise. rewrite BfxApiFacts.settle_at_last.
    now rewrite <- app_assoc. }
  assert (Hs2 : s2 = snd (exec ack s1)) by reflexivity.
  clearbody s2. unfold result. rewrite E, E2 in *. simpl in Hs2. subst s2. simpl.
  repeat split.
  apply BfxApiFacts.nth_error_last.
Qed.

(** *** The subscription methods *)

Lemma subscribe_open : forall s w channel pair' params f,
  paused s = false -> ws s = Some w -> readyState w = OPEN ->
  transmitted (after (subscribe channel pair' params (Function f)) s)
  = transmitted s ++ [JSON_stringify (request channel params)]
  /\ map (@matchf _ _)
         (expectationsOnce
            (expectations (after (subscribe channel pair' params (Function f)) s)))
     = map (@matchf _ _) (expectationsOnce (expectations s)) ++ [MatchSubscribed pair'].
Proof.
  intros s w channel pair' params f Hp Hw Hr.
  unfold after, BfxApi.subscribe, bind at 1, new_promise.
  unfold bind at 1, once, modify. unfold bind at 1.
  fold (request channel params).
  rewrite (BfxApiFacts.send_transmitted JSON_stringify _ _ w) by (simpl; assumption).
  unfold bind at 1, new_promise.
  unfold bind at 1, once, modify. unfold bind at 1.
  fold (request channel params).
  rewrite (BfxApiFacts.send_transmitted JSON_stringify _ _ w) by (simpl; assumption).
  unfold transmitted. simpl.
  rewrite BfxApiFacts.transmitted_in_app, map_app. simpl. split; reflexivity.
Qed.

(** X20.  What each subscription method puts on the wire of an open,
    unpaused controller: one request, with [event] ['subscribe'], the
    channel of the method ([subscribeFTrades] asks for ['trades'], the two
    book methods for ['book']), the symbol prefixed with [t] or [f], and
    for candles an empty symbol and the key [trade:<timeFrame>:t<pair>]
    with [1m] when no time frame is given.  Each registers one
    once-expectation, for a 'subscribed' message with the pair. *)
Theorem subscription_requests : forall s w pair' f timeFrame,
  paused s = false -> ws s = Some w -> readyState w = OPEN ->
  let sent (c : JS State nat) (o : list (string * JSON)) :=
    transmitted (after c s) = transmitted s ++ [JSON_stringify (JObj o)]
    /\ map (@matchf _ _) (expectationsOnce (expectations (after c s)))
       = map (@matchf _ _) (expectationsOnce (expectations s)) ++ [MatchSubscribed pair'] in
  sent (subscribeTicker JSON_stringify pair' (Function f))
       [("event", JStr "subscribe"); ("channel", JStr "ticker");
        ("symbol", JStr ("t" ++ pair')%string)]
  /\ sent (subscribeFTicker JSON_stringify pair' (Function f))
       [("event", JStr "subscribe"); ("channel", JStr "fticker");
        ("symbol", JStr ("f" ++ pair')%string)]
  /\ sent (subscribeTrades JSON_stringify pair' (Function f))
       [("event", JStr "subscribe"); ("channel", JStr "trades");
        ("symbol", JStr ("t" ++ pair')%string)]
  /\ sent (subscribeFTrades JSON_stringify pair' (Function f))
       [("event", JStr "subscribe"); ("channel", JStr "trades");
        ("symbol", JStr ("f" ++ pair')%string)]
  /\ sent (subscribeBooks JSON_stringify pair' (Function f))
       [("event", JStr "subscribe"); ("channel", JStr "book");
        ("symbol", JStr ("t" ++ pair')%string)]
  /\ sent (subscribeRawBooks JSON_stringify pair' (Function f))
       [("event", JStr "subscribe"); ("channel", JStr "book");
        ("symbol", JStr ("t" ++ pair')%string); ("prec", JStr "R0")]
  /\ sent (subscribeCandles JSON_stringify pair' (Function f) timeFrame)
       [("event", JStr "subscribe"); ("channel", JStr "candles");
        ("symbol", JStr "");
        ("key", JStr ("trade:"
                      ++ match timeFrame with Some t => t | None => "1m" end
                      ++ ":t" ++ pair')%string)].
Proof.
  intros s w pair' f timeFrame Hp Hw Hr sent. subst sent. cbv beta.
  unfold subscribeTicker, subscribeFTicker, subscribeTrades, subscribeFTrades,
    subscribeBooks, subscribeRawBooks, subscribeCandles.
  repeat match goal with
         | |- _ /\ _ => split
         | |- transmitted (after (subscribe ?c ?p ?o _) s) = _ =>
             exact (proj1 (subscribe_open s w c p o f Hp Hw Hr))
         | |- map _ (expectationsOnce (expectations (after (subscribe ?c ?p ?o _) s))) = _ =>
             exact (proj2 (subscribe_open s w c p o f Hp Hw Hr))
         end.
Qed.

(** *** Controllers as they are built *)

Lemma allocated_run : forall ops s,
  allocated (expectations s) -> allocated (expectations (run ops s)).
Proof.
  unfold Session.run.
  induction ops as [|op ops IH]; intros s H; simpl; [exact H|].
  apply IH. now apply BfxApiFacts.tidy_step.
Qed.

Lemma allocated_constructor : forall bfxAPI params_url,
  allocated (expectations (constructor bfxAPI params_url)).
Proof.
  intros bfxAPI params_url. split; [constructor | intros exp []].
Qed.

(** *** Sends made while paused *)

(** X22.  Payloads sent while the controller is paused, whether it has a
    transport by then or not, do not reach the transport and are queued
    in call order, behind what the queue already holds.  When the
    transport then opens (after [connect], where there was none), the
    open event hands the whole queue to the transport in that order and
    leaves the queue empty. *)
Theorem sends_while_paused_replayed : forall s payloads,
  paused s = true ->
  let queued := sends JSON_stringify payloads s in
  let opening :=
    match ws s with
    | Some _ => [Transport OPEN; OnOpen]
    | None => [Connect; Transport OPEN; OnOpen]
    end in
  transmitted queued = transmitted s
  /\ resumeStack queued = resumeStack s ++ map SendBound payloads
  /\ transmitted (run opening queued)
     = transmitted s
       ++ map on_the_wire (map bound_data (resumeStack s))
       ++ map on_the_wire payloads
  /\ resumeStack (run opening queued) = [].
Proof.
  intros s payloads Hp. simpl.
  rewrite (BfxApiFacts.sends_paused JSON_stringify payloads s Hp).
  split; [reflexivity|]. split; [reflexivity|].
  destruct (ws s) as [w|] eqn:Hw; unfold Session.run; simpl fold_left;
    unfold after.
  - unfold transport. simpl ws. rewrite Hw.
    rewrite (BfxApiFacts.resume_open JSON_stringify _ (mkWebSocket (socket w) OPEN))
      by reflexivity.
    unfold transmitted. simpl.
    split; [|reflexivity].
    rewrite BfxApiFacts.transmitted_in_app. simpl.
    rewrite BfxApiFacts.transmitted_in_sent.
    rewrite map_app, !map_map. reflexivity.
  - unfold connect, debug, emit, once, bind, modify, transport. simpl.
    rewrite (BfxApiFacts.resume_open JSON_stringify _ (mkWebSocket (sockets s) OPEN))
      by reflexivity.
    unfold transmitted. simpl.
    split; [|reflexivity].
    rewrite !BfxApiFacts.transmitted_in_app. simpl.
    rewrite BfxApiFacts.transmitted_in_sent.
    rewrite map_app, !map_map, !app_nil_r. reflexivity.
Qed.

End Laws.

End ControllerLaws.

(** ** The stack of deferred actions *)

Module StackLaws.

Import ActionsStack.

Section Laws.

Variables Action W : Type.
Variable call : Action -> JS W unit.
Variable stack : W -> list Action.
Variable set_stack : list Action -> W -> W.

Abbreviation fire := (fire call stack set_stack).
Abbreviation reject := (reject (Action := Action) set_stack).
Abbreviation add := (add stack set_stack).

Hypothesis stack_written : forall l w, stack (set_stack l w) = l.

Hypothesis call_pushes : forall action w,
  result (call action) w = Normal tt
  /\ exists pushed, stack (after (call action) w) = stack w ++ pushed.

Lemma fire_empty : forall w,
  stack w = [] -> fire w = (Normal tt, set_stack [] w).
Proof.
  intros w H. unfold ActionsStack.fire, ActionsStack.forEach, bind.
  now rewrite H.
Qed.

(** X21.  Once the stack has been fired or rejected, firing it calls no
    action: the actions a [fire] ran are not run again by the next, and
    the actions a [reject] discarded are never run.  An action added after
    that is what the next [fire] starts from. *)
Theorem fire_after_fire_or_reject : forall w action,
  fire (after fire w) = (Normal tt, set_stack [] (after fire w))
  /\ fire (after reject w) = (Normal tt, set_stack [] (after reject w))
  /\ stack (after (add action) (after fire w)) = [action]
  /\ stack (after (add action) (after reject w)) = [action].
Proof.
  intros w action.
  assert (Hf : stack (after fire w) = []).
  { pose proof (ActionsStackFacts.fire_call_each Action W call stack set_stack
                  w) as E.
    destruct (ActionsStackFacts.call_each_pushes Action W call stack call_pushes
                (stack w) w) as (Hr & _).
    unfold result, after in *. rewrite E. unfold bind.
    destruct (ActionsStack.call_each call (stack w) w) as [[[]|e] w'];
      simpl in *; [|discriminate].
    apply stack_written. }
  assert (Hr : stack (after reject w) = []).
  { unfold after, ActionsStack.reject, modify. simpl. apply stack_written. }
  repeat split.
  - now apply fire_empty.
  - now apply fire_empty.
  - unfold after at 1, ActionsStack.add. simpl. now rewrite stack_written, Hf.
  - unfold after at 1, ActionsStack.add. simpl. now rewrite stack_written, Hr.
Qed.

End Laws.

End StackLaws.

(* ===================================================================== *)
(** ** The further properties at work on sample sessions *)
(* ===================================================================== *)

Module Trials.

Import Expectations BfxApi Session Scenario Subscriptions Frames Sample Trial.

Abbreviation exec := (BfxApi.exec versions).
Abbreviation unmatched := (none_matching (ProcessFunc := ProcessFunc) call_match).

Lemma unmatched_test : forall msg (l : list (Expectation MatchFunc ProcessFunc)),
  forallb (fun exp => negb (call_match (matchf exp) msg)) l = true ->
  unmatched msg l.
Proof.
  intros msg l H exp Hin.
  rewrite forallb_forall in H. specialize (H exp Hin).
  unfold matching. now destruct (call_match (matchf exp) msg).
Defined.

Lemma allocated_active : allocated (expectations active).
Proof.
  exact (ControllerLaws.allocated_run parse stringify versions
           [Connect; Transport OPEN; OnOpen] constructed
           (ControllerLaws.allocated_constructor address None)).
Defined.

Lemma allocated_pinged : allocated (expectations pinged).
Proof.
  exact (ControllerLaws.allocated_run parse stringify versions [Ping] active
           allocated_active).
Defined.

Lemma allocated_streaming : allocated (expectations streaming).
Proof.
  exact (ControllerLaws.allocated_run parse stringify versions
           [Subscribe "ticker" "BTCUSD" [("symbol", JStr "tBTCUSD")] (Function 0);
            OnMessage (stringify subscribed_BTCUSD_5)] active allocated_active).
Defined.

(** A pong expectation registered on an active controller, then its pong. *)
Lemma once_then_exec_pong :
  (forall E s, expectations (set_expectations E s) = E)
  /\ allocated (expectations active)
  /\ unmatched pong_1 (expectationsOnce (expectations active))
  /\ call_match (MatchPong 1) pong_1 = true
  /\ exec pong_1 (after (once expectations set_expectations (MatchPong 1) LogPong) active)
     = (call_process versions LogPong pong_1 ;; ret true)
         (set_expectations
            (mkExpectations (expectationsOnce (expectations active))
                            (expectationsWhenever (expectations active))
                            (S (nextRef (expectations active))))
            (after (once expectations set_expectations (MatchPong 1) LogPong) active)).
Proof.
  assert (H0 : forall E s, expectations (set_expectations E s) = E) by reflexivity.
  assert (H2 : unmatched pong_1 (expectationsOnce (expectations active)))
    by (apply unmatched_test; vm_compute; reflexivity).
  assert (H3 : call_match (MatchPong 1) pong_1 = true) by (vm_compute; reflexivity).
  split; [exact H0|]. split; [exact allocated_active|].
  split; [exact H2|]. split; [exact H3|].
  exact (RegistryLaws.once_then_exec _ _ _ _ call_match (call_process versions)
           expectations set_expectations H0 (MatchPong 1) LogPong pong_1 active
           allocated_active H2 H3).
Defined.

(** A heartbeat expectation registered on an active controller, then a
    heartbeat. *)
Lemma whenever_then_exec_heartbeat :
  (forall E s, expectations (set_expectations E s) = E)
  /\ unmatched heartbeat_5 (expectationsOnce (expectations active))
  /\ unmatched heartbeat_5 (expectationsWhenever (expectations active))
  /\ call_match (MatchHeartbeat (Some (JNum 5))) heartbeat_5 = true
  /\ result (exec heartbeat_5)
            (after (whenever expectations set_expectations
                             (MatchHeartbeat (Some (JNum 5))) heartbeating) active)
     = Normal true.
Proof.
  assert (H0 : forall E s, expectations (set_expectations E s) = E) by reflexivity.
  assert (H1 : unmatched heartbeat_5 (expectationsOnce (expectations active)))
    by (apply unmatched_test; vm_compute; reflexivity).
  assert (H2 : unmatched heartbeat_5 (expectationsWhenever (expectations active)))
    by (apply unmatched_test; vm_compute; reflexivity).
  assert (H3 : call_match (MatchHeartbeat (Some (JNum 5))) heartbeat_5 = true)
    by (vm_compute; reflexivity).
  split; [exact H0|]. split; [exact H1|]. split; [exact H2|]. split; [exact H3|].
  destruct (RegistryLaws.whenever_then_exec _ _ _ _ call_match (call_process versions)
              expectations set_expectations H0
              (MatchHeartbeat (Some (JNum 5))) heartbeating heartbeat_5 active
              H1 H2 H3) as [E _].
  unfold result. unfold BfxApi.exec. rewrite E. vm_compute. reflexivity.
Defined.

(** The first ping of an active controller and its pong. *)
Lemma ping_pong_round_trip_first :
  allocated (expectations active)
  /\ strict_eq (prop pong_1 "event") (Some (JStr "pong")) = true
  /\ strict_eq (prop pong_1 "cid") (Some (JNum (increment (pingCounter active)))) = true
  /\ unmatched pong_1 (expectationsOnce (expectations active))
  /\ expectationsOnce
       (expectations (after (exec pong_1) (after (ping stringify) active)))
     = expectationsOnce (expectations active).
Proof.
  assert (H1 : strict_eq (prop pong_1 "event") (Some (JStr "pong")) = true)
    by (vm_compute; reflexivity).
  assert (H2 : strict_eq (prop pong_1 "cid") (Some (JNum (increment (pingCounter active)))) = true)
    by (vm_compute; reflexivity).
  assert (H3 : unmatched pong_1 (expectationsOnce (expectations active)))
    by (apply unmatched_test; vm_compute; reflexivity).
  split; [exact allocated_active|]. split; [exact H1|]. split; [exact H2|].
  split; [exact H3|].
  exact (proj1 (proj2 (proj2
           (ControllerLaws.ping_pong_round_trip stringify versions active pong_1
              allocated_active H1 H2 H3)))).
Defined.

(** Channel 5 of a streaming controller is unsubscribed. *)
Lemma unsubscribe_acknowledged_5 :
  allocated (expectations streaming)
  /\ strict_eq (prop unsubscribed_5 "event") (Some (JStr "unsubscribed")) = true
  /\ strict_eq (prop unsubscribed_5 "chanId") (Some (JNum 5)) = true
  /\ unmatched unsubscribed_5 (expectationsOnce (expectations streaming))
  /\ expectationsWhenever
       (expectations (after (exec unsubscribed_5)
                            (after (unsubscribe stringify 5) streaming)))
     = expectationsWhenever (expectations streaming).
Proof.
  assert (H1 : strict_eq (prop unsubscribed_5 "event") (Some (JStr "unsubscribed")) = true)
    by (vm_compute; reflexivity).
  assert (H2 : strict_eq (prop unsubscribed_5 "chanId") (Some (JNum 5)) = true)
    by (vm_compute; reflexivity).
  assert (H3 : unmatched unsubscribed_5 (expectationsOnce (expectations streaming)))
    by (apply unmatched_test; vm_compute; reflexivity).
  split; [exact allocated_streaming|]. split; [exact H1|]. split; [exact H2|].
  split; [exact H3|].
  exact (proj2 (proj2 (proj2 (proj2 (proj2
           (ControllerLaws.unsubscribe_acknowledged stringify versions streaming 5
              unsubscribed_5 allocated_streaming H1 H2 H3)))))).
Defined.

(** A heartbeat on channel 5 of a streaming controller. *)
Lemma channel_routing_heartbeat :
  unmatched heartbeat_5 (expectationsOnce (expectations streaming))
  /\ expectationsWhenever (expectations streaming)
     = [] ++ snapshots 2 (Some (JNum 5)) 0 :: heartbeats 3 (Some (JNum 5)) :: []
  /\ unmatched heartbeat_5 []
  /\ strict_eq (nth_error [JNum 5; JStr "hb"] 0) (Some (JNum 5)) = true
  /\ exec heartbeat_5 streaming
     = (Normal true,
        set_events (events streaming ++ [Logged DEBUG "Heartbeating" [Some (JNum 5)]])
                   streaming).
Proof.
  assert (H1 : unmatched heartbeat_5 (expectationsOnce (expectations streaming)))
    by (apply unmatched_test; vm_compute; reflexivity).
  assert (H2 : expectationsWhenever (expectations streaming)
               = [] ++ snapshots 2 (Some (JNum 5)) 0 :: heartbeats 3 (Some (JNum 5)) :: [])
    by (vm_compute; reflexivity).
  assert (H3 : unmatched heartbeat_5 []) by (intros exp []).
  assert (H4 : strict_eq (nth_error [JNum 5; JStr "hb"] 0) (Some (JNum 5)) = true)
    by (vm_compute; reflexivity).
  split; [exact H1|]. split; [exact H2|]. split; [exact H3|]. split; [exact H4|].
  exact (ControllerLaws.channel_routing versions streaming (Some (JNum 5)) 0 2 3
           [] [] [JNum 5; JStr "hb"] H1 H2 H3 H4).
Defined.

(** The pong of a pending ping takes one entry of the once-list. *)
Lemma exec_takes_at_most_one_pong :
  allocated (expectations pinged)
  /\ ((unmatched pong_1 (expectationsOnce (expectations pinged))
       /\ expectationsOnce (expectations (after (exec pong_1) pinged))
          = expectationsOnce (expectations pinged))
      \/ (exists before exp rest,
            expectationsOnce (expectations pinged) = before ++ exp :: rest
            /\ unmatched pong_1 before
            /\ call_match (matchf exp) pong_1 = true
            /\ expectationsOnce (expectations (after (exec pong_1) pinged))
               = before ++ rest)).
Proof.
  split; [exact allocated_pinged|].
  exact (ControllerLaws.exec_takes_at_most_one versions pong_1 pinged allocated_pinged).
Defined.

(** The server announces version 2, an allowed version, to an active
    controller. *)
Lemma version_checked_allowed :
  parse (stringify info_version_2) = Some info_version_2
  /\ ws active = Some (mkWebSocket 0 OPEN)
  /\ allocated (expectations active)
  /\ expectationsOnce (expectations active)
     = [] ++ mkExpectation 0 MatchVersion CheckVersion :: []
  /\ unmatched info_version_2 []
  /\ call_match MatchVersion info_version_2 = true
  /\ expectationsOnce
       (expectations
          (after (handleMessage parse stringify versions (stringify info_version_2))
                 active))
     = [] ++ [].
Proof.
  assert (H1 : parse (stringify info_version_2) = Some info_version_2)
    by (vm_compute; reflexivity).
  assert (H2 : ws active = Some (mkWebSocket 0 OPEN)) by (vm_compute; reflexivity).
  assert (H3 : expectationsOnce (expectations active)
               = [] ++ mkExpectation 0 MatchVersion CheckVersion :: [])
    by (vm_compute; reflexivity).
  assert (H4 : unmatched info_version_2 []) by (intros exp []).
  assert (H5 : call_match MatchVersion info_version_2 = true)
    by (vm_compute; reflexivity).
  split; [exact H1|]. split; [exact H2|]. split; [exact allocated_active|].
  split; [exact H3|]. split; [exact H4|]. split; [exact H5|].
  exact (proj1 (proj2
           (ControllerLaws.version_checked parse stringify versions
              (stringify info_version_2) info_version_2 active (mkWebSocket 0 OPEN)
              [] (mkExpectation 0 MatchVersion CheckVersion) []
              H1 H2 allocated_active H3 H4 eq_refl eq_refl H5))).
Defined.

(** [restart] called on a controller that was never connected. *)
Lemma no_transport_no_restart_constructed :
  ws constructed = None
  /\ close constructed
     = (Throw TypeError,
        set_events (events constructed ++ [Logged LOG "closing socket" []]) constructed)
  /\ restart constructed
     = (Throw TypeError,
        set_events (events constructed
                    ++ [Logged DEBUG "restart" []; Logged LOG "closing socket" []])
                   constructed).
Proof.
  assert (H : ws constructed = None) by (vm_compute; reflexivity).
  split; [exact H|].
  exact (ControllerLaws.no_transport_no_restart constructed H).
Defined.

(** Two payloads sent on an active controller. *)
Lemma open_sends_transmitted_two :
  paused active = false
  /\ ws active = Some (mkWebSocket 0 OPEN)
  /\ readyState (mkWebSocket 0 OPEN) = OPEN
  /\ transmitted (sends stringify [ping_1; JStr "raw"] active)
     = transmitted active ++ map (on_the_wire stringify) [ping_1; JStr "raw"].
Proof.
  assert (H1 : paused active = false) by (vm_compute; reflexivity).
  assert (H2 : ws active = Some (mkWebSocket 0 OPEN)) by (vm_compute; reflexivity).
  assert (H3 : readyState (mkWebSocket 0 OPEN) = OPEN) by reflexivity.
  split; [exact H1|]. split; [exact H2|]. split; [exact H3|].
  exact (proj1 (proj2
           (ControllerLaws.open_sends_transmitted stringify [ping_1; JStr "raw"] active
              (mkWebSocket 0 OPEN) H1 H2 H3))).
Defined.

(** [resume] on a controller that was pinged but never connected. *)
Lemma resume_without_open_transport_early :
  (ws pinged_early = None
   \/ (exists w, ws pinged_early = Some w /\ readyState w <> OPEN))
  /\ resumeStack pinged_early = [SendBound ping_1]
  /\ transmitted (after (resume stringify) pinged_early) = transmitted pinged_early
  /\ resumeStack (after (resume stringify) pinged_early) = [].
Proof.
  assert (H : ws pinged_early = None
              \/ (exists w, ws pinged_early = Some w /\ readyState w <> OPEN))
    by (left; vm_compute; reflexivity).
  split; [exact H|]. split; [vm_compute; reflexivity|].
  destruct (ControllerLaws.resume_without_open_transport stringify pinged_early H)
    as (_ & H1 & H2 & _).
  split; [exact H1 | exact H2].
Defined.

(** A heartbeat for a channel nobody subscribed to. *)
Lemma unexpected_message_logged_heartbeat :
  parse (stringify heartbeat_5) = Some heartbeat_5
  /\ heartbeat_5 <> JNull
  /\ unexpected heartbeat_5 active
  /\ strict_eq (prop heartbeat_5 "event") (Some (JStr "info")) = false
  /\ handleMessage parse stringify versions (stringify heartbeat_5) active
     = (Normal tt,
        set_events
          (events active ++ [Logged DEBUG "unprocessed message" [Some heartbeat_5]])
          active).
Proof.
  assert (H1 : parse (stringify heartbeat_5) = Some heartbeat_5)
    by (vm_compute; reflexivity).
  assert (H2 : heartbeat_5 <> JNull) by discriminate.
  assert (H3 : unexpected heartbeat_5 active)
    by (split; apply unmatched_test; vm_compute; reflexivity).
  assert (H4 : strict_eq (prop heartbeat_5 "event") (Some (JStr "info")) = false)
    by (vm_compute; reflexivity).
  split; [exact H1|]. split; [exact H2|]. split; [exact H3|]. split; [exact H4|].
  exact (ControllerLaws.unexpected_message_logged parse stringify versions
           (stringify heartbeat_5) heartbeat_5 active H1 H2 H3 H4).
Defined.

(** An info message with code 20000. *)
Lemma unknown_info_code_logged_20000 :
  parse_more (stringify info_20000) = Some info_20000
  /\ unexpected info_20000 active
  /\ strict_eq (prop info_20000 "event") (Some (JStr "info")) = true
  /\ strict_eq (prop info_20000 "code") (Some (JNum 20051)) = false
  /\ strict_eq (prop info_20000 "code") (Some (JNum 20060)) = false
  /\ strict_eq (prop info_20000 "code") (Some (JNum 20061)) = false
  /\ handleMessage parse_more stringify versions (stringify info_20000) active
     = (Normal tt,
        set_events
          (events active
           ++ [Logged DEBUG "info message" [Some info_20000];
               Logged LOG "unknown info message code" [prop info_20000 "code"]])
          active).
Proof.
  assert (H1 : parse_more (stringify info_20000) = Some info_20000)
    by (vm_compute; reflexivity).
  assert (H2 : unexpected info_20000 active)
    by (split; apply unmatched_test; vm_compute; reflexivity).
  assert (H3 : strict_eq (prop info_20000 "event") (Some (JStr "info")) = true)
    by (vm_compute; reflexivity).
  assert (H4 : strict_eq (prop info_20000 "code") (Some (JNum 20051)) = false)
    by (vm_compute; reflexivity).
  assert (H5 : strict_eq (prop info_20000 "code") (Some (JNum 20060)) = false)
    by (vm_compute; reflexivity).
  assert (H6 : strict_eq (prop info_20000 "code") (Some (JNum 20061)) = false)
    by (vm_compute; reflexivity).
  split; [exact H1|]. split; [exact H2|]. split; [exact H3|]. split; [exact H4|].
  split; [exact H5|]. split; [exact H6|].
  exact (ControllerLaws.unknown_info_code_logged parse_more stringify versions
           (stringify info_20000) info_20000 active H1 H2 H3 H4 H5 H6).
Defined.

(** An active controller is restarted, pinged, and its new socket opens. *)
Lemma restart_keeps_queue_active :
  ws active = Some (mkWebSocket 0 OPEN)
  /\ ws (after restart active) = Some (mkWebSocket 1 CONNECTING)
  /\ resumeStack (sends stringify [ping_1] (after restart active)) = [SendBound ping_1]
  /\ resumeStack (after (resume stringify)
                        (transport OPEN (sends stringify [ping_1] (after restart active))))
     = [].
Proof.
  assert (H : ws active = Some (mkWebSocket 0 OPEN)) by (vm_compute; reflexivity).
  split; [exact H|].
  destruct (ControllerLaws.restart_keeps_queue stringify active (mkWebSocket 0 OPEN)
              [ping_1] H) as (_ & _ & H1 & _ & H2 & _ & _ & H3).
  split; [exact H1|]. split; [exact H2 | exact H3].
Defined.

(** A payload sent on an active controller reaches the transport. *)
Lemma transmits_only_when_open_send :
  transmitted (play [Send ping_1] active) <> transmitted active
  /\ paused (play [Send ping_1] active) = false
  /\ transport_open (play [Send ping_1] active).
Proof.
  assert (H : transmitted (play [Send ping_1] active) <> transmitted active)
    by (vm_compute; discriminate).
  split; [exact H|].
  exact (ControllerLaws.transmits_only_when_open parse stringify versions active
           (Send ping_1) H).
Defined.

(** The scenario of the ticker subscription, promise and lists. *)
Lemma subscribe_acknowledged_ticker :
  allocated (expectations active)
  /\ call_match (MatchSubscribed "BTCUSD") subscribed_BTCUSD_5 = true
  /\ unmatched subscribed_BTCUSD_5 (expectationsOnce (expectations active))
  /\ expectationsOnce (expectations streaming) = expectationsOnce (expectations active)
  /\ expectationsWhenever (expectations streaming)
     = expectationsWhenever (expectations active)
       ++ [snapshots 2 (Some (JNum 5)) 0; heartbeats 3 (Some (JNum 5))].
Proof.
  assert (H1 : call_match (MatchSubscribed "BTCUSD") subscribed_BTCUSD_5 = true)
    by (vm_compute; reflexivity).
  assert (H2 : unmatched subscribed_BTCUSD_5 (expectationsOnce (expectations active)))
    by (apply unmatched_test; vm_compute; reflexivity).
  split; [exact allocated_active|]. split; [exact H1|]. split; [exact H2|].
  destruct (ControllerLaws.subscribe_acknowledged stringify versions active
              "ticker" "BTCUSD" [("symbol", JStr "tBTCUSD")] 0 subscribed_BTCUSD_5
              allocated_active H1 H2) as (_ & _ & _ & H3 & H4).
  split; [exact H3 | exact H4].
Defined.

(** The seven methods called for BTCUSD on an active controller. *)
Lemma subscription_requests_BTCUSD :
  paused active = false
  /\ ws active = Some (mkWebSocket 0 OPEN)
  /\ readyState (mkWebSocket 0 OPEN) = OPEN
  /\ transmitted (after (subscribeCandles stringify "BTCUSD" (Function 0) None) active)
     = transmitted active
       ++ [stringify (JObj [("event", JStr "subscribe"); ("channel", JStr "candles");
                            ("symbol", JStr ""); ("key", JStr "trade:1m:tBTCUSD")])].
Proof.
  assert (H1 : paused active = false) by (vm_compute; reflexivity).
  assert (H2 : ws active = Some (mkWebSocket 0 OPEN)) by (vm_compute; reflexivity).
  assert (H3 : readyState (mkWebSocket 0 OPEN) = OPEN) by reflexivity.
  split; [exact H1|]. split; [exact H2|]. split; [exact H3|].
  destruct (ControllerLaws.subscription_requests stringify active (mkWebSocket 0 OPEN)
              "BTCUSD" 0 None H1 H2 H3) as (_ & _ & _ & _ & _ & _ & H & _).
  exact H.
Defined.

(** The queue of a controller that was pinged before it connected, fired
    twice. *)
Lemma fire_after_fire_or_reject_ping :
  (forall l s, resumeStack (set_resumeStack l s) = l)
  /\ (forall action s,
        result (call_action stringify action) s = Normal tt
        /\ exists pushed,
             resumeStack (after (call_action stringify action) s)
             = resumeStack s ++ pushed)
  /\ ActionsStack.fire (call_action stringify) resumeStack set_resumeStack
       (after (ActionsStack.fire (call_action stringify) resumeStack set_resumeStack)
              pinged_early)
     = (Normal tt,
        set_resumeStack []
          (after (ActionsStack.fire (call_action stringify) resumeStack set_resumeStack)
                 pinged_early)).
Proof.
  assert (H1 : forall l s, resumeStack (set_resumeStack l s) = l) by reflexivity.
  pose proof (BfxApiFacts.call_action_pushes stringify) as H2.
  split; [exact H1|]. split; [exact H2|].
  exact (proj1 (StackLaws.fire_after_fire_or_reject Action State (call_action stringify)
                  resumeStack set_resumeStack H1 H2 pinged_early (SendBound ping_1))).
Defined.

(** Two pings of an active controller, with a send and the pong of the
    first in between: the ids are 1 and 2.  And two pings of a controller
    whose counter has reached 2^53: both carry the id 2^53. *)
Lemma ping_ids_increase_active :
  let ops := [Send (JStr "raw"); OnMessage (stringify pong_1)] in
  let worn := set_pingCounter (2 ^ 53) active in
  (pingCounter (play (Ping :: ops) active) < 2 ^ 53)%Z
  /\ (exists cid cid',
        last (map (@matchf _ _)
                  (expectationsOnce (expectations (play [Ping] active))))
             MatchVersion = MatchPong cid
        /\ last (map (@matchf _ _)
                     (expectationsOnce
                        (expectations (play [Ping] (play (Ping :: ops) active)))))
                MatchVersion = MatchPong cid'
        /\ (cid < cid')%Z
        /\ cid = 1%Z
        /\ cid' = 2%Z)
  /\ (exists cid cid',
        last (map (@matchf _ _)
                  (expectationsOnce (expectations (play [Ping] worn))))
             MatchVersion = MatchPong cid
        /\ last (map (@matchf _ _)
                     (expectationsOnce
                        (expectations (play [Ping] (play (Ping :: ops) worn)))))
                MatchVersion = MatchPong cid'
        /\ cid = (2 ^ 53)%Z
        /\ cid' = (2 ^ 53)%Z).
Proof.
  intros ops worn.
  assert (H : (pingCounter (play (Ping :: ops) active) < 2 ^ 53)%Z)
    by (vm_compute; reflexivity).
  split; [exact H|]. split.
  - assert (H0 : (0 <= pingCounter active <= 2 ^ 53)%Z)
      by (vm_compute; split; discriminate).
    destruct (ControllerLaws.ping_ids_increase parse stringify versions active ops H0)
      as (cid & cid' & H1 & H2 & _ & Hlt & _).
    exists cid, cid'.
    split; [exact H1|]. split; [exact H2|]. split; [exact (Hlt H)|].
    split.
    + assert (E : MatchPong cid = MatchPong 1)
        by (rewrite <- H1; vm_compute; reflexivity).
      now inversion E.
    + assert (E : MatchPong cid' = MatchPong 2)
        by (rewrite <- H2; vm_compute; reflexivity).
      now inversion E.
  - assert (H0 : (0 <= pingCounter worn <= 2 ^ 53)%Z)
      by (vm_compute; split; discriminate).
    destruct (ControllerLaws.ping_ids_increase parse stringify versions worn ops H0)
      as (cid & cid' & H1 & H2 & _ & _ & Hsat).
    exists cid, cid'.
    split; [exact H1|]. split; [exact H2|].
    apply Hsat. reflexivity.
Defined.

(** Three payloads handed to a controller that has not been connected
    yet; then [connect], and the socket opens. *)
Lemma sends_while_paused_replayed_early :
  let payloads :=
    [ping_1; JStr "raw"; JObj [("event", JStr "unsubscribe"); ("chanId", JNum 5)]] in
  let queued := sends stringify payloads constructed in
  paused constructed = true
  /\ ws constructed = None
  /\ resumeStack queued = map SendBound payloads
  /\ transmitted (play [Connect; Transport OPEN; OnOpen] queued)
     = [stringify ping_1; "raw";
        stringify (JObj [("event", JStr "unsubscribe"); ("chanId", JNum 5)])]
  /\ resumeStack (play [Connect; Transport OPEN; OnOpen] queued) = [].
Proof.
  intros payloads queued.
  assert (H1 : paused constructed = true) by (vm_compute; reflexivity).
  split; [exact H1|]. split; [vm_compute; reflexivity|].
  destruct (ControllerLaws.sends_while_paused_replayed parse stringify versions
              constructed payloads H1) as (_ & Hq & Ht & He).
  split; [exact Hq|]. split; [exact Ht|exact He].
Defined.

End Trials.
